(** * Archive Studio: the Document AI handler with its text cleanup, the
      PDF import thread, the AI processing thread, the review tab and the
      loading of an image folder, embedded from [util/DocumentAIHandler.py]
      and [archive_studio_qt.py]. *)

From stdpp Require Import gmap strings list fin_maps.
From Stdlib Require Import NArith Decimal DecimalNat Permutation.

Set Default Proof Using "Type".
Set Warnings "-abstract-large-number".
Local Open Scope general_if_scope.

(** ** Python strings

    A Python [str] is a sequence of Unicode code points.  Texts are kept as
    lists of code points so that [str.strip], [str.split] and [str.isspace]
    see the same characters as the interpreter does; identifiers of the
    program (column names, dictionary keys) stay ordinary [string]s. *)
Module PyStr.

Abbreviation pystr := (list N).

Definition code (a : Ascii.ascii) : N := Ascii.N_of_ascii a.

Fixpoint str (s : string) : pystr :=
  match s with
  | EmptyString => []
  | String a s' => code a :: str s'
  end.

Global Arguments str _ : simpl never.

Definition LF : N := 10%N.
Definition SP : N := 32%N.

(** [str.isspace] on one code point: the table of CPython's
    [_PyUnicode_IsWhitespace]. *)
Definition isspace (c : N) : bool :=
  ((9 <=? c) && (c <=? 13) || (28 <=? c) && (c <=? 32)
   || (c =? 133) || (c =? 160) || (c =? 5760)
   || (8192 <=? c) && (c <=? 8202)
   || (c =? 8232) || (c =? 8233) || (c =? 8239) || (c =? 8287)
   || (c =? 12288))%N.

(** [s.lstrip()], [s.rstrip()], [s.strip()] with no argument. *)
Fixpoint lstrip (s : pystr) : pystr :=
  match s with
  | [] => []
  | c :: s' => if isspace c then lstrip s' else s
  end.

Fixpoint rstrip (s : pystr) : pystr :=
  match s with
  | [] => []
  | c :: s' =>
      match rstrip s' with
      | [] => if isspace c then [] else [c]
      | r => c :: r
      end
  end.

Definition strip (s : pystr) : pystr := lstrip (rstrip s).

(** [s.split(sep)] for a one-character separator: never an empty list. *)
Fixpoint split_on (sep : N) (s : pystr) : list pystr :=
  match s with
  | [] => [[]]
  | c :: s' =>
      if (c =? sep)%N then [] :: split_on sep s'
      else match split_on sep s' with
           | h :: t => (c :: h) :: t
           | [] => [[c]]
           end
  end.

(** [s.split()] with no argument: the maximal runs of non-whitespace. *)
Fixpoint split_ws (s : pystr) : list pystr :=
  match s with
  | [] => []
  | c :: s' =>
      if isspace c then split_ws s'
      else match s' with
           | [] => [[c]]
           | c' :: _ =>
               if isspace c' then [c] :: split_ws s'
               else match split_ws s' with
                    | w :: ws => (c :: w) :: ws
                    | [] => [[c]]
                    end
           end
  end.

(** [sep.join(parts)]. *)
Fixpoint join (sep : pystr) (parts : list pystr) : pystr :=
  match parts with
  | [] => []
  | [p] => p
  | p :: rest => p ++ sep ++ join sep rest
  end.

(** [re.sub(r'\n{3,}', '\n\n', s)]: [run] counts the line feeds of the run
    being read; a run of three or more is written back as two. *)
Definition flush_run (run : nat) : pystr :=
  replicate (if decide (3 <= run) then 2 else run) LF.

Fixpoint sub_nl3 (run : nat) (s : pystr) : pystr :=
  match s with
  | [] => flush_run run
  | c :: s' =>
      if (c =? LF)%N then sub_nl3 (S run) s'
      else flush_run run ++ c :: sub_nl3 0 s'
  end.

Definition re_sub_nl3 (s : pystr) : pystr := sub_nl3 0 s.

(** Decimal rendering of a non-negative integer, [str(n)]. *)
Fixpoint uint_codes (u : Decimal.uint) : pystr :=
  match u with
  | Nil => []
  | D0 u' => 48%N :: uint_codes u'
  | D1 u' => 49%N :: uint_codes u'
  | D2 u' => 50%N :: uint_codes u'
  | D3 u' => 51%N :: uint_codes u'
  | D4 u' => 52%N :: uint_codes u'
  | D5 u' => 53%N :: uint_codes u'
  | D6 u' => 54%N :: uint_codes u'
  | D7 u' => 55%N :: uint_codes u'
  | D8 u' => 56%N :: uint_codes u'
  | D9 u' => 57%N :: uint_codes u'
  end.

Definition dec (n : nat) : pystr := uint_codes (Nat.to_uint n).

(** The format spec [{n:0Wd}] for a non-negative [n]: at least [W] digits,
    padded on the left with zeros. *)
Definition fmt_0d (width n : nat) : pystr :=
  let d := dec n in replicate (width - length d) 48%N ++ d.

(** Lexicographic order of code points, the order [sorted] puts file names in. *)
Fixpoint lex_ltb (a b : pystr) : bool :=
  match a, b with
  | _, [] => false
  | [], _ :: _ => true
  | x :: a', y :: b' => (x <? y)%N || ((x =? y)%N && lex_ltb a' b')
  end.

End PyStr.

(** ** [DocumentAIHandler.process_image]: the cleanup of the service's text *)
Module DocumentAI.
Import PyStr.

Definition no_text_detected : pystr := str "No text detected in document".

(** Lines 142-147: the loop over the lines. *)
Fixpoint clean_lines (lines : list pystr) : list pystr :=
  match lines with
  | [] => []
  | line :: rest =>
      let line := strip line in
      match line with
      | [] => clean_lines rest
      | _ => join [SP] (split_ws line) :: clean_lines rest
      end
  end.

(** Lines 132-156, from [document.text] to the returned string. *)
Definition clean_document_text (text : pystr) : pystr :=
  match text, strip text with
  | [], _ | _, [] => no_text_detected
  | _, _ =>
      let lines := split_on LF text in
      let cleaned_lines := clean_lines lines in
      let cleaned_text := join [LF] cleaned_lines in
      let cleaned_text := re_sub_nl3 cleaned_text in
      strip cleaned_text
  end.

(** [process_image]: [configured] is [is_configured()]; [response] is the
    outcome of reading the file and calling the service, [None] when either
    raises. *)
Definition process_image (configured : bool) (response : option pystr)
  : option pystr :=
  if configured then
    match response with
    | Some text => Some (clean_document_text text)
    | None => None
    end
  else None.

Definition sample_input : pystr :=
  str "Line one   " ++ [LF; LF; LF; LF] ++ str "Line   two" ++ [LF; LF; LF].

Definition sample_output : pystr :=
  str "Line one" ++ [LF] ++ str "Line two".

End DocumentAI.

(** ** [archive_studio_qt.py] *)
Module ArchiveStudio.
Import PyStr.

(** *** The DataFrame

    A cell holds a string, an integer or NaN.  A row is the dictionary of
    its cells by column name; a column missing from a row reads as NaN,
    which is what [pd.concat] and [pd.DataFrame] put there.  Every frame of
    the program is built by [pd.DataFrame(list)], by
    [pd.concat(..., ignore_index=True)] or by [copy], so its index is
    [0 .. len-1] and a row label is the row's position. *)
Inductive cell :=
  | CStr (s : pystr)
  | CInt (n : nat)
  | CNaN.

#[global] Instance cell_eq_dec : EqDecision cell.
Proof. solve_decision. Defined.

Record DataFrame := {
  columns : list string;
  rows : list (gmap string cell);
}.

#[global] Instance DataFrame_eq_dec : EqDecision DataFrame.
Proof. solve_decision. Defined.

(** Python objects are shared by reference: a frame lives in the heap under
    its identity, and attributes hold identities. *)
Abbreviation ref := nat.

Definition df_len (df : DataFrame) : nat := length (rows df).

(** [df.empty]. *)
Definition df_empty (df : DataFrame) : bool :=
  (length (rows df) =? 0) || (length (columns df) =? 0).

(** [page_data.get(key, default)] on the Series [df.iloc[i]]. *)
Definition series_get (cols : list string) (page_data : gmap string cell)
    (key : string) (dflt : cell) : cell :=
  if bool_decide (key ∈ cols) then default CNaN (page_data !! key) else dflt.

(** [df.loc[i, col] = v]: in place; a new column is added to the frame, a
    new label is added as a new last row. *)
Definition loc_set (df : DataFrame) (i : nat) (col : string) (v : cell)
  : DataFrame :=
  let cols :=
    if bool_decide (col ∈ columns df) then columns df
    else columns df ++ [col] in
  match rows df !! i with
  | Some r => {| columns := cols; rows := <[i := <[col := v]> r]> (rows df) |}
  | None => {| columns := cols; rows := rows df ++ [{[col := v]}] |}
  end.

(** [pd.concat([a, b], ignore_index=True)]. *)
Definition pd_concat (a b : DataFrame) : DataFrame :=
  {| columns := columns a ++ filter (λ c, c ∉ columns a) (columns b);
     rows := rows a ++ rows b |}.

(** Truth value of a cell ([if not image_path]); NaN is a non-zero float. *)
Definition truthy (v : cell) : bool :=
  match v with
  | CStr s => negb (bool_decide (s = []))
  | CInt n => negb (n =? 0)
  | CNaN => true
  end.

(** *** The main window and the world around the threads *)
Record MainWindow := {
  main_df : option ref;
  data_operations : option (option ref);
  page_counter : nat;
  images_directory : option pystr;
  settings : option (list (gmap string pystr));
}.

Record World := {
  heap : gmap ref DataFrame;
  next_ref : ref;
  window : MainWindow;
}.

Definition set_window (w : World) (mw : MainWindow) : World :=
  {| heap := heap w; next_ref := next_ref w; window := mw |}.

Definition set_heap (w : World) (h : gmap ref DataFrame) : World :=
  {| heap := h; next_ref := next_ref w; window := window w |}.

(** A new object: a fresh identity bound to the value. *)
Definition alloc (df : DataFrame) (w : World) : ref * World :=
  (next_ref w,
   {| heap := <[next_ref w := df]> (heap w);
      next_ref := S (next_ref w);
      window := window w |}).

(** The frame the main window's [main_df] attribute refers to. *)
Definition store (w : World) : option DataFrame :=
  main_df (window w) ≫= λ r, heap w !! r.

Definition store_rows (w : World) : list (gmap string cell) :=
  from_option rows [] (store w).

(** Outside world: the file system, [os.path], and the provider call of
    [APIHandler.route_api_call], whose module is not part of these files. *)
Inductive api_reply :=
  | Reply_tuple (first : option pystr)
  | Reply_str (s : pystr)
  | Reply_other
  | Reply_raises.

Record api_request := {
  engine : pystr;
  system_prompt : pystr;
  user_prompt : pystr;
  temp : pystr;
  image_data : option pystr;
  text_to_process : pystr;
  val_text : pystr;
  index : nat;
  is_base64 : bool;
  job_type : pystr;
}.

Record Environment := {
  os_path_exists : pystr → bool;
  os_path_absolute : pystr → pystr;
  os_path_join : pystr → pystr → pystr;
  os_path_dirname : pystr → pystr;
  get_relative_path : pystr → pystr;
  route_api_call : api_request → api_reply;
}.

(** The signals of the two threads. *)
Inductive signal :=
  | progress_updated (current total : nat) (status : pystr)
  | processing_complete (message : pystr)
  | error_occurred (message : pystr)
  | import_complete (message : pystr)
  | import_error (message : pystr).

#[global] Instance signal_eq_dec : EqDecision signal.
Proof. solve_decision. Defined.

(** [self.is_cancelled] is set once, by the GUI thread, and read only by
    the thread's own [run]: the successive reads see [False] a number of
    times and [True] from then on.  [cancel = Some t] sets the flag before
    read number [t] (counting from 0); [None] never sets it. *)
Definition is_cancelled (cancel : option nat) (read : nat) : bool :=
  match cancel with
  | Some t => t <=? read
  | None => false
  end.

Inductive fallible (A : Type) :=
  | Ok (a : A)
  | Raise (msg : pystr).
Arguments Ok {A} a.
Arguments Raise {A} msg.

(** *** [PDFImportThread] *)

(** What PyMuPDF does for one page: [page.get_pixmap], [pix.save] and
    [page.get_text]. *)
Record pdf_page := {
  get_pixmap : fallible unit;
  save : fallible unit;
  get_text : fallible pystr;
}.

Definition batch_size : nat := 5.

(** [range(0, stop, step)] and [range(a, b)]. *)
Definition range_step (stop step : nat) : list nat :=
  (λ k, k * step) <$> seq 0 ((stop + step - 1) / step).

Definition range (a b : nat) : list nat := seq a (b - a).

(** Line 424: [f"{new_index+1:04d}_p{new_index+1:03d}"]. *)
Definition new_page_num_str (new_index : nat) : pystr :=
  fmt_0d 4 (new_index + 1) ++ str "_p" ++ fmt_0d 3 (new_index + 1).

Definition image_filename (new_index : nat) : pystr :=
  new_page_num_str new_index ++ str ".jpg".

Definition nonblank (s : pystr) : bool :=
  negb (bool_decide (strip s = [])).

(** Lines 441-453, the literal of [new_row_data]. *)
Definition new_row_data (new_index : nat) (text_content image_path_rel : pystr)
  : gmap string cell :=
  let has_text := negb (bool_decide (text_content = [])) && nonblank text_content in
  <["Relevance" := CStr []]>
  (<["Text_Toggle" := CStr (if has_text then str "Original_Text" else str "None")]>
  (<["Text_Path" := CStr []]>
  (<["Image_Path" := CStr image_path_rel]>
  (<["Translation" := CStr []]>
  (<["Separated_Text" := CStr []]>
  (<["Formatted_Text" := CStr []]>
  (<["Corrected_Text" := CStr []]>
  (<["Original_Text" := CStr (if has_text then text_content else [])]>
  (<["Page" := CStr (new_page_num_str new_index)]>
  (<["Index" := CInt new_index]> ∅)))))))))).

Definition base_columns : list string :=
  ["Index"; "Page"; "Original_Text"; "Corrected_Text"; "Formatted_Text";
   "Separated_Text"; "Translation"; "Image_Path"; "Text_Path"; "Text_Toggle";
   "Relevance"]%string.

(** Lines 456-458: every other column of [main_df] gets an empty string. *)
Fixpoint add_other_columns (cols : list string) (row : gmap string cell)
  : gmap string cell :=
  match cols with
  | [] => row
  | col :: rest =>
      add_other_columns rest
        (match row !! col with
         | None => <[col := CStr []]> row
         | Some _ => row
         end)
  end.

(** The keys of a finished [new_row_data], in insertion order: the columns
    of [pd.DataFrame(new_rows_list)]. *)
Definition new_row_columns (main_cols : list string) : list string :=
  base_columns ++ filter (λ c, c ∉ base_columns) main_cols.

Record import_state := {
  new_rows_list : list (gmap string cell);
  emitted : list signal;
  saved : list pystr;
}.

Inductive outcome :=
  | Done (st : import_state)
  | Raised (st : import_state) (msg : pystr).

Definition index_error : pystr := str "page not in document".

(** Lines 410-460: the body of the loop over the pages of one batch. *)
Definition import_page (E : Environment) (main_cols : list string)
    (images_dir : pystr) (pages : list pdf_page) (start_index : nat)
    (st : import_state) (page_num : nat) : outcome :=
  let total_pages := length pages in
  let st1 :=
    {| new_rows_list := new_rows_list st;
       emitted := emitted st ++
         [progress_updated (page_num + 1) total_pages
            (str "Processing page " ++ dec (page_num + 1) ++ str " of "
             ++ dec total_pages)];
       saved := saved st |} in
  match pages !! page_num with
  | None => Raised st1 index_error
  | Some page =>
      match get_pixmap page with
      | Raise msg => Raised st1 msg
      | Ok _ =>
          let new_index := start_index + page_num in
          let image_path_abs := os_path_join E images_dir (image_filename new_index) in
          match save page with
          | Raise msg => Raised st1 msg
          | Ok _ =>
              let st2 :=
                {| new_rows_list := new_rows_list st1;
                   emitted := emitted st1;
                   saved := saved st1 ++ [image_path_abs] |} in
              let image_path_rel := get_relative_path E image_path_abs in
              match get_text page with
              | Raise msg => Raised st2 msg
              | Ok text_content =>
                  let row :=
                    add_other_columns main_cols
                      (new_row_data new_index text_content image_path_rel) in
                  Done {| new_rows_list := new_rows_list st2 ++ [row];
                          emitted := emitted st2;
                          saved := saved st2 |}
              end
          end
      end
  end.

(** Lines 406-460: the pages of one batch; the flag is read before each.
    [read] counts the reads of the flag so far. *)
Fixpoint import_batch (E : Environment) (cancel : option nat)
    (main_cols : list string) (images_dir : pystr) (pages : list pdf_page)
    (start_index : nat) (page_nums : list nat) (read : nat) (st : import_state)
  : outcome * nat :=
  match page_nums with
  | [] => (Done st, read)
  | page_num :: rest =>
      if is_cancelled cancel read then (Done st, S read)
      else
        match import_page E main_cols images_dir pages start_index st page_num with
        | Done st' =>
            import_batch E cancel main_cols images_dir pages start_index rest
              (S read) st'
        | Raised st' msg => (Raised st' msg, S read)
        end
  end.

(** Lines 399-464: the batches; the flag is read before each. *)
Fixpoint import_batches (E : Environment) (cancel : option nat)
    (main_cols : list string) (images_dir : pystr) (pages : list pdf_page)
    (start_index : nat) (batch_starts : list nat) (read : nat) (st : import_state)
  : outcome * nat :=
  match batch_starts with
  | [] => (Done st, read)
  | batch_start :: rest =>
      if is_cancelled cancel read then (Done st, S read)
      else
        let total_pages := length pages in
        let batch_end := min (batch_start + batch_size) total_pages in
        match import_batch E cancel main_cols images_dir pages start_index
                (range batch_start batch_end) (S read) st with
        | (Done st', read') =>
            import_batches E cancel main_cols images_dir pages start_index rest
              read' st'
        | (Raised st' msg, read') => (Raised st' msg, read')
        end
  end.

Definition no_main_df : pystr :=
  str "'ArchiveStudioQt' object has no attribute 'main_df'".

Definition import_failed (msg : pystr) : signal :=
  import_error (str "Import error: " ++ msg).

Definition import_cancelled : signal :=
  import_error (str "Import cancelled by user").

Definition set_images_directory (mw : MainWindow) (d : pystr) : MainWindow :=
  {| main_df := main_df mw; data_operations := data_operations mw;
     page_counter := page_counter mw; images_directory := Some d;
     settings := settings mw |}.

(** Lines 386-390: the images directory defaults to a folder next to the
    PDF; [os.makedirs] is taken to succeed. *)
Definition ensure_images_directory (E : Environment) (pdf_path : pystr)
    (mw : MainWindow) : MainWindow * pystr :=
  let beside_pdf := os_path_join E (os_path_dirname E pdf_path) (str "images") in
  match images_directory mw with
  | Some d =>
      if bool_decide (d = []) then (set_images_directory mw beside_pdf, beside_pdf)
      else (mw, d)
  | None => (set_images_directory mw beside_pdf, beside_pdf)
  end.

(** [PDFImportThread.run].  [document] is what [fitz.open(self.pdf_path)]
    gives.  The result is the world after the run, the signals in the order
    they were emitted, and the image files written. *)
Definition PDFImportThread_run (E : Environment) (document : fallible (list pdf_page))
    (pdf_path : pystr) (cancel : option nat) (w : World)
  : World * list signal * list pystr :=
  match document with
  | Raise msg => (w, [import_failed msg], [])
  | Ok pages =>
      let total_pages := length pages in
      let started := [progress_updated 0 total_pages (str "Starting PDF import...")] in
      let '(mw1, images_dir) := ensure_images_directory E pdf_path (window w) in
      let w1 := set_window w mw1 in
      match store w1 with
      | None => (w1, started ++ [import_failed no_main_df], [])
      | Some df0 =>
          let start_index := df_len df0 in
          let st0 := {| new_rows_list := []; emitted := started; saved := [] |} in
          match import_batches E cancel (columns df0) images_dir pages start_index
                  (range_step total_pages batch_size) 0 st0 with
          | (Raised st msg, _) => (w1, emitted st ++ [import_failed msg], saved st)
          | (Done st, read) =>
              if negb (is_cancelled cancel read)
                 && negb (bool_decide (new_rows_list st = [])) then
                let new_rows_df :=
                  {| columns := new_row_columns (columns df0);
                     rows := new_rows_list st |} in
                let '(r, w2) := alloc (pd_concat df0 new_rows_df) w1 in
                let mw2 :=
                  {| main_df := Some r; data_operations := data_operations (window w2);
                     page_counter := start_index;
                     images_directory := images_directory (window w2);
                     settings := settings (window w2) |} in
                (set_window w2 mw2,
                 emitted st ++
                   [import_complete (str "PDF import completed: "
                      ++ dec (length (new_rows_list st)) ++ str " pages imported")],
                 saved st)
              else if is_cancelled cancel (S read) then
                (w1, emitted st ++ [import_cancelled], saved st)
              else
                (w1, emitted st ++ [import_error (str "No pages were imported")], saved st)
          end
      end
  end.

(** *** [AIProcessingThread] *)
Inductive operation := htr_all | correct_text | translate | extract_metadata.

Record AIProcessingThread := {
  operation_type : operation;
  data : option ref;
  isRunning : bool;
}.

(** [MainWindow.get_full_path]: a blank path comes back as it is, any other
    is made absolute by [os.path]. *)
Definition get_full_path (E : Environment) (path : pystr) : pystr :=
  if nonblank path then os_path_absolute E path else path.

(** The [for preset in settings.function_presets] loop with its [break]. *)
Fixpoint find_preset (name : pystr) (function_presets : list (gmap string pystr))
  : option (gmap string pystr) :=
  match function_presets with
  | [] => None
  | preset :: rest =>
      if bool_decide (preset !! "name"%string = Some name) then Some preset
      else find_preset name rest
  end.

Definition preset_get (preset : gmap string pystr) (key : string) (dflt : pystr)
  : pystr :=
  default dflt (preset !! key).

(** [call_ai_api_thread_safe].  A result that is no string is [None].  The
    temperature text goes to the provider call as it is: [float()] raising
    on it is one of the ways the call can raise.  [os.path.exists] raises on
    NaN, and so it is taken to do on a non-zero integer, which no frame of
    the program holds as an image path. *)
Definition call_ai_api_thread_safe (E : Environment) (image_path : cell)
    (preset : gmap string pystr) (page_index : nat) (text : pystr)
  : option pystr :=
  let request (image : option pystr) :=
    {| engine := preset_get preset "model" (str "gemini-1.5-pro");
       system_prompt := preset_get preset "general_instructions" [];
       user_prompt := preset_get preset "specific_instructions" [];
       temp := preset_get preset "temperature" (str "0.3");
       image_data := image;
       text_to_process := text;
       val_text := preset_get preset "val_text" [];
       index := page_index;
       is_base64 := false;
       job_type := preset_get preset "name" (str "HTR") |} in
  let extract (reply : api_reply) :=
    match reply with
    | Reply_tuple first => first
    | Reply_str s => Some s
    | Reply_other | Reply_raises => Some []
    end in
  match image_path with
  | CStr p =>
      extract (route_api_call E
        (request (if truthy (CStr p) && os_path_exists E p then Some p else None)))
  | CInt 0 => extract (route_api_call E (request None))
  | CInt (S _) | CNaN => Some []
  end.

(** [process_single_page_htr]: [Some result] when the page succeeds, and
    then [result] is what the task writes; [None] when it returns [False].
    An image path that is no string (NaN, where a column was missing from
    some rows) makes [os.path.exists] raise, which the [except] turns into
    [False]. *)
Definition process_single_page_htr (E : Environment) (mw : MainWindow)
    (cols : list string) (page_data : gmap string cell) (page_index : nat)
  : option pystr :=
  let image_path := series_get cols page_data "Image_Path" (CStr []) in
  if negb (truthy image_path) then None
  else
    match image_path with
    | CStr p =>
        let image_path := get_full_path E p in
        if negb (os_path_exists E image_path) then None
        else
          match settings mw with
          | None => None
          | Some function_presets =>
              match find_preset (str "HTR") function_presets with
              | None => None
              | Some htr_preset =>
                  match call_ai_api_thread_safe E (CStr image_path) htr_preset
                          page_index [] with
                  | Some result => if nonblank result then Some result else None
                  | None => None
                  end
              end
          end
    | _ => None
    end.

(** Lines 172-173, the two writes of a successful HTR task. *)
Definition htr_store (df : DataFrame) (page_index : nat) (result : pystr)
  : DataFrame :=
  loc_set (loc_set df page_index "Original_Text" (CStr result))
    page_index "Text_Toggle" (CStr (str "Original_Text")).

(** [process_single_page_correction]. *)
Definition process_single_page_correction (E : Environment) (mw : MainWindow)
    (cols : list string) (page_data : gmap string cell) (page_index : nat)
  : option pystr :=
  match series_get cols page_data "Original_Text" (CStr []) with
  | CStr original_text =>
      if negb (nonblank original_text) then None
      else
        let image_path := series_get cols page_data "Image_Path" (CStr []) in
        let image_path :=
          match image_path with
          | CStr p => CStr (if truthy (CStr p) then get_full_path E p else p)
          | other => other
          end in
        match settings mw with
        | None => None
        | Some function_presets =>
            match find_preset (str "Correct_Text") function_presets with
            | None => None
            | Some correction_preset =>
                match call_ai_api_thread_safe E image_path correction_preset
                        page_index original_text with
                | Some result => if nonblank result then Some result else None
                | None => None
                end
            end
        end
  | _ => None
  end.

Definition correction_store (df : DataFrame) (page_index : nat) (result : pystr)
  : DataFrame :=
  loc_set (loc_set df page_index "Corrected_Text" (CStr result))
    page_index "Text_Toggle" (CStr (str "Corrected_Text")).

(** [sync_dataframe_to_main_window]: the window and [data_operations] each
    get a copy of their own. *)
Definition sync_dataframe_to_main_window (d : ref) (w : World) : World :=
  match heap w !! d with
  | None => w
  | Some df =>
      let '(r1, w1) := alloc df w in
      let mw1 :=
        {| main_df := Some r1; data_operations := data_operations (window w1);
           page_counter := page_counter (window w1);
           images_directory := images_directory (window w1);
           settings := settings (window w1) |} in
      let w2 := set_window w1 mw1 in
      match data_operations mw1 with
      | None => w2
      | Some _ =>
          let '(r2, w3) := alloc df w2 in
          set_window w3
            {| main_df := Some r1; data_operations := Some (Some r2);
               page_counter := page_counter mw1;
               images_directory := images_directory mw1;
               settings := settings mw1 |}
      end
  end.

Definition no_data : signal :=
  error_occurred (str "No data available for processing").

Definition pages_processed (what : string) (processed_count total_pages : nat)
  : signal :=
  processing_complete
    (str what ++ dec processed_count ++ str "/" ++ dec total_pages
     ++ str " pages processed").

(** Lines 86-92: pages are submitted until the flag is seen set.  The
    result is the submitted pages and the number of reads so far. *)
Fixpoint submit_pages (cancel : option nat) (read : nat) (pages : list nat)
  : list nat * nat :=
  match pages with
  | [] => ([], read)
  | i :: rest =>
      if is_cancelled cancel read then ([], S read)
      else
        let '(submitted, read') := submit_pages cancel (S read) rest in
        (i :: submitted, read')
  end.

(** Lines 95-110: the futures are taken as they complete. *)
Fixpoint harvest (cancel : option nat) (read : nat) (total_pages : nat)
    (success : nat → bool) (completed : list nat) (processed_count : nat)
  : nat * list signal * nat :=
  match completed with
  | [] => (processed_count, [], read)
  | page_index :: rest =>
      if is_cancelled cancel read then (processed_count, [], S read)
      else
        let processed_count :=
          if success page_index then processed_count + 1 else processed_count in
        let '(n, sigs, read') :=
          harvest cancel (S read) total_pages success rest processed_count in
        (n,
         progress_updated processed_count total_pages
           (str "Completed page " ++ dec (page_index + 1)) :: sigs,
         read')
  end.

(** What the pool has done when the [with] block is left: every submitted
    task has run, each on the [page_data] read when it was submitted, each
    writing only to its own row. *)
Definition run_tasks (task : nat → option pystr) (submitted : list nat)
    (df : DataFrame) : DataFrame :=
  foldl (λ d i, match task i with
                | Some result => htr_store d i result
                | None => d
                end) df submitted.

(** Lines 90-91: the task submitted for page [i], on [data.iloc[i]]. *)
Definition htr_task (E : Environment) (mw : MainWindow) (df : DataFrame)
    (i : nat) : option pystr :=
  rows df !! i ≫= λ page_data,
    process_single_page_htr E mw (columns df) page_data i.

(** [process_htr_all].  [as_completed] is the order in which the pool
    hands back the submitted pages.  Leaving the [with] block waits for
    every submitted task, harvested or not, so the frame then holds the
    writes of all of them. *)
Definition process_htr_all (E : Environment) (cancel : option nat)
    (as_completed : list nat → list nat) (self : AIProcessingThread) (w : World)
  : World * list signal :=
  match data self with
  | None => (w, [no_data])
  | Some d =>
      match heap w !! d with
      | None => (w, [no_data])
      | Some df =>
          if df_empty df then (w, [no_data])
          else
            let total_pages := df_len df in
            let '(submitted, read1) :=
              submit_pages cancel 0 (range 0 total_pages) in
            let task := htr_task E (window w) df in
            let '(processed_count, sigs, read2) :=
              harvest cancel read1 total_pages (λ i, bool_decide (is_Some (task i)))
                (as_completed submitted) 0 in
            let w1 := set_heap w (<[d := run_tasks task submitted df]> (heap w)) in
            if negb (is_cancelled cancel read2) then
              (sync_dataframe_to_main_window d w1,
               sigs ++ [pages_processed "HTR processing completed: "
                          processed_count total_pages])
            else
              (w1,
               sigs ++ [pages_processed "HTR processing cancelled: "
                          processed_count total_pages])
      end
  end.

Record correction_state := {
  c_reads : nat;
  c_df : DataFrame;
  c_processed : nat;
  c_emitted : list signal;
}.

Definition no_strip (v : cell) : pystr :=
  match v with
  | CInt _ => str "'int' object has no attribute 'strip'"
  | _ => str "'float' object has no attribute 'strip'"
  end.

(** Lines 239-252: one page after the other, on the frame as it is then. *)
Fixpoint correct_pages (E : Environment) (cancel : option nat) (mw : MainWindow)
    (total_pages : nat) (pages : list nat) (st : correction_state)
  : correction_state * option pystr :=
  match pages with
  | [] => (st, None)
  | i :: rest =>
      if is_cancelled cancel (c_reads st) then
        ({| c_reads := S (c_reads st); c_df := c_df st;
            c_processed := c_processed st; c_emitted := c_emitted st |}, None)
      else
        let emitted :=
          c_emitted st ++
            [progress_updated (i + 1) total_pages
               (str "Correcting text for page " ++ dec (i + 1))] in
        let page_data := default ∅ (rows (c_df st) !! i) in
        match series_get (columns (c_df st)) page_data "Original_Text" (CStr []) with
        | CStr original_text =>
            let st' :=
              if nonblank original_text then
                match process_single_page_correction E mw (columns (c_df st))
                        page_data i with
                | Some result =>
                    {| c_reads := S (c_reads st);
                       c_df := correction_store (c_df st) i result;
                       c_processed := c_processed st + 1;
                       c_emitted := emitted |}
                | None =>
                    {| c_reads := S (c_reads st); c_df := c_df st;
                       c_processed := c_processed st; c_emitted := emitted |}
                end
              else
                {| c_reads := S (c_reads st); c_df := c_df st;
                   c_processed := c_processed st; c_emitted := emitted |} in
            correct_pages E cancel mw total_pages rest st'
        | other =>
            ({| c_reads := S (c_reads st); c_df := c_df st;
                c_processed := c_processed st; c_emitted := emitted |},
             Some (no_strip other))
        end
  end.

(** [process_text_correction]. *)
Definition process_text_correction (E : Environment) (cancel : option nat)
    (self : AIProcessingThread) (w : World) : World * list signal :=
  match data self with
  | None => (w, [no_data])
  | Some d =>
      match heap w !! d with
      | None => (w, [no_data])
      | Some df =>
          if df_empty df then (w, [no_data])
          else
            let total_pages := df_len df in
            let '(st, raised) :=
              correct_pages E cancel (window w) total_pages (range 0 total_pages)
                {| c_reads := 0; c_df := df; c_processed := 0; c_emitted := [] |} in
            let w1 := set_heap w (<[d := c_df st]> (heap w)) in
            match raised with
            | Some msg =>
                (w1, c_emitted st ++
                       [error_occurred (str "Text correction failed: " ++ msg)])
            | None =>
                if negb (is_cancelled cancel (c_reads st)) then
                  (sync_dataframe_to_main_window d w1,
                   c_emitted st ++
                     [pages_processed "Text correction completed: "
                        (c_processed st) total_pages])
                else
                  (w1,
                   c_emitted st ++
                     [pages_processed "Text correction cancelled: "
                        (c_processed st) total_pages])
            end
      end
  end.

(** The loops of [process_translation] and [process_metadata_extraction]. *)
Fixpoint simulate (cancel : option nat) (read : nat) (total_items : nat)
    (label : string) (items : list nat) : list signal * nat :=
  match items with
  | [] => ([], read)
  | i :: rest =>
      if is_cancelled cancel read then ([], S read)
      else
        let '(sigs, read') := simulate cancel (S read) total_items label rest in
        (progress_updated (i + 1) total_items (str label ++ dec (i + 1)) :: sigs,
         read')
  end.

Definition process_simulated (cancel : option nat) (total_items : nat)
    (label done : string) : list signal :=
  let '(sigs, read) := simulate cancel 0 total_items label (range 0 total_items) in
  if negb (is_cancelled cancel read) then sigs ++ [processing_complete (str done)]
  else sigs.

Definition process_translation (cancel : option nat) : list signal :=
  process_simulated cancel 8 "Translating segment " "Translation completed".

Definition process_metadata_extraction (cancel : option nat) : list signal :=
  process_simulated cancel 15 "Extracting metadata from page "
    "Metadata extraction completed".

(** [AIProcessingThread.run]. *)
Definition AIProcessingThread_run (E : Environment) (cancel : option nat)
    (as_completed : list nat → list nat) (self : AIProcessingThread) (w : World)
  : World * list signal :=
  match operation_type self with
  | htr_all => process_htr_all E cancel as_completed self w
  | correct_text => process_text_correction E cancel self w
  | translate => (w, process_translation cancel)
  | extract_metadata => (w, process_metadata_extraction cancel)
  end.

(** *** [ProcessTab] *)
Record ProcessTab := {
  current_thread : option AIProcessingThread;
  processing : bool;
}.

Inductive ui_effect :=
  | QMessageBox_warning (title text : pystr)
  | thread_start (th : AIProcessingThread).

Definition busy_warning : ui_effect :=
  QMessageBox_warning (str "Processing")
    (str "Another operation is already running. Please wait or cancel it first.").

(** [ProcessTab.start_ai_processing]: the new thread's [data] is the very
    object [main_window.main_df] refers to. *)
Definition start_ai_processing (tab : ProcessTab) (w : World) (op : operation)
  : ProcessTab * World * list ui_effect :=
  if match current_thread tab with
     | Some th => isRunning th
     | None => false
     end
  then (tab, w, [busy_warning])
  else
    let th := {| operation_type := op; data := main_df (window w);
                 isRunning := true |} in
    ({| current_thread := Some th; processing := true |}, w, [thread_start th]).

End ArchiveStudio.

(** ** Vocabulary of the statements *)
Module Spec.
Import PyStr.

(** A word: not empty, no whitespace in it. *)
Definition is_word (w : pystr) : bool :=
  negb (bool_decide (w = [])) && forallb (λ c, negb (isspace c)) w.

(** A tidy line: not empty, no whitespace at either end, and the only
    whitespace inside are single spaces.  [after_space] tells that the
    previous character was a space (or that the line starts here). *)
Fixpoint tidy_from (after_space : bool) (l : pystr) : bool :=
  match l with
  | [] => negb after_space
  | c :: l' =>
      if isspace c then (c =? SP)%N && negb after_space && tidy_from true l'
      else tidy_from false l'
  end.

Definition tidy_line (l : pystr) : bool := tidy_from true l.

Definition has_nonspace (s : pystr) : bool :=
  existsb (λ c, negb (isspace c)) s.

(** A page that PyMuPDF handles without raising, and its text. *)
Definition page_ok (page : ArchiveStudio.pdf_page) : bool :=
  match ArchiveStudio.get_pixmap page, ArchiveStudio.save page,
        ArchiveStudio.get_text page with
  | ArchiveStudio.Ok _, ArchiveStudio.Ok _, ArchiveStudio.Ok _ => true
  | _, _, _ => false
  end.

Definition page_text (pages : list ArchiveStudio.pdf_page) (page_num : nat)
  : pystr :=
  match ArchiveStudio.get_text <$> pages !! page_num with
  | Some (ArchiveStudio.Ok text) => text
  | _ => []
  end.

(** The row the import builds for page [page_num]. *)
Definition imported_row (E : ArchiveStudio.Environment) (main_cols : list string)
    (images_dir : pystr) (pages : list ArchiveStudio.pdf_page)
    (start_index page_num : nat) : gmap string ArchiveStudio.cell :=
  let new_index := start_index + page_num in
  ArchiveStudio.add_other_columns main_cols
    (ArchiveStudio.new_row_data new_index (page_text pages page_num)
       (ArchiveStudio.get_relative_path E
          (ArchiveStudio.os_path_join E images_dir
             (ArchiveStudio.image_filename new_index)))).

(** The pages one after the other, with no flag to look at. *)
Fixpoint import_pages (E : ArchiveStudio.Environment) (main_cols : list string)
    (images_dir : pystr) (pages : list ArchiveStudio.pdf_page)
    (start_index : nat) (page_nums : list nat) (st : ArchiveStudio.import_state)
  : ArchiveStudio.outcome :=
  match page_nums with
  | [] => ArchiveStudio.Done st
  | page_num :: rest =>
      match ArchiveStudio.import_page E main_cols images_dir pages start_index
              st page_num with
      | ArchiveStudio.Done st' =>
          import_pages E main_cols images_dir pages start_index rest st'
      | raised => raised
      end
  end.

(** The pages of all the batches, in the order the loops visit them. *)
Definition batched_pages (total_pages : nat) : list nat :=
  ArchiveStudio.range_step total_pages ArchiveStudio.batch_size ≫= λ batch_start,
    ArchiveStudio.range batch_start
      (min (batch_start + ArchiveStudio.batch_size) total_pages).

(** The reads of the flag an import makes in its loops when it is never
    cancelled: one for each batch and one for each page. *)
Definition loop_reads (total_pages : nat) : nat :=
  length (ArchiveStudio.range_step total_pages ArchiveStudio.batch_size)
  + total_pages.

(** A page with no usable image: its path is empty, or no file is there. *)
Definition image_missing (E : ArchiveStudio.Environment) (cols : list string)
    (page_data : gmap string ArchiveStudio.cell) : bool :=
  match ArchiveStudio.series_get cols page_data "Image_Path" (ArchiveStudio.CStr []) with
  | ArchiveStudio.CStr p =>
      bool_decide (p = [])
      || negb (ArchiveStudio.os_path_exists E (ArchiveStudio.get_full_path E p))
  | _ => false
  end.

(** The cell of a row of a frame, if the row is there and has the cell. *)
Definition cell_at (df : ArchiveStudio.DataFrame) (i : nat) (col : string)
  : option ArchiveStudio.cell :=
  ArchiveStudio.rows df !! i ≫= λ r, r !! col.

(** The pages whose HTR task succeeds. *)
Definition htr_succeeds (E : ArchiveStudio.Environment)
    (mw : ArchiveStudio.MainWindow) (df : ArchiveStudio.DataFrame) (i : nat)
  : bool :=
  bool_decide (is_Some (ArchiveStudio.htr_task E mw df i)).

(** Each row's [Index] is its position in the frame. *)
Definition indexed_by_position (rs : list (gmap string ArchiveStudio.cell)) : Prop :=
  ∀ k r, rs !! k = Some r → r !! "Index"%string = Some (ArchiveStudio.CInt k).

(** Every row has a string, or nothing, as its original text. *)
Definition original_texts_are_strings (df : ArchiveStudio.DataFrame) : Prop :=
  Forall (λ r, ∃ s,
    ArchiveStudio.series_get (ArchiveStudio.columns df) r "Original_Text"
      (ArchiveStudio.CStr []) = ArchiveStudio.CStr s) (ArchiveStudio.rows df).

(** Reading a number back: the decimal digits a text starts with. *)
Fixpoint read_uint (s : pystr) : Decimal.uint :=
  match s with
  | [] => Nil
  | c :: s' =>
      if (c =? 48)%N then D0 (read_uint s')
      else if (c =? 49)%N then D1 (read_uint s')
      else if (c =? 50)%N then D2 (read_uint s')
      else if (c =? 51)%N then D3 (read_uint s')
      else if (c =? 52)%N then D4 (read_uint s')
      else if (c =? 53)%N then D5 (read_uint s')
      else if (c =? 54)%N then D6 (read_uint s')
      else if (c =? 55)%N then D7 (read_uint s')
      else if (c =? 56)%N then D8 (read_uint s')
      else if (c =? 57)%N then D9 (read_uint s')
      else Nil
  end.

Definition read_nat (s : pystr) : nat := Nat.of_uint (read_uint s).

(** The page token written from the decimal digits of [new_index + 1],
    least significant first, and the check that it grows with each of the
    next [k] successors. *)
Definition token_of_digits (u : Decimal.uint) : pystr :=
  let d := uint_codes (Decimal.rev u) in
  (replicate (4 - length d) 48%N ++ d) ++ str "_p"
    ++ (replicate (3 - length d) 48%N ++ d).

Fixpoint tokens_increase (k : nat) (u : Decimal.uint) : bool :=
  match k with
  | 0 => true
  | S k' =>
      lex_ltb (token_of_digits u) (token_of_digits (Decimal.Little.succ u))
      && tokens_increase k' (Decimal.Little.succ u)
  end.

End Spec.

(** ** The claims of the specification that the program does not meet,
       in the specification's words *)
Module Claimed.
Import PyStr Spec ArchiveStudio.



(** "The snapshot is handed back, preserving partial results through
    cancellation": whatever text the job's frame [d] holds for a page is
    the text the main store holds for it. *)
Definition partial_results_in_store (d : ref) (w' : World) : Prop :=
  ∀ i text,
    (heap w' !! d ≫= λ df, cell_at df i "Original_Text") = Some (CStr text) →
    (store w' ≫= λ df, cell_at df i "Original_Text") = Some (CStr text).

(** "Index 7 → an 0008_p007-style token." *)
Definition token_of_index_7 : pystr := str "0008_p007".

(** "The terminal event is the error message "Import cancelled by user"
    rather than a partial-success report." *)
Definition ends_with_cancellation (sigs : list signal) : Prop :=
  last sigs = Some import_cancelled.

(** "That page's text fields stay at their defaults": read the way the
    tasks read a page, [page_data.get('Original_Text', '')], the original
    text of page [i] is the empty default. *)
Definition original_text_at_default (df : DataFrame) (i : nat) : Prop :=
  ∀ page_data, rows df !! i = Some page_data →
    series_get (columns df) page_data "Original_Text" (CStr []) = CStr [].

End Claimed.

(** ** Concrete runs *)
Module Scenario.
Import PyStr Spec ArchiveStudio.

(** A world where every path exists but [missing.jpg], paths are kept as
    they are, and the provider answers every call with a text. *)
Definition E0 : Environment :=
  {| os_path_exists := λ p, negb (bool_decide (p = str "missing.jpg"));
     os_path_absolute := λ p, p;
     os_path_join := λ a b, a ++ str "/" ++ b;
     os_path_dirname := λ _, str "/docs";
     get_relative_path := λ p, p;
     route_api_call := λ _, Reply_tuple (Some (str "transcribed")) |}.

Definition good_page (text : string) : pdf_page :=
  {| get_pixmap := Ok (); save := Ok (); get_text := Ok (str text) |}.

Definition unrenderable_page : pdf_page :=
  {| get_pixmap := Raise (str "cannot render page");
     save := Ok (); get_text := Ok [] |}.

(** Seven pages, the fourth of which cannot be rasterized. *)
Definition seven_pages : list pdf_page :=
  [good_page "one"; good_page "two"; good_page "three"; unrenderable_page;
   good_page "five"; good_page "six"; good_page "seven"].

Definition seven_good_pages : list pdf_page :=
  [good_page "one"; good_page "two"; good_page "three"; good_page "four";
   good_page "five"; good_page "six"; good_page "seven"].

Definition pdf_path : pystr := str "/docs/letters.pdf".

Definition page_row (i : nat) (image : string) : gmap string cell :=
  new_row_data i [] (str image).

(** A store of two pages imported earlier. *)
Definition two_page_frame : DataFrame :=
  {| columns := base_columns;
     rows := [page_row 0 "images/0001_p001.jpg"; page_row 1 "images/0002_p002.jpg"] |}.

Definition world_of (df : DataFrame) (presets : list (gmap string pystr)) : World :=
  {| heap := {[ 0 := df ]};
     next_ref := 1;
     window := {| main_df := Some 0; data_operations := Some (Some 0);
                  page_counter := 0; images_directory := None;
                  settings := Some presets |} |}.

Definition htr_preset : gmap string pystr :=
  <["name" := str "HTR"]> (<["model" := str "gemini-2.5-pro"]> ∅).


Definition w0 : World := world_of two_page_frame [htr_preset].

(** A store of three pages, the second of which has lost its image. *)
Definition three_page_frame : DataFrame :=
  {| columns := base_columns;
     rows := [page_row 0 "images/0001_p001.jpg"; page_row 1 "missing.jpg";
              page_row 2 "images/0003_p003.jpg"] |}.

Definition three_page_world : World := world_of three_page_frame [htr_preset].

(** A store of two pages that already have a text, and settings with no
    preset for HTR or for the correction. *)
Definition transcribed_frame : DataFrame :=
  {| columns := base_columns;
     rows := [new_row_data 0 (str "Dear Sir") (str "images/0001_p001.jpg");
              new_row_data 1 (str "Yours truly") (str "images/0002_p002.jpg")] |}.


Definition htr_thread : AIProcessingThread :=
  {| operation_type := htr_all; data := Some 0; isRunning := true |}.

Definition correction_thread : AIProcessingThread :=
  {| operation_type := correct_text; data := Some 0; isRunning := true |}.

Definition idle_tab : ProcessTab :=
  {| current_thread := None; processing := false |}.

Definition busy_tab : ProcessTab :=
  {| current_thread := Some htr_thread; processing := true |}.

End Scenario.

(** ** [DocumentAIHandler]: the configuration of the service *)
Module DocumentAIHandler.
Import PyStr.

(** The attributes of the handler; [None] is Python's [None].  The
    credentials and the client are objects of the Google libraries, kept by
    their identity. *)
Record handler := {
  client : option nat;
  project_id : option pystr;
  location : option pystr;
  processor_id : option pystr;
  processor_name : option pystr;
  credentials : option nat;
}.

(** [__init__]. *)
Definition init : handler :=
  {| client := None; project_id := None; location := None;
     processor_id := None; processor_name := None; credentials := None |}.

Definition SLASH : N := 47%N.

(** Line 67, the f-string of the processor's resource name. *)
Definition processor_path (project_id location processor_id : pystr) : pystr :=
  str "projects/" ++ project_id ++ str "/locations/" ++ location
  ++ str "/processors/" ++ processor_id.

(** [setup_credentials].  [made_credentials] is what [json.loads] and
    [from_service_account_info] give for the JSON text and [made_client]
    what the client's constructor gives, [None] when they raise;
    [project], [loc] and [processor] are the arguments [project_id],
    [location] and [processor_id].  [log_error] is taken not
    to raise. *)
Definition setup_credentials (made_credentials made_client : option nat)
    (project loc : pystr) (processor : option pystr) (self : handler)
  : handler * bool :=
  match made_credentials with
  | None => (self, false)
  | Some creds =>
      match made_client with
      | None =>
          ({| client := client self; project_id := project_id self;
              location := location self; processor_id := processor_id self;
              processor_name := processor_name self;
              credentials := Some creds |}, false)
      | Some made =>
          let processor_id :=
            match processor with
            | Some (c :: p) => c :: p
            | Some [] | None => str "general"
            end in
          ({| client := Some made; project_id := Some project;
              location := Some loc; processor_id := Some processor_id;
              processor_name :=
                Some (processor_path project loc processor_id);
              credentials := Some creds |}, true)
      end
  end.

(** [is_configured]. *)
Definition is_configured (self : handler) : bool :=
  bool_decide (is_Some (client self))
  && bool_decide (is_Some (project_id self))
  && bool_decide (is_Some (processor_name self)).

(** [process_image] on a handler. *)
Definition process_image (self : handler) (response : option pystr)
  : option pystr :=
  DocumentAI.process_image (is_configured self) response.

(** A processor of the service's listing. *)
Record processor := {
  name : pystr;
  display_name : pystr;
  type_ : pystr;
}.

(** Line 181: [processor.name.split('/')[-1]]. *)
Definition processor_id_of (name : pystr) : pystr :=
  default [] (last (split_on SLASH name)).

(** Line 182: [processor.display_name or processor.type_]. *)
Definition shown_name (p : processor) : pystr :=
  match display_name p with
  | [] => type_ p
  | d => d
  end.

(** [get_available_processors].  [list_processors] is the listing the
    client gives, [None] when the call or the iteration raises. *)
Definition get_available_processors (self : handler)
    (list_processors : option (list processor)) : gmap pystr pystr :=
  if is_configured self then
    match list_processors with
    | None => ∅
    | Some processors =>
        foldl (λ processor_dict p,
                 <[shown_name p := processor_id_of (name p)]> processor_dict)
          ∅ processors
    end
  else ∅.

(** [test_connection]. *)
Definition test_connection (self : handler)
    (list_processors : option (list processor)) : bool :=
  is_configured self && bool_decide (is_Some list_processors).

End DocumentAIHandler.

(** ** [ReviewTab]: the page shown and its text *)
Module Review.
Import PyStr ArchiveStudio.

(** The items of [text_type_combo]. *)
Inductive text_type :=
  | Original_Text
  | Corrected_Text
  | Translation
  | Formatted_Text
  | Separated_Text.

(** [text_type_combo.currentText()]. *)
Definition currentText (t : text_type) : pystr :=
  match t with
  | Original_Text => str "Original Text"
  | Corrected_Text => str "Corrected Text"
  | Translation => str "Translation"
  | Formatted_Text => str "Formatted Text"
  | Separated_Text => str "Separated Text"
  end.

(** Lines 1193-1201: [column_map.get(text_type, "Original_Text")]. *)
Definition column_map (t : text_type) : string :=
  match t with
  | Original_Text => "Original_Text"
  | Corrected_Text => "Corrected_Text"
  | Translation => "Translation"
  | Formatted_Text => "Formatted_Text"
  | Separated_Text => "Separated_Text"
  end.

(** [str.lower] on an ASCII text, which every item is. *)
Definition lower (s : pystr) : pystr :=
  (λ c, if (65 <=? c)%N && (c <=? 90)%N then (c + 32)%N else c) <$> s.

(** The attributes of the tab and the state of its widgets.  [current_page]
    is 0 at construction and every assignment to it is a [max(0, ...)] or
    0.  [prev_enabled] is the state of [prev_btn] and [prev_page_btn],
    [next_enabled] that of [next_btn] and [next_page_btn]; [image_viewer] is
    the argument of the last [load_image]. *)
Record ReviewTab := {
  current_page : nat;
  total_pages : nat;
  text_type_combo : text_type;
  page_label : pystr;
  prev_enabled : bool;
  next_enabled : bool;
  image_viewer : option cell;
  text_editor : pystr;
  word_count_label : pystr;
}.

Definition set_pages (tab : ReviewTab) (current total : nat) : ReviewTab :=
  {| current_page := current; total_pages := total;
     text_type_combo := text_type_combo tab; page_label := page_label tab;
     prev_enabled := prev_enabled tab; next_enabled := next_enabled tab;
     image_viewer := image_viewer tab; text_editor := text_editor tab;
     word_count_label := word_count_label tab |}.

Definition set_navigation (tab : ReviewTab) (label : pystr) (prev next : bool)
  : ReviewTab :=
  {| current_page := current_page tab; total_pages := total_pages tab;
     text_type_combo := text_type_combo tab; page_label := label;
     prev_enabled := prev; next_enabled := next;
     image_viewer := image_viewer tab; text_editor := text_editor tab;
     word_count_label := word_count_label tab |}.

Definition set_image_viewer (tab : ReviewTab) (image_path : cell) : ReviewTab :=
  {| current_page := current_page tab; total_pages := total_pages tab;
     text_type_combo := text_type_combo tab; page_label := page_label tab;
     prev_enabled := prev_enabled tab; next_enabled := next_enabled tab;
     image_viewer := Some image_path; text_editor := text_editor tab;
     word_count_label := word_count_label tab |}.

Definition set_text_editor (tab : ReviewTab) (text : pystr) : ReviewTab :=
  {| current_page := current_page tab; total_pages := total_pages tab;
     text_type_combo := text_type_combo tab; page_label := page_label tab;
     prev_enabled := prev_enabled tab; next_enabled := next_enabled tab;
     image_viewer := image_viewer tab; text_editor := text;
     word_count_label := word_count_label tab |}.

Definition set_word_count_label (tab : ReviewTab) (label : pystr) : ReviewTab :=
  {| current_page := current_page tab; total_pages := total_pages tab;
     text_type_combo := text_type_combo tab; page_label := page_label tab;
     prev_enabled := prev_enabled tab; next_enabled := next_enabled tab;
     image_viewer := image_viewer tab; text_editor := text_editor tab;
     word_count_label := label |}.

(** [max(0, min(x, total_pages - 1))]. *)
Definition clamp (x : Z) (total_pages : nat) : nat :=
  Z.to_nat (Z.max 0 (Z.min x (Z.of_nat total_pages - 1))).

(** [refresh_page_data]. *)
Definition refresh_page_data (w : World) (tab : ReviewTab) : ReviewTab :=
  match store w with
  | Some df =>
      if negb (df_empty df) then
        let total_pages := df_len df in
        set_pages tab (clamp (Z.of_nat (current_page tab)) total_pages) total_pages
      else set_pages tab 0 0
  | None => set_pages tab 0 0
  end.

(** [update_word_count]. *)
Definition update_word_count (tab : ReviewTab) : ReviewTab :=
  let text := text_editor tab in
  let word_count := if nonblank text then length (split_ws text) else 0 in
  set_word_count_label tab (str "Words: " ++ dec word_count).

(** The guard of lines 1166-1168 and 1186-1188, and
    [main_df.iloc[self.current_page]] with the frame's columns. *)
Definition current_row (w : World) (tab : ReviewTab)
  : option (list string * gmap string cell) :=
  store w ≫= λ df,
    if negb (df_empty df) && (current_page tab <? df_len df) then
      (λ row, (columns df, row)) <$> rows df !! current_page tab
    else None.

Definition no_document : pystr :=
  str "No document loaded. Import documents in PROJECT tab.".

Definition not_available (t : text_type) : pystr :=
  str "No " ++ lower (currentText t) ++ str " available for this page.".

(** [load_current_text]. *)
Definition load_current_text (w : World) (tab : ReviewTab) : ReviewTab :=
  let text_type := text_type_combo tab in
  update_word_count
    (set_text_editor tab
       match current_row w tab with
       | Some (cols, row) =>
           let column_name := column_map text_type in
           if bool_decide (column_name ∈ cols) then
             match default CNaN (row !! column_name) with
             | CStr s => s
             | CInt n => dec n
             | CNaN => not_available text_type
             end
           else not_available text_type
       | None => no_document
       end).

(** [load_current_page]. *)
Definition load_current_page (E : Environment) (w : World) (tab : ReviewTab)
  : ReviewTab :=
  match current_row w tab with
  | Some (cols, row) =>
      let image_path := default CNaN (row !! "Image_Path"%string) in
      let tab :=
        if bool_decide ("Image_Path"%string ∈ cols) && truthy image_path then
          set_image_viewer tab
            match image_path with
            | CStr p => CStr (get_full_path E p)
            | other => other
            end
        else tab in
      load_current_text w tab
  | None => tab
  end.

(** [update_page_display]. *)
Definition update_page_display (E : Environment) (w : World) (tab : ReviewTab)
  : ReviewTab :=
  let tab := refresh_page_data w tab in
  let tab :=
    set_navigation tab
      (str "Page " ++ dec (current_page tab + 1) ++ str " / "
       ++ dec (total_pages tab))
      (0 <? current_page tab)
      (Z.of_nat (current_page tab) <? Z.of_nat (total_pages tab) - 1)%Z in
  load_current_page E w tab.

(** [navigate_pages]. *)
Definition navigate_pages (E : Environment) (w : World) (direction : Z)
    (tab : ReviewTab) : ReviewTab :=
  let tab := refresh_page_data w tab in
  let tab :=
    if 0 <? total_pages tab then
      set_pages tab
        (clamp (Z.of_nat (current_page tab) + direction) (total_pages tab))
        (total_pages tab)
    else tab in
  update_page_display E w tab.

(** [ProjectTab.on_import_complete], as far as the review tab goes. *)
Definition on_import_complete (E : Environment) (w : World) (tab : ReviewTab)
  : ReviewTab :=
  update_page_display E w tab.

End Review.

(** ** The main window: loading a folder of images *)
Module Window.
Import PyStr ArchiveStudio.

Inductive message_box :=
  | QMessageBox_critical (title text : pystr)
  | QMessageBox_information (title text : pystr).

(** Lines 1693-1709: the row of the [i]-th image file. *)
Definition new_row (E : Environment) (project_directory : pystr) (i : nat)
    (image_file : pystr) : gmap string cell :=
  let image_path_abs := os_path_join E project_directory image_file in
  let image_path_rel := get_relative_path E image_path_abs in
  <["Relevance" := CStr []]>
  (<["Metadata" := CStr []]>
  (<["Places" := CStr []]>
  (<["Names" := CStr []]>
  (<["Separated_Text" := CStr []]>
  (<["Formatted_Text" := CStr []]>
  (<["Translation" := CStr []]>
  (<["Corrected_Text" := CStr []]>
  (<["Text_Toggle" := CStr (str "None")]>
  (<["Text" := CStr []]>
  (<["Image_Path" := CStr image_path_rel]>
  (<["Page" := CInt (i + 1)]> ∅))))))))))).

(** The keys of [new_row], in their order: the columns of
    [pd.DataFrame(new_rows_list)]. *)
Definition new_row_keys : list string :=
  ["Page"; "Image_Path"; "Text"; "Text_Toggle"; "Corrected_Text";
   "Translation"; "Formatted_Text"; "Separated_Text"; "Names"; "Places";
   "Metadata"; "Relevance"]%string.

Definition no_data_operations : pystr :=
  str "'ArchiveStudioQt' object has no attribute 'data_operations'".

(** [load_files_from_folder_no_text].  [project_directory] is the window's
    attribute of that name.  [image_files] is the image files of the
    directory in their natural order; it is [Raise] when [os.listdir]
    raises, or when the listing has files and the import of
    [natural_sort_key], whose module is not part of these files, raises. *)
Definition load_files_from_folder_no_text (E : Environment)
    (project_directory : option pystr) (image_files : fallible (list pystr))
    (w : World) : World * list message_box :=
  match project_directory with
  | None | Some [] =>
      (w, [QMessageBox_critical (str "Error") (str "No directory selected.")])
  | Some dir =>
      match image_files with
      | Raise msg =>
          (w, [QMessageBox_critical (str "Error")
                 (str "Failed to load files: " ++ msg)])
      | Ok [] =>
          (w, [QMessageBox_information (str "No Files")
                 (str "No image files found in the selected directory.")])
      | Ok image_files =>
          let new_rows_list := imap (new_row E dir) image_files in
          let '(r, w1) :=
            alloc {| columns := new_row_keys; rows := new_rows_list |} w in
          let mw := window w1 in
          match data_operations mw with
          | None =>
              (set_window w1
                 {| main_df := Some r; data_operations := None;
                    page_counter := page_counter mw;
                    images_directory := images_directory mw;
                    settings := settings mw |},
               [QMessageBox_critical (str "Error")
                  (str "Failed to load files: " ++ no_data_operations)])
          | Some _ =>
              (set_window w1
                 {| main_df := Some r; data_operations := Some (Some r);
                    page_counter := 0;
                    images_directory := images_directory mw;
                    settings := settings mw |}, [])
          end
      end
  end.

(** The status bar and its progress bar. *)
Record StatusBar := {
  message : pystr;
  maximum : nat;
  value : nat;
  visible : bool;
}.

(** [show_progress]. *)
Definition show_progress (current total : nat) (bar : StatusBar) : StatusBar :=
  if 0 <? total then
    {| message := str "Processing: " ++ dec current ++ str "/" ++ dec total;
       maximum := total; value := current; visible := true |}
  else
    {| message := message bar; maximum := maximum bar; value := value bar;
       visible := false |}.

End Window.

(** ** [ProcessTab]: the slot of the progress signal *)
Module Progress.
Import PyStr ArchiveStudio Window.

Record ProcessView := {
  local_progress : nat;
  progress_label : pystr;
  status_details : pystr;
  status_bar : StatusBar;
}.

(** How a slot ends: it returns, or it stops at the read of a local
    variable that was never bound. *)
Inductive slot_result :=
  | Returned (v : ProcessView)
  | UnboundLocalError (v : ProcessView).

(** [on_progress_updated].  [percent current total] is
    [int((current / total) * 100)], a computation on floats. *)
Definition on_progress_updated (percent : nat → nat → nat)
    (current total : nat) (status : pystr) (v : ProcessView) : slot_result :=
  let v1 :=
    if 0 <? total then
      {| local_progress := percent current total;
         progress_label := progress_label v;
         status_details := status_details v;
         status_bar := show_progress current total (status_bar v) |}
    else v in
  let v2 :=
    {| local_progress := local_progress v1;
       progress_label := [128260%N; SP] ++ status;
       status_details := status_details v1;
       status_bar := status_bar v1 |} in
  if 0 <? total then
    Returned
      {| local_progress := local_progress v2;
         progress_label := progress_label v2;
         status_details :=
           str "Progress: " ++ dec current ++ str "/" ++ dec total ++ str " ("
           ++ dec (percent current total) ++ str "%)";
         status_bar := status_bar v2 |}
  else UnboundLocalError v2.

End Progress.

(** ** More vocabulary, and more concrete runs *)
Module More.
Import PyStr Spec ArchiveStudio Review Window Progress Scenario.

(** The frame a job has written to, next to the frame it started from:
    as many rows, the columns of before and at most [col] and the toggle
    more, and every cell outside these two columns as it was. *)
Definition written_only (col : string) (df df' : DataFrame) : Prop :=
  df_len df' = df_len df
  ∧ (∀ x, x ∈ columns df → x ∈ columns df')
  ∧ (∀ x, x ∈ columns df' →
       x ∈ columns df ∨ x = col ∨ x = "Text_Toggle"%string)
  ∧ (∀ i c, c ≠ col → c ≠ "Text_Toggle"%string →
       cell_at df' i c = cell_at df i c).

(** The progress signals of the first [n] of the [total] steps of a
    simulated job. *)
Definition progress_steps (label : string) (total n : nat) : list signal :=
  (λ i, progress_updated (i + 1) total (str label ++ dec (i + 1))) <$> seq 0 n.

(** The steps a loop of [total] steps takes before it sees the flag. *)
Definition steps_before (cancel : option nat) (total : nat) : nat :=
  match cancel with
  | Some t => min t total
  | None => total
  end.

(** A project folder [/docs] with two images.  Paths are kept relative to
    the folder; [missing.jpg] is gone when the images are read. *)
Definition E1 : Environment :=
  {| os_path_exists := os_path_exists E0;
     os_path_absolute := λ p, p;
     os_path_join := os_path_join E0;
     os_path_dirname := os_path_dirname E0;
     get_relative_path := drop 6;
     route_api_call := route_api_call E0 |}.

Definition correction_preset : gmap string pystr :=
  <["name" := str "Correct_Text"]> (<["model" := str "gemini-2.5-pro"]> ∅).

Definition blank_world : World :=
  world_of {| columns := []; rows := [] |} [htr_preset; correction_preset].

Definition two_files : list pystr := [str "a.jpg"; str "missing.jpg"].

Definition folder_world : World :=
  (load_files_from_folder_no_text E1 (Some (str "/docs")) (Ok two_files)
     blank_world).1.

Definition folder_frame : DataFrame :=
  {| columns := new_row_keys;
     rows := [new_row E1 (str "/docs") 0 (str "a.jpg");
              new_row E1 (str "/docs") 1 (str "missing.jpg")] |}.

(** The threads [start_ai_processing] builds on the folder, and the world
    after the HTR job. *)
Definition folder_htr_thread : AIProcessingThread :=
  {| operation_type := htr_all; data := Some 1; isRunning := true |}.

Definition after_htr_world : World :=
  (process_htr_all E1 None reverse folder_htr_thread folder_world).1.

Definition after_htr_frame : DataFrame :=
  {| columns := new_row_keys ++ ["Original_Text"%string];
     rows := [<["Text_Toggle" := CStr (str "Original_Text")]>
                (<["Original_Text" := CStr (str "transcribed")]>
                   (new_row E1 (str "/docs") 0 (str "a.jpg")));
              new_row E1 (str "/docs") 1 (str "missing.jpg")] |}.

Definition folder_correction_thread : AIProcessingThread :=
  {| operation_type := correct_text; data := Some 2; isRunning := true |}.

(** The world of [E0] with a provider that raises on every call. *)
Definition E_down : Environment :=
  {| os_path_exists := os_path_exists E0;
     os_path_absolute := os_path_absolute E0;
     os_path_join := os_path_join E0;
     os_path_dirname := os_path_dirname E0;
     get_relative_path := get_relative_path E0;
     route_api_call := λ _, Reply_raises |}.

(** A provider call that gives no usable text: it raises, or it returns
    something that is no text, or a text with nothing but whitespace. *)
Definition no_usable_text (reply : api_reply) : Prop :=
  match reply with
  | Reply_raises | Reply_other | Reply_tuple None => True
  | Reply_tuple (Some s) | Reply_str s => nonblank s = false
  end.

(** A store of two transcribed pages with presets for both jobs. *)
Definition ready_world : World :=
  world_of transcribed_frame [htr_preset; correction_preset].

(** The counts carried by the progress signals of a run, in order. *)
Definition progress_counts (sigs : list signal) : list nat :=
  sigs ≫= λ sig,
    match sig with
    | progress_updated current _ _ => [current]
    | _ => []
    end.

(** A list of counts that never goes down. *)
Fixpoint never_decreases (from : nat) (counts : list nat) : Prop :=
  match counts with
  | [] => True
  | c :: rest => from ≤ c ∧ never_decreases c rest
  end.

(** What is on disk and what was reported when page [k] of a document
    makes PyMuPDF raise: the image of page [k] itself is there when it was
    the text extraction that raised. *)
Definition failure_of (pg : pdf_page) : option (bool * pystr) :=
  match get_pixmap pg with
  | Raise msg => Some (false, msg)
  | Ok _ =>
      match save pg with
      | Raise msg => Some (false, msg)
      | Ok _ =>
          match get_text pg with
          | Raise msg => Some (true, msg)
          | Ok _ => None
          end
      end
  end.

(** A review tab as it is built, on its first page. *)
Definition first_page : ReviewTab :=
  {| current_page := 0; total_pages := 0; text_type_combo := Original_Text;
     page_label := []; prev_enabled := false; next_enabled := false;
     image_viewer := None; text_editor := []; word_count_label := [] |}.

(** A row reads in the frame [df'] as it read in [df]: [row.get(col, dflt)]
    gives the same, whatever the default.  A cell the row does not have
    reads as the default while the frame has no such column, and as NaN
    once it has. *)
Definition reads_as_before (df df' : DataFrame) (row : gmap string cell)
    (col : string) : Prop :=
  ∀ dflt, series_get (columns df') row col dflt = series_get (columns df) row col dflt.

(** The pages an import has started when its flag is set before the read
    number [t], the reads being counted from 0.  The loops read the flag
    before each batch of [batch_size] pages and before each page, so of any
    [batch_size + 1] reads in a row the first comes before a batch and the
    others before a page: the [t] reads that saw the flag unset let
    [t - ⌈t / (batch_size + 1)⌉] pages through. *)
Definition pages_reached (t : nat) : nat :=
  t - (t + batch_size) / (batch_size + 1).

(** The progress signal of page [k] of an import of [n] pages. *)
Definition processing_page (n k : nat) : signal :=
  progress_updated (k + 1) n
    (str "Processing page " ++ dec (k + 1) ++ str " of " ++ dec n).

(** A document of two pages, the first of which cannot be rendered. *)
Definition first_page_unrenderable : list pdf_page :=
  [unrenderable_page; good_page "two"].


End More.

(** Closed statements about frames are decided by evaluation. *)
Ltac evaluated :=
  lazymatch goal with
  | |- ?P => apply (bool_decide_eq_true_1 P); vm_compute; reflexivity
  end.

(** ** Facts about the string functions *)
Section PyStrFacts.
Import PyStr Spec.

Lemma isspace_LF : isspace LF = true.
Proof. reflexivity. Qed.

Lemma isspace_SP : isspace SP = true.
Proof. reflexivity. Qed.

Lemma lstrip_nil_iff s : lstrip s = [] ↔ has_nonspace s = false.
Proof.
  induction s as [|c s IH]; simpl; [done|].
  destruct (isspace c); simpl; [exact IH|]. split; discriminate.
Qed.

Lemma rstrip_nil_iff s : rstrip s = [] ↔ has_nonspace s = false.
Proof.
  induction s as [|c s IH]; simpl; [done|].
  destruct (rstrip s) as [|r rs] eqn:Hr.
  - destruct IH as [IH _]. rewrite (IH eq_refl).
    destruct (isspace c); simpl; split; done.
  - destruct (has_nonspace s) eqn:Hs.
    + rewrite orb_true_r. split; discriminate.
    + destruct IH as [_ IH]. discriminate (IH eq_refl).
Qed.

Lemma rstrip_cons_head s c r : rstrip s = c :: r → ∃ t, s = c :: t.
Proof.
  destruct s as [|a s]; simpl; [discriminate|].
  destruct (rstrip s); [destruct (isspace a)|]; intros [= -> _]; eauto.
Qed.

Lemma has_nonspace_rstrip s : has_nonspace (rstrip s) = has_nonspace s.
Proof.
  induction s as [|c s IH]; simpl; [done|].
  destruct (rstrip s) as [|r rs] eqn:Hr.
  - apply rstrip_nil_iff in Hr. rewrite Hr.
    destruct (isspace c) eqn:Hc; simpl; by rewrite ?Hc.
  - change (has_nonspace (c :: r :: rs)) with
      (negb (isspace c) || has_nonspace (r :: rs)). by rewrite IH.
Qed.

Lemma strip_nil_iff s : strip s = [] ↔ has_nonspace s = false.
Proof.
  unfold strip. rewrite lstrip_nil_iff, has_nonspace_rstrip. done.
Qed.

Lemma lstrip_head s c r : lstrip s = c :: r → isspace c = false.
Proof.
  induction s as [|a s IH]; simpl; [discriminate|].
  destruct (isspace a) eqn:Ha; [exact IH|]. by intros [= <- _].
Qed.

Lemma split_ws_nil_iff s : split_ws s = [] ↔ has_nonspace s = false.
Proof.
  induction s as [|c s IH]; simpl; [done|].
  destruct (isspace c); simpl; [exact IH|].
  split; [|discriminate].
  destruct s as [|c' s]; [discriminate|].
  destruct (isspace c'); [discriminate|]. by destruct (split_ws (c' :: s)).
Qed.

Lemma split_ws_lstrip s : split_ws (lstrip s) = split_ws s.
Proof.
  induction s as [|c s IH]; [done|].
  simpl lstrip. destruct (isspace c) eqn:Hc; [|done].
  rewrite IH. simpl. by rewrite Hc.
Qed.

Lemma split_ws_rstrip s : split_ws (rstrip s) = split_ws s.
Proof.
  induction s as [|c s IH]; [done|].
  simpl rstrip. destruct (rstrip s) as [|r rs] eqn:Hr.
  - apply rstrip_nil_iff in Hr.
    assert (split_ws s = []) as Hw by by apply split_ws_nil_iff.
    destruct (isspace c) eqn:Hc; simpl; rewrite Hc; [by rewrite Hw|].
    destruct s as [|c' s]; [done|].
    simpl in Hr. destruct (isspace c'); [|done]. by rewrite Hw.
  - destruct (rstrip_cons_head _ _ _ Hr) as [t ->].
    change (split_ws (c :: r :: rs)) with
      (if isspace c then split_ws (r :: rs)
       else if isspace r then [c] :: split_ws (r :: rs)
       else match split_ws (r :: rs) with
            | w :: ws => (c :: w) :: ws
            | [] => [[c]]
            end).
    rewrite IH. done.
Qed.

Lemma split_ws_strip s : split_ws (strip s) = split_ws s.
Proof. unfold strip. by rewrite split_ws_lstrip, split_ws_rstrip. Qed.

Lemma split_ws_words s : Forall (λ w, is_word w = true) (split_ws s).
Proof.
  induction s as [|c s IH]; simpl; [constructor|].
  destruct (isspace c) eqn:Hc; [exact IH|].
  assert (is_word [c] = true) as H1.
  { unfold is_word. simpl. by rewrite Hc. }
  destruct s as [|c' s]; [by repeat constructor|].
  destruct (isspace c'); [by constructor|].
  destruct (split_ws (c' :: s)) as [|w ws]; [by repeat constructor|].
  inversion IH as [|? ? Hw Hws]; subst. constructor; [|done].
  unfold is_word in *. simpl. rewrite Hc. simpl.
  apply andb_true_iff in Hw as [_ Hw]. exact Hw.
Qed.

(** A word followed by nothing, or by a whitespace, is the first item of
    the split. *)
Lemma split_ws_word_app w rest :
  is_word w = true →
  match rest with [] => True | c :: _ => isspace c = true end →
  split_ws (w ++ rest) = w :: split_ws rest.
Proof.
  unfold is_word. intros Hw Hrest.
  apply andb_true_iff in Hw as [Hne Hall].
  induction w as [|c w IH]; [done|].
  simpl in Hall. apply andb_true_iff in Hall as [Hc Hall].
  apply negb_true_iff in Hc.
  destruct w as [|c' w].
  - simpl. rewrite Hc. destruct rest as [|r rest]; [done|]. by rewrite Hrest.
  - specialize (IH eq_refl Hall).
    change (split_ws ((c :: c' :: w) ++ rest)) with
      (if isspace c then split_ws ((c' :: w) ++ rest)
       else if isspace c' then [c] :: split_ws ((c' :: w) ++ rest)
       else match split_ws ((c' :: w) ++ rest) with
            | w0 :: ws => (c :: w0) :: ws
            | [] => [[c]]
            end).
    rewrite Hc, IH. simpl in Hall. apply andb_true_iff in Hall as [Hc' _].
    apply negb_true_iff in Hc'. by rewrite Hc'.
Qed.

Lemma split_ws_join ws :
  Forall (λ w, is_word w = true) ws → split_ws (join [SP] ws) = ws.
Proof.
  induction 1 as [|w ws Hw Hws IH]; [done|].
  destruct ws as [|w' ws].
  - simpl. rewrite <- (app_nil_r w) at 1. by rewrite split_ws_word_app.
  - change (join [SP] (w :: w' :: ws)) with (w ++ SP :: join [SP] (w' :: ws)).
    rewrite split_ws_word_app; [|done|done].
    change (split_ws (SP :: join [SP] (w' :: ws)))
      with (split_ws (join [SP] (w' :: ws))). by rewrite IH.
Qed.

Lemma tidy_from_word b w rest :
  is_word w = true → tidy_from b (w ++ rest) = tidy_from false rest.
Proof.
  unfold is_word. intros Hw. apply andb_true_iff in Hw as [Hne Hall].
  revert b. induction w as [|c w IH]; intros b; [done|].
  simpl in Hall. apply andb_true_iff in Hall as [Hc Hall].
  apply negb_true_iff in Hc. simpl. rewrite Hc.
  destruct w as [|c' w]; [done|]. by apply IH.
Qed.

Lemma tidy_join b ws :
  ws ≠ [] → Forall (λ w, is_word w = true) ws → tidy_from b (join [SP] ws) = true.
Proof.
  intros Hne Hws. revert b. induction Hws as [|w ws Hw Hws IH]; intros b; [done|].
  destruct ws as [|w' ws].
  - simpl. rewrite <- (app_nil_r w). by rewrite tidy_from_word.
  - change (join [SP] (w :: w' :: ws)) with (w ++ SP :: join [SP] (w' :: ws)).
    rewrite tidy_from_word by done. simpl. by apply IH.
Qed.

Lemma tidy_from_no_LF b l : tidy_from b l = true → Forall (λ c, c ≠ LF) l.
Proof.
  revert b. induction l as [|c l IH]; intros b H; [constructor|].
  simpl in H. destruct (isspace c) eqn:Hc.
  - apply andb_true_iff in H as [H Hl]. apply andb_true_iff in H as [Hsp _].
    apply N.eqb_eq in Hsp. subst c. constructor; [done|]. by eapply IH.
  - constructor; [|by eapply IH]. intros ->. by rewrite isspace_LF in Hc.
Qed.

Lemma tidy_line_head l :
  tidy_line l = true → ∃ c r, l = c :: r ∧ isspace c = false.
Proof.
  destruct l as [|c r]; [discriminate|]. unfold tidy_line. simpl.
  destruct (isspace c) eqn:Hc; [|by eauto].
  rewrite andb_false_r. discriminate.
Qed.

Lemma rstrip_tidy b l : tidy_from b l = true → rstrip l = l.
Proof.
  revert b. induction l as [|c l IH]; intros b H; [done|].
  simpl in H. destruct (isspace c) eqn:Hc.
  - apply andb_true_iff in H as [_ Hl].
    simpl. rewrite (IH _ Hl). destruct l; [discriminate|done].
  - simpl. rewrite (IH _ H). destruct l; [by rewrite Hc|done].
Qed.

Lemma rstrip_app s t : t ≠ [] → rstrip t = t → rstrip (s ++ t) = s ++ t.
Proof.
  intros Hne Ht. induction s as [|c s IH]; [done|].
  simpl. rewrite IH. destruct (s ++ t) eqn:Hst; [|done].
  by apply app_eq_nil in Hst as [_ ->].
Qed.

Lemma flush_run_small k : k ≤ 2 → flush_run k = replicate k LF.
Proof. intros Hk. unfold flush_run. case_decide; [lia|done]. Qed.

Lemma sub_nl3_line k l rest :
  Forall (λ c, c ≠ LF) l → l ≠ [] →
  sub_nl3 k (l ++ rest) = flush_run k ++ l ++ sub_nl3 0 rest.
Proof.
  intros Hl. revert k. induction Hl as [|c l Hc Hl IH]; intros k Hne; [done|].
  simpl. apply N.eqb_neq in Hc. rewrite Hc.
  destruct l as [|c' l]; [done|]. by rewrite IH.
Qed.

Lemma split_on_ne sep s : split_on sep s ≠ [].
Proof.
  destruct s as [|c s]; simpl; [done|].
  destruct (c =? sep)%N; [done|]. by destruct (split_on sep s).
Qed.

Lemma split_on_line l : Forall (λ c, c ≠ LF) l → split_on LF l = [l].
Proof.
  induction 1 as [|c l Hc Hl IH]; [done|].
  simpl. apply N.eqb_neq in Hc. by rewrite Hc, IH.
Qed.

Lemma split_on_line_app l rest :
  Forall (λ c, c ≠ LF) l →
  split_on LF (l ++ LF :: rest) = l :: split_on LF rest.
Proof.
  induction 1 as [|c l Hc Hl IH]; [done|].
  simpl. apply N.eqb_neq in Hc. by rewrite Hc, IH.
Qed.

Lemma has_nonspace_split_on s :
  existsb has_nonspace (split_on LF s) = has_nonspace s.
Proof.
  induction s as [|c s IH]; [done|].
  simpl. destruct (c =? LF)%N eqn:Hc.
  - apply N.eqb_eq in Hc. subst c. simpl. exact IH.
  - destruct (split_on LF s) as [|h t] eqn:Hs; [by destruct (split_on_ne LF s)|].
    simpl in *. by rewrite <- IH, orb_assoc.
Qed.

End PyStrFacts.

(** ** Facts about the cleanup of [process_image] *)
Section CleanupFacts.
Import PyStr Spec DocumentAI.

Lemma clean_lines_words lines :
  clean_lines lines
  = join [SP] <$> filter (λ ws, ws ≠ []) (split_ws <$> lines).
Proof.
  induction lines as [|line lines IH]; [done|].
  rewrite fmap_cons, filter_cons. cbn [clean_lines].
  destruct (strip line) as [|c r] eqn:Hs.
  - apply strip_nil_iff, split_ws_nil_iff in Hs.
    rewrite decide_False by (intros H; by apply H). exact IH.
  - assert (split_ws line ≠ []) as Hne.
    { intros H. apply split_ws_nil_iff, strip_nil_iff in H. congruence. }
    rewrite decide_True by done. rewrite fmap_cons, <- IH, <- Hs.
    by rewrite split_ws_strip.
Qed.

Lemma clean_lines_tidy lines :
  Forall (λ l, tidy_line l = true) (clean_lines lines).
Proof.
  rewrite clean_lines_words. apply Forall_fmap, Forall_forall.
  intros ws [Hne Hin]%list_elem_of_filter.
  apply list_elem_of_fmap in Hin as (l & -> & _).
  apply tidy_join; [done|apply split_ws_words].
Qed.

Lemma clean_lines_ne lines :
  existsb has_nonspace lines = true → clean_lines lines ≠ [].
Proof.
  induction lines as [|line lines IH]; [discriminate|].
  simpl. destruct (strip line) as [|c r] eqn:Hs; [|done].
  apply strip_nil_iff in Hs. rewrite Hs. exact IH.
Qed.

Lemma split_ws_clean_lines lines :
  split_ws <$> clean_lines lines
  = filter (λ ws, ws ≠ []) (split_ws <$> lines).
Proof.
  rewrite clean_lines_words, <- list_fmap_compose.
  rewrite <- (list_fmap_id (filter _ _)) at 2.
  apply Forall_fmap_ext_1, Forall_forall. intros ws [_ Hin]%list_elem_of_filter.
  apply list_elem_of_fmap in Hin as (l & -> & _).
  simpl. apply split_ws_join, split_ws_words.
Qed.

Lemma split_on_join ls :
  Forall (λ l, tidy_line l = true) ls → ls ≠ [] →
  split_on LF (join [LF] ls) = ls.
Proof.
  induction 1 as [|l ls' Hl Hls IH]; [done|]. intros _.
  apply tidy_from_no_LF in Hl.
  destruct ls' as [|l' ls'']; [by apply split_on_line|].
  change (join [LF] (l :: l' :: ls'')) with (l ++ LF :: join [LF] (l' :: ls'')).
  rewrite split_on_line_app by done. by rewrite IH.
Qed.

Lemma sub_nl3_join ls k :
  Forall (λ l, tidy_line l = true) ls → ls ≠ [] → k ≤ 2 →
  sub_nl3 k (join [LF] ls) = replicate k LF ++ join [LF] ls.
Proof.
  intros Hls. revert k. induction Hls as [|l ls' Hl Hls IH]; [done|]. intros k _ Hk.
  destruct (tidy_line_head _ Hl) as (c & r & -> & Hc).
  apply tidy_from_no_LF in Hl.
  destruct ls' as [|l' ls''].
  - simpl join. rewrite <- (app_nil_r (c :: r)) at 1.
    rewrite sub_nl3_line by done. simpl sub_nl3.
    by rewrite flush_run_small, app_nil_r.
  - change (join [LF] ((c :: r) :: l' :: ls''))
      with ((c :: r) ++ LF :: join [LF] (l' :: ls'')).
    rewrite sub_nl3_line by done. rewrite flush_run_small by done.
    change (sub_nl3 0 (LF :: join [LF] (l' :: ls'')))
      with (sub_nl3 1 (join [LF] (l' :: ls''))).
    rewrite IH by (done || lia). done.
Qed.

Lemma rstrip_join ls :
  Forall (λ l, tidy_line l = true) ls → ls ≠ [] →
  rstrip (join [LF] ls) = join [LF] ls ∧ join [LF] ls ≠ [].
Proof.
  induction 1 as [|l ls' Hl Hls IH]; [done|]. intros _.
  destruct ls' as [|l' ls''].
  - simpl. split; [by eapply rstrip_tidy|]. by destruct l.
  - change (join [LF] (l :: l' :: ls''))
      with (l ++ [LF] ++ join [LF] (l' :: ls'')).
    destruct IH as [IH1 IH2]; [done|].
    rewrite !app_assoc. split; [by apply rstrip_app|].
    intros H. by apply app_eq_nil in H as [_ H].
Qed.

Lemma strip_join ls :
  Forall (λ l, tidy_line l = true) ls → ls ≠ [] →
  strip (join [LF] ls) = join [LF] ls.
Proof.
  intros Hls Hne. unfold strip. destruct (rstrip_join ls Hls Hne) as [-> _].
  destruct Hls as [|l ls' Hl _]; [done|].
  destruct (tidy_line_head _ Hl) as (c & r & -> & Hc).
  destruct ls'; simpl; by rewrite Hc.
Qed.

(** The cleanup of a text that is not blank: the joined cleaned lines; the
    substitution and the final strip find nothing left to do. *)
Lemma clean_document_text_lines text :
  strip text ≠ [] →
  let cleaned := clean_lines (split_on LF text) in
  clean_document_text text = join [LF] cleaned ∧ cleaned ≠ [].
Proof.
  intros Hne cleaned.
  assert (cleaned ≠ []) as Hc.
  { apply clean_lines_ne. rewrite has_nonspace_split_on.
    destruct (has_nonspace text) eqn:Ht; [done|].
    by apply strip_nil_iff in Ht. }
  split; [|done].
  unfold clean_document_text. destruct text as [|c text]; [done|].
  destruct (strip (c :: text)); [done|].
  fold cleaned. unfold re_sub_nl3.
  rewrite (sub_nl3_join cleaned 0) by (apply clean_lines_tidy || done || lia).
  apply strip_join; [apply clean_lines_tidy|done].
Qed.


(** On its own the substitution turns a run of three or more line feeds
    into two. *)
Example re_sub_nl3_collapses :
  re_sub_nl3 (str "a" ++ [LF; LF; LF; LF] ++ str "b" ++ [LF; LF] ++ str "c")
  = str "a" ++ [LF; LF] ++ str "b" ++ [LF; LF] ++ str "c".
Proof. reflexivity. Qed.

(** C8: the cleanup of the document-OCR text.  The sample text comes out
    as the two expected lines.  A blank text gives the placeholder.  For any
    other text, every line of the result is tidy (not empty, no whitespace
    at either end, words separated by single spaces); read line by line as
    lists of words, the result is the input with its blank lines dropped;
    no run of three line feeds is left to collapse and nothing is left to
    strip. *)
Theorem clean_document_text_spec (text : pystr) :
  clean_document_text sample_input = sample_output ∧
  match strip text with
  | [] => clean_document_text text = no_text_detected
  | _ :: _ =>
      let out := clean_document_text text in
      Forall (λ l, tidy_line l = true) (split_on LF out) ∧
      split_ws <$> split_on LF out
        = filter (λ ws, ws ≠ []) (split_ws <$> split_on LF text) ∧
      re_sub_nl3 out = out ∧
      strip out = out
  end.
Proof.
  split; [by vm_compute|].
  destruct (strip text) as [|c r] eqn:Hs.
  - unfold clean_document_text. destruct text; [done|]. by rewrite Hs.
  - assert (strip text ≠ []) as Hne by congruence.
    destruct (clean_document_text_lines text Hne) as [Hout Hc].
    pose proof (clean_lines_tidy (split_on LF text)) as Htidy.
    cbv zeta. rewrite Hout. rewrite split_on_join by done.
    split_and!; [done|apply split_ws_clean_lines| |by apply strip_join].
    unfold re_sub_nl3. by rewrite (sub_nl3_join _ 0) by (done || lia).
Qed.

End CleanupFacts.

(** ** Facts about the page token of the import *)
Section TokenFacts.
Import PyStr Spec ArchiveStudio.

Lemma read_uint_codes u rest :
  read_uint rest = Nil → read_uint (uint_codes u ++ rest) = u.
Proof. intros Hrest. induction u; simpl; by f_equal. Qed.

Lemma read_nat_zeros k s : read_nat (replicate k 48%N ++ s) = read_nat s.
Proof. induction k as [|k IH]; [done|]. exact IH. Qed.

Lemma read_nat_fmt_0d width n rest :
  read_uint rest = Nil → read_nat (fmt_0d width n ++ rest) = n.
Proof.
  intros Hrest. unfold fmt_0d. rewrite <- app_assoc, read_nat_zeros.
  unfold read_nat, dec. rewrite read_uint_codes by done.
  apply DecimalNat.Unsigned.of_to.
Qed.

Lemma length_fmt_0d width n : width ≤ length (fmt_0d width n).
Proof. unfold fmt_0d. rewrite length_app, length_replicate. lia. Qed.

Lemma read_nat_new_page_num_str i : read_nat (new_page_num_str i) = i + 1.
Proof. unfold new_page_num_str. by apply read_nat_fmt_0d. Qed.

Lemma new_page_num_str_inj i j :
  new_page_num_str i = new_page_num_str j → i = j.
Proof.
  intros H. apply (f_equal read_nat) in H.
  rewrite !read_nat_new_page_num_str in H. lia.
Qed.

Lemma lex_ltb_trans a b c :
  lex_ltb a b = true → lex_ltb b c = true → lex_ltb a c = true.
Proof.
  revert b c. induction a as [|x a IH]; intros [|y b] [|z c]; simpl; try done.
  rewrite !orb_true_iff, !andb_true_iff, !N.ltb_lt, !N.eqb_eq.
  intros [Hxy|[-> Hab]] [Hyz|[-> Hbc]]; [left; lia|by left|by left|].
  right. split; [done|]. by eapply IH.
Qed.

Lemma to_little_uint_succ n acc :
  Nat.to_little_uint n (Decimal.Little.succ acc)
  = Decimal.Little.succ (Nat.to_little_uint n acc).
Proof.
  revert acc. induction n as [|n IH]; intros acc; [done|].
  simpl. by rewrite IH.
Qed.

Lemma new_page_num_str_digits i :
  new_page_num_str i = token_of_digits (Nat.to_little_uint (i + 1) Decimal.zero).
Proof. reflexivity. Qed.

Lemma tokens_increase_step k a m :
  tokens_increase k (Nat.to_little_uint a Decimal.zero) = true → m < k →
  lex_ltb (token_of_digits (Nat.to_little_uint (a + m) Decimal.zero))
          (token_of_digits (Nat.to_little_uint (S (a + m)) Decimal.zero)) = true.
Proof.
  revert a m. induction k as [|k IH]; intros a m Hk Hm; [lia|].
  simpl in Hk. apply andb_true_iff in Hk as [H0 Hk].
  rewrite <- to_little_uint_succ in H0, Hk.
  change (Nat.to_little_uint a (Decimal.Little.succ Decimal.zero))
    with (Nat.to_little_uint (S a) Decimal.zero) in H0, Hk.
  destruct m as [|m]; [by rewrite Nat.add_0_r|].
  replace (a + S m) with (S a + m) by lia. apply IH; [done|lia].
Qed.

Lemma new_page_num_str_increase :
  tokens_increase (9999 - 1) (Nat.to_little_uint 1 Decimal.zero) = true.
Proof. vm_compute. reflexivity. Qed.

Lemma new_page_num_str_sorted i j :
  i < j → j < 9999 →
  lex_ltb (new_page_num_str i) (new_page_num_str j) = true.
Proof.
  intros Hij Hj. induction j as [|j IH]; [lia|].
  assert (lex_ltb (new_page_num_str j) (new_page_num_str (S j)) = true) as Hstep.
  { rewrite !new_page_num_str_digits.
    replace (j + 1) with (1 + j) by lia. replace (S j + 1) with (S (1 + j)) by lia.
    apply (tokens_increase_step _ _ _ new_page_num_str_increase). lia. }
  destruct (decide (i = j)) as [->|Hne]; [done|].
  eapply lex_ltb_trans; [apply IH; lia|done].
Qed.

Lemma add_other_columns_lookup cols (row : gmap string cell) k v :
  row !! k = Some v → add_other_columns cols row !! k = Some v.
Proof.
  revert row. induction cols as [|col cols IH]; intros row Hk; [done|].
  simpl. apply IH. destruct (row !! col) eqn:Hcol; [done|].
  rewrite lookup_insert_ne; [done|]. intros ->. congruence.
Qed.

End TokenFacts.

(** ** Facts about the loops of the import *)
Section ImportFacts.
Import PyStr Spec ArchiveStudio.

Lemma is_cancelled_mono cancel r r' :
  r ≤ r' → is_cancelled cancel r = true → is_cancelled cancel r' = true.
Proof. destruct cancel; simpl; [|done]. rewrite !Nat.leb_le. lia. Qed.

Lemma is_cancelled_before cancel r r' :
  r ≤ r' → is_cancelled cancel r' = false → is_cancelled cancel r = false.
Proof.
  intros Hr H. destruct (is_cancelled cancel r) eqn:Hc; [|done].
  by rewrite (is_cancelled_mono _ _ _ Hr Hc) in H.
Qed.

Context (E : Environment) (main_cols : list string) (images_dir : pystr).
Context (pages : list pdf_page) (start_index : nat).

Abbreviation page := (import_page E main_cols images_dir pages start_index).
Abbreviation batch c := (import_batch E c main_cols images_dir pages start_index).
Abbreviation batches c := (import_batches E c main_cols images_dir pages start_index).
Abbreviation in_turn := (import_pages E main_cols images_dir pages start_index).
Abbreviation row := (imported_row E main_cols images_dir pages start_index).
Abbreviation chunk :=
  (λ batch_start, range batch_start (min (batch_start + batch_size) (length pages))).

Lemma import_page_done st n st' :
  page st n = Done st' →
  new_rows_list st' = new_rows_list st ++ [row n]
  ∧ ∃ pg, pages !! n = Some pg ∧ page_ok pg = true.
Proof.
  unfold import_page, imported_row, page_text, page_ok.
  destruct (pages !! n) as [pg|]; [|done]. simpl.
  destruct (get_pixmap pg) eqn:H1; [|done]. destruct (save pg) eqn:H2; [|done].
  destruct (get_text pg) eqn:H3; [|done]. intros [= <-]. simpl.
  split; [done|]. exists pg. by rewrite H1, H2, H3.
Qed.

Lemma import_page_ok st n pg :
  pages !! n = Some pg → page_ok pg = true → ∃ st', page st n = Done st'.
Proof.
  unfold import_page, page_ok. intros -> H.
  destruct (get_pixmap pg); [|done]. destruct (save pg); [|done].
  destruct (get_text pg); [|done]. eauto.
Qed.


Lemma import_pages_app l1 l2 st :
  in_turn (l1 ++ l2) st
  = match in_turn l1 st with
    | Done st1 => in_turn l2 st1
    | raised => raised
    end.
Proof.
  revert st. induction l1 as [|n l1 IH]; intros st; [done|].
  simpl. destruct (page st n); [apply IH|done].
Qed.

Lemma import_pages_done page_nums st st' :
  in_turn page_nums st = Done st' →
  new_rows_list st' = new_rows_list st ++ (row <$> page_nums).
Proof.
  revert st. induction page_nums as [|n l IH]; intros st; simpl.
  - intros [= <-]. by rewrite app_nil_r.
  - destruct (page st n) as [st1|] eqn:Hp; [|done]. intros H.
    apply import_page_done in Hp as [Hp _]. rewrite (IH _ H), Hp.
    by rewrite <- app_assoc.
Qed.


Lemma import_batch_reads c page_nums read st o read' :
  batch c page_nums read st = (o, read') → read ≤ read'.
Proof.
  revert read st. induction page_nums as [|n l IH]; intros read st; simpl.
  - intros [= _ <-]. lia.
  - destruct (is_cancelled c read); [intros [= _ <-]; lia|].
    destruct (page st n); [|intros [= _ <-]; lia].
    intros H%IH. lia.
Qed.

Lemma import_batches_reads c batch_starts read st o read' :
  batches c batch_starts read st = (o, read') → read ≤ read'.
Proof.
  revert read st. induction batch_starts as [|b l IH]; intros read st; simpl.
  - intros [= _ <-]. lia.
  - destruct (is_cancelled c read); [intros [= _ <-]; lia|].
    destruct (batch c _ (S read) st) as [[st1|st1 msg] read1] eqn:Hb;
      apply import_batch_reads in Hb.
    + intros H%IH. lia.
    + intros [= _ <-]. lia.
Qed.

(** A loop that ends with the flag still unset has read it before every
    page and has seen every page through. *)
Lemma import_batch_done c page_nums read st st' read' :
  batch c page_nums read st = (Done st', read') →
  is_cancelled c read' = false →
  in_turn page_nums st = Done st' ∧ read' = read + length page_nums.
Proof.
  revert read st. induction page_nums as [|n l IH]; intros read st; simpl.
  - intros [= <- <-] _. split; [done|lia].
  - destruct (is_cancelled c read) eqn:Hc.
    + intros [= _ <-] H.
      by rewrite (is_cancelled_mono c read (S read)) in H by (lia || done).
    + destruct (page st n) as [st1|]; [|done]. intros H Hn.
      destruct (IH _ _ H Hn) as [-> ->]. split; [done|lia].
Qed.

Lemma import_batches_done c batch_starts read st st' read' :
  batches c batch_starts read st = (Done st', read') →
  is_cancelled c read' = false →
  in_turn (batch_starts ≫= chunk) st = Done st'
  ∧ read' = read + length batch_starts + length (batch_starts ≫= chunk).
Proof.
  revert read st. induction batch_starts as [|b l IH]; intros read st;
    cbn [import_batches].
  - intros [= <- <-] _. split; [done|]. cbn. lia.
  - rewrite bind_cons. destruct (is_cancelled c read) eqn:Hc.
    + intros [= _ <-] H.
      by rewrite (is_cancelled_mono c read (S read)) in H by (lia || done).
    + destruct (batch c _ (S read) st) as [[st1|st1 msg] read1] eqn:Hb; [|done].
      intros H Hn. pose proof (import_batches_reads _ _ _ _ _ _ H) as Hle.
      destruct (import_batch_done _ _ _ _ _ _ Hb
                  (is_cancelled_before _ _ _ Hle Hn)) as [Hb1 Hr1].
      destruct (IH _ _ H Hn) as [Hl Hr].
      rewrite import_pages_app, Hb1, length_app. split; [done|].
      cbn [length]. lia.
Qed.

(** With no cancellation the loops are the pages taken in turn. *)
Lemma import_batch_never page_nums read st :
  (batch None page_nums read st).1 = in_turn page_nums st.
Proof.
  revert read st. induction page_nums as [|n l IH]; intros read st; [done|].
  simpl. destruct (page st n); [apply IH|done].
Qed.

Lemma import_batches_never batch_starts read st :
  (batches None batch_starts read st).1 = in_turn (batch_starts ≫= chunk) st.
Proof.
  revert read st. induction batch_starts as [|b l IH]; intros read st; [done|].
  cbn [import_batches is_cancelled]. rewrite bind_cons, import_pages_app.
  pose proof (import_batch_never (chunk b) (S read) st) as Hb.
  destruct (batch None _ (S read) st) as [[st1|st1 msg] read1]; simpl in Hb;
    rewrite <- Hb; [apply IH|done].
Qed.

(** Pages that PyMuPDF handles are never the cause of an exception. *)
Lemma import_batch_total c page_nums read st :
  Forall (λ pg, page_ok pg = true) pages →
  Forall (λ n, n < length pages) page_nums →
  ∃ st' read', batch c page_nums read st = (Done st', read').
Proof.
  intros Hok Hin. revert read st.
  induction Hin as [|n l Hn Hl IH]; intros read st; simpl; [by eauto|].
  destruct (is_cancelled c read); [by eauto|].
  apply lookup_lt_is_Some in Hn as [pg Hpg].
  destruct (import_page_ok st n pg Hpg) as [st1 ->]; [|by apply IH].
  rewrite Forall_forall in Hok. apply Hok. by eapply list_elem_of_lookup_2.
Qed.

Lemma import_batches_total c batch_starts read st :
  Forall (λ pg, page_ok pg = true) pages →
  ∃ st' read', batches c batch_starts read st = (Done st', read').
Proof.
  intros Hok. revert read st.
  induction batch_starts as [|b l IH]; intros read st; simpl; [by eauto|].
  destruct (is_cancelled c read); [by eauto|].
  destruct (import_batch_total c (chunk b) (S read) st Hok) as (st1 & read1 & ->);
    [|by apply IH].
  apply Forall_forall. intros n Hn. unfold range in Hn.
  apply elem_of_seq in Hn. lia.
Qed.

End ImportFacts.

Section BatchFacts.
Import PyStr Spec ArchiveStudio.

Lemma chunks_cover total m :
  ((λ k, k * batch_size) <$> seq 0 m) ≫=
    (λ batch_start, range batch_start (min (batch_start + batch_size) total))
  = seq 0 (min (m * batch_size) total).
Proof.
  induction m as [|m IH]; [done|].
  rewrite seq_S, fmap_app, bind_app, IH.
  change (((λ k, k * batch_size) <$> [0 + m]) ≫= _)
    with (range (m * batch_size) (min (m * batch_size + batch_size) total) ++ []).
  rewrite app_nil_r. unfold range, batch_size.
  destruct (decide (total ≤ m * 5)) as [Hle|Hgt].
  - replace (min (m * 5 + 5) total - m * 5) with 0 by lia.
    rewrite app_nil_r. f_equal. lia.
  - replace (min (m * 5) total) with (m * 5) by lia.
    replace (min (S m * 5) total) with (m * 5 + (min (m * 5 + 5) total - m * 5))
      by lia.
    by rewrite seq_app.
Qed.

Lemma batched_pages_seq total : batched_pages total = seq 0 total.
Proof.
  unfold batched_pages, range_step. rewrite chunks_cover. f_equal.
  unfold batch_size.
  pose proof (Nat.div_mod_eq (total + 5 - 1) 5) as H1.
  pose proof (Nat.mod_upper_bound (total + 5 - 1) 5) as H2. lia.
Qed.

End BatchFacts.

(** ** The import thread *)
Section ImportClaims.
Import PyStr Spec ArchiveStudio.

Lemma ensure_images_directory_main_df E pdf_path mw :
  main_df (ensure_images_directory E pdf_path mw).1 = main_df mw
  ∧ page_counter (ensure_images_directory E pdf_path mw).1 = page_counter mw.
Proof.
  unfold ensure_images_directory. destruct (images_directory mw); [|done].
  by case_bool_decide.
Qed.

Lemma store_set_window w mw :
  main_df mw = main_df (window w) → store (set_window w mw) = store w.
Proof. unfold store. simpl. by intros ->. Qed.

Lemma imported_row_index E main_cols images_dir pages start_index n :
  imported_row E main_cols images_dir pages start_index n !! "Index"%string
  = Some (CInt (start_index + n)).
Proof. by apply add_other_columns_lookup. Qed.

Lemma imported_row_page E main_cols images_dir pages start_index n :
  imported_row E main_cols images_dir pages start_index n !! "Page"%string
  = Some (CStr (new_page_num_str (start_index + n))).
Proof. by apply add_other_columns_lookup. Qed.

(** C6: when [fitz.open] raises, the run reports the import error and
    nothing else happens: the world, and with it the store, is the one it
    was, and no image has been written. *)
Theorem import_unopenable_source E msg pdf_path cancel w :
  PDFImportThread_run E (Raise msg) pdf_path cancel w
  = (w, [import_error (str "Import error: " ++ msg)], [])
  ∧ store_rows (PDFImportThread_run E (Raise msg) pdf_path cancel w).1.1
    = store_rows w.
Proof. done. Qed.


End ImportClaims.

Section ImportRuns.
Import PyStr Spec ArchiveStudio Scenario.

(** Seven good pages into the store of two: the rows 2 to 8 are added. *)
Example import_seven_good_pages :
  let '(w', sigs, written) :=
    PDFImportThread_run E0 (Ok seven_good_pages) pdf_path None w0 in
  (λ r : gmap string cell, r !! "Index"%string) <$> store_rows w'
    = (λ i, Some (CInt i)) <$> seq 0 9
  ∧ (λ r : gmap string cell, r !! "Page"%string) <$> drop 2 (store_rows w')
    = (λ i, Some (CStr (new_page_num_str i))) <$> seq 2 7
  ∧ last sigs = Some (import_complete (str "PDF import completed: 7 pages imported"))
  ∧ length written = 7.
Proof. by vm_compute. Qed.



(** Cancelled before the third page: two images are on disk, no row is in
    the store. *)
Example import_cancelled_run :
  let run := PDFImportThread_run E0 (Ok seven_good_pages) pdf_path (Some 3) w0 in
  store_rows run.1.1 = store_rows w0
  ∧ last run.1.2 = Some (import_error (str "Import cancelled by user"))
  ∧ length run.2 = 2.
Proof. cbv zeta. split_and!; evaluated. Qed.

End ImportRuns.

(** ** The page token *)
Section TokenClaims.
Import PyStr Spec ArchiveStudio.

(** C9, as the program has it: the token of index [i] is [i + 1] written
    twice, with at least four and at least three digits; index 7 gives
    0008_p008.  It is the row's [Page] label and the stem of the image
    file name.  The token read back gives [i + 1], so two indices never
    share a token or a file name; and tokens are in the order of their
    indices as long as [i + 1] has at most four digits. *)
Theorem new_page_num_str_spec (i j : nat) (text_content image_path_rel : pystr)
    (main_cols : list string) :
  new_page_num_str 7 = str "0008_p008"
  ∧ new_page_num_str i = fmt_0d 4 (i + 1) ++ str "_p" ++ fmt_0d 3 (i + 1)
  ∧ 4 ≤ length (fmt_0d 4 (i + 1))
  ∧ read_nat (new_page_num_str i) = i + 1
  ∧ add_other_columns main_cols (new_row_data i text_content image_path_rel)
      !! "Page"%string = Some (CStr (new_page_num_str i))
  ∧ image_filename i = new_page_num_str i ++ str ".jpg"
  ∧ (new_page_num_str i = new_page_num_str j → i = j)
  ∧ (image_filename i = image_filename j → i = j)
  ∧ (i < j → j < 9999 →
     lex_ltb (new_page_num_str i) (new_page_num_str j) = true).
Proof.
  split_and!; try done.
  - apply length_fmt_0d.
  - apply read_nat_new_page_num_str.
  - by apply add_other_columns_lookup.
  - apply new_page_num_str_inj.
  - unfold image_filename. intros H. apply app_inj_2 in H as [H _]; [|done].
    by apply new_page_num_str_inj.
  - apply new_page_num_str_sorted.
Qed.

(** C9, against the specification: index 7 does not give 0008_p007. *)
Lemma new_page_num_str_counterexample :
  new_page_num_str 7 = str "0008_p008"
  ∧ new_page_num_str 7 ≠ Claimed.token_of_index_7.
Proof. split; [by vm_compute|]. intros H. vm_compute in H. discriminate H. Qed.

(** Past four digits the order of the tokens is no longer that of the
    indices. *)
Example new_page_num_str_unsorted :
  lex_ltb (new_page_num_str 9998) (new_page_num_str 9999) = false.
Proof. by vm_compute. Qed.

End TokenClaims.

(** ** Facts about the AI processing thread *)
Section ProcessingFacts.
Import PyStr Spec ArchiveStudio.

Lemma submit_pages_never read l : submit_pages None read l = (l, read + length l).
Proof.
  revert read. induction l as [|i l IH]; intros read; simpl.
  - f_equal. lia.
  - rewrite IH. f_equal. lia.
Qed.

Lemma submit_pages_reads cancel read l :
  read ≤ (submit_pages cancel read l).2
  ∧ (is_cancelled cancel (submit_pages cancel read l).2 = false →
     submit_pages cancel read l = (l, read + length l)).
Proof.
  revert read. induction l as [|i l IH]; intros read; simpl.
  - split; [lia|]. intros _. f_equal. lia.
  - destruct (is_cancelled cancel read) eqn:Hc; simpl.
    + split; [lia|]. intros H.
      by rewrite (is_cancelled_mono cancel read (S read)) in H by (lia || done).
    + destruct (IH (S read)) as [Hle Hall].
      destruct (submit_pages cancel (S read) l) as [sub read'] eqn:Hs.
      simpl in *. split; [lia|]. intros H. specialize (Hall H).
      injection Hall as -> ->. f_equal. lia.
Qed.

Lemma submit_pages_in_range cancel read l :
  (submit_pages cancel read l).1 ⊆ l.
Proof.
  revert read. induction l as [|i l IH]; intros read; simpl; [done|].
  destruct (is_cancelled cancel read); simpl; [apply list_subseteq_nil|].
  specialize (IH (S read)). destruct (submit_pages cancel (S read) l). simpl in *.
  intros j [->|Hj]%elem_of_cons; [by left|]. right. by apply IH.
Qed.

Lemma harvest_reads cancel read total success l n0 :
  read ≤ (harvest cancel read total success l n0).2
  ∧ (is_cancelled cancel (harvest cancel read total success l n0).2 = false →
     (harvest cancel read total success l n0).2 = read + length l
     ∧ (harvest cancel read total success l n0).1.1
       = n0 + length (filter (λ i, success i = true) l)).
Proof.
  revert read n0. induction l as [|i l IH]; intros read n0; simpl.
  - split; [lia|]. intros _. split; lia.
  - destruct (is_cancelled cancel read) eqn:Hc; simpl.
    + split; [lia|]. intros H.
      by rewrite (is_cancelled_mono cancel read (S read)) in H by (lia || done).
    + rewrite filter_cons.
      destruct (IH (S read) (if success i then n0 + 1 else n0)) as [Hle Hall].
      destruct (harvest cancel (S read) total success l _) as [[n sigs] read'].
      simpl in *. split; [lia|]. intros H. destruct (Hall H) as [-> ->].
      split; [lia|]. destruct (success i); [rewrite decide_True by done|
        rewrite decide_False by done]; simpl; lia.
Qed.

(** When no task succeeds, every page still has its progress signal, with
    a count that stays where it was. *)
Lemma harvest_no_success read total success l n0 :
  Forall (λ i, success i = false) l →
  harvest None read total success l n0
  = (n0,
     (λ i, progress_updated n0 total (str "Completed page " ++ dec (i + 1))) <$> l,
     read + length l).
Proof.
  intros Hl. revert read. induction Hl as [|i l Hi Hl IH]; intros read; simpl.
  - by rewrite Nat.add_0_r.
  - rewrite Hi, IH. by replace (S read + length l) with (read + S (length l)) by lia.
Qed.

Lemma loc_set_rows df j col v r :
  rows df !! j = Some r →
  rows (loc_set df j col v) = <[j := <[col := v]> r]> (rows df).
Proof. unfold loc_set. by intros ->. Qed.

Lemma htr_store_rows df j result r :
  rows df !! j = Some r →
  rows (htr_store df j result)
  = <[j := <["Text_Toggle"%string := CStr (str "Original_Text")]>
             (<["Original_Text"%string := CStr result]> r)]> (rows df).
Proof.
  intros Hj. unfold htr_store.
  rewrite (loc_set_rows _ j _ _ (<["Original_Text"%string := CStr result]> r)).
  - rewrite (loc_set_rows _ _ _ _ _ Hj). by rewrite list_insert_insert_eq.
  - rewrite (loc_set_rows _ _ _ _ _ Hj). apply list_lookup_insert_eq.
    by eapply lookup_lt_Some.
Qed.

Section tasks.
Variable task : nat → option pystr.

Lemma run_tasks_cons j sub df :
  run_tasks task (j :: sub) df
  = run_tasks task sub
      (match task j with Some result => htr_store df j result | None => df end).
Proof. done. Qed.

Lemma run_tasks_length sub df :
  Forall (λ j, j < length (rows df)) sub →
  length (rows (run_tasks task sub df)) = length (rows df).
Proof.
  revert df. induction sub as [|j sub IH]; intros df Hsub; [done|].
  apply Forall_cons in Hsub as [Hj Hsub]. rewrite run_tasks_cons.
  destruct (task j) as [result|]; [|by apply IH].
  apply lookup_lt_is_Some in Hj as [r Hr].
  assert (length (rows (htr_store df j result)) = length (rows df)) as Hlen
    by (by rewrite (htr_store_rows _ _ _ _ Hr), length_insert).
  rewrite IH; [done|]. by rewrite Hlen.
Qed.

(** A task that fails, like a page that was never submitted, leaves its
    row as it was. *)
Lemma run_tasks_untouched sub df i :
  Forall (λ j, j < length (rows df)) sub →
  task i = None ∨ i ∉ sub →
  rows (run_tasks task sub df) !! i = rows df !! i.
Proof.
  revert df. induction sub as [|j sub IH]; intros df Hsub Hi; [done|].
  apply Forall_cons in Hsub as [Hj Hsub]. rewrite run_tasks_cons.
  assert (task i = None ∨ i ∉ sub) as Hi'.
  { destruct Hi as [?|Hi]; [by left|]. right. intros ?. apply Hi. by right. }
  destruct (task j) as [result|] eqn:Htask; [|by apply IH].
  apply lookup_lt_is_Some in Hj as [r Hr].
  pose proof (htr_store_rows _ _ result _ Hr) as Hrows.
  rewrite IH; [|by rewrite Hrows, length_insert|done].
  rewrite Hrows. apply list_lookup_insert_ne.
  intros ->. destruct Hi as [Hi|Hi]; [congruence|]. apply Hi. by left.
Qed.

(** A task that succeeds leaves its result in its row. *)
Lemma run_tasks_written sub df i result :
  Forall (λ j, j < length (rows df)) sub →
  task i = Some result →
  cell_at df i "Original_Text" = Some (CStr result) ∨ i ∈ sub →
  cell_at (run_tasks task sub df) i "Original_Text" = Some (CStr result).
Proof.
  intros Hsub Hi. revert df Hsub.
  induction sub as [|j sub IH]; intros df Hsub Hin.
  - destruct Hin as [?|Hin]; [done|]. by apply elem_of_nil in Hin.
  - apply Forall_cons in Hsub as [Hj Hsub]. rewrite run_tasks_cons.
    apply lookup_lt_is_Some in Hj as [r Hr].
    destruct (decide (i = j)) as [->|Hne].
    + rewrite Hi. pose proof (htr_store_rows _ _ result _ Hr) as Hrows.
      apply IH; [by rewrite Hrows, length_insert|]. left.
      unfold cell_at. rewrite Hrows, list_lookup_insert_eq
        by (by eapply lookup_lt_Some).
      simpl. by rewrite lookup_insert_ne, lookup_insert_eq.
    + assert (cell_at df i "Original_Text" = Some (CStr result) ∨ i ∈ sub)
        as Hin'.
      { destruct Hin as [?|Hin]; [by left|].
        apply elem_of_cons in Hin as [?|?]; [done|by right]. }
      destruct (task j) as [result'|]; [|by apply IH].
      pose proof (htr_store_rows _ _ result' _ Hr) as Hrows.
      apply IH; [by rewrite Hrows, length_insert|].
      destruct Hin' as [Hc|?]; [left|by right].
      unfold cell_at in *. by rewrite Hrows, list_lookup_insert_ne.
Qed.
End tasks.

Lemma set_heap_id w df d :
  heap w !! d = Some df → set_heap w (<[d := df]> (heap w)) = w.
Proof. intros H. rewrite insert_id by done. by destruct w. Qed.

Lemma sync_dataframe_store d w df :
  heap w !! d = Some df →
  store (sync_dataframe_to_main_window d w) = Some df
  ∧ heap (sync_dataframe_to_main_window d w) !! d = Some df.
Proof.
  intros Hd. unfold sync_dataframe_to_main_window, store. rewrite Hd. simpl.
  destruct (data_operations (window w)); simpl.
  - rewrite lookup_insert_ne by lia. rewrite lookup_insert_eq. split; [done|].
    rewrite !lookup_insert. by repeat case_decide.
  - rewrite lookup_insert_eq. split; [done|].
    rewrite lookup_insert. by case_decide.
Qed.

(** [process_htr_all] on a thread that has data, step by step. *)
Lemma process_htr_all_eq E cancel as_completed self w d df :
  data self = Some d → heap w !! d = Some df → df_empty df = false →
  let total_pages := df_len df in
  let submitted := submit_pages cancel 0 (range 0 total_pages) in
  let harvested :=
    harvest cancel submitted.2 total_pages (htr_succeeds E (window w) df)
      (as_completed submitted.1) 0 in
  let w1 :=
    set_heap w
      (<[d := run_tasks (htr_task E (window w) df) submitted.1 df]> (heap w)) in
  process_htr_all E cancel as_completed self w
  = if negb (is_cancelled cancel harvested.2) then
      (sync_dataframe_to_main_window d w1,
       harvested.1.2 ++ [pages_processed "HTR processing completed: "
                           harvested.1.1 total_pages])
    else
      (w1,
       harvested.1.2 ++ [pages_processed "HTR processing cancelled: "
                           harvested.1.1 total_pages]).
Proof.
  intros Hd Hdf Hne. unfold process_htr_all. rewrite Hd, Hdf, Hne. cbv zeta.
  destruct (submit_pages _ _ _) as [sub read1]. simpl.
  change (λ i, bool_decide (is_Some (htr_task E (window w) df i)))
    with (htr_succeeds E (window w) df).
  by destruct (harvest _ _ _ _ _ _) as [[n sigs] read2].
Qed.

Lemma submitted_in_range cancel df :
  Forall (λ j, j < length (rows df))
    (submit_pages cancel 0 (range 0 (df_len df))).1.
Proof.
  apply Forall_forall. intros j Hj.
  apply (submit_pages_in_range cancel 0) in Hj. unfold range, df_len in Hj.
  apply elem_of_seq in Hj. lia.
Qed.

End ProcessingFacts.

(** ** The processing tab and the AI thread *)
Section ProcessingClaims.
Import PyStr Spec ArchiveStudio.

(** C1: while the current thread is running, a submission of any
    operation, in any world, only shows the warning: no thread is made or
    started, the tab keeps its thread, and the world, with the store in
    it, is the one it was. *)
Theorem start_ai_processing_busy tab w op th :
  current_thread tab = Some th →
  isRunning th = true →
  start_ai_processing tab w op = (tab, w, [busy_warning]).
Proof. intros Hth Hrun. unfold start_ai_processing. by rewrite Hth, Hrun. Qed.

Lemma start_ai_processing_busy_witness :
  start_ai_processing Scenario.busy_tab Scenario.w0 correct_text
  = (Scenario.busy_tab, Scenario.w0, [busy_warning]).
Proof.
  apply (start_ai_processing_busy Scenario.busy_tab Scenario.w0 correct_text
           Scenario.htr_thread); reflexivity.
Defined.

(** With no thread running the submission starts one, whose [data] is the
    object [main_df] refers to. *)
Lemma start_ai_processing_idle tab w op :
  (∀ th, current_thread tab = Some th → isRunning th = false) →
  ∃ th, start_ai_processing tab w op
        = ({| current_thread := Some th; processing := true |}, w, [thread_start th])
        ∧ data th = main_df (window w) ∧ operation_type th = op.
Proof.
  intros Hidle. unfold start_ai_processing.
  destruct (current_thread tab) as [th|] eqn:Hth; [rewrite (Hidle th eq_refl)|];
    by eexists.
Qed.

Lemma image_missing_skipped E mw cols page_data i :
  image_missing E cols page_data = true →
  process_single_page_htr E mw cols page_data i = None.
Proof.
  unfold image_missing, process_single_page_htr.
  destruct (series_get cols page_data "Image_Path" (CStr [])) as [p| |];
    [|done|done].
  simpl. intros [Hp|Hp]%orb_true_iff.
  - by rewrite Hp.
  - destruct (bool_decide (p = [])); [done|]. simpl. by rewrite Hp.
Qed.



Lemma run_tasks_none task sub df :
  (∀ i, task i = None) → run_tasks task sub df = df.
Proof.
  intros Hnone. induction sub as [|j sub IH]; [done|].
  by rewrite run_tasks_cons, Hnone.
Qed.







Lemma correct_pages_reads E cancel mw total pages st0 st :
  correct_pages E cancel mw total pages st0 = (st, None) →
  is_cancelled cancel (c_reads st) = false →
  c_reads st = c_reads st0 + length pages.
Proof.
  revert st0. induction pages as [|i pages IH]; intros st0; cbn [correct_pages].
  - intros [= <-] _. cbn. lia.
  - destruct (is_cancelled cancel (c_reads st0)) eqn:Hc.
    + intros [= <-] H. cbn in H.
      by rewrite (is_cancelled_mono cancel (c_reads st0) (S (c_reads st0))) in H
        by (lia || done).
    + destruct (series_get _ _ _ _) as [text| |]; [|done|done].
      intros H Hn. rewrite (IH _ H Hn). cbn [length].
      destruct (nonblank text); [destruct (process_single_page_correction _ _ _ _ _)|];
        cbn; lia.
Qed.

(** C2, as the program has it: a cancelled HTR job hands nothing back.
    When the job ends with the flag set, the only change to the world is
    in the frame the thread was given: every submitted page whose task
    succeeded has its result there.  The window's [main_df] is not
    rebound and no copy is made; the results are in the main store when,
    and only because, [main_df] still refers to that same frame.  A text
    correction cancelled before its last page hands nothing back either. *)
Theorem htr_cancelled_no_hand_back E t as_completed self w d df :
  (∀ l, length (as_completed l) = length l) →
  data self = Some d → heap w !! d = Some df → df_empty df = false →
  t ≤ 2 * df_len df →
  let submitted := (submit_pages (Some t) 0 (range 0 (df_len df))).1 in
  let df' := run_tasks (htr_task E (window w) df) submitted df in
  let w' := (process_htr_all E (Some t) as_completed self w).1 in
  w' = set_heap w (<[d := df']> (heap w))
  ∧ window w' = window w
  ∧ next_ref w' = next_ref w
  ∧ heap w' !! d = Some df'
  ∧ (∀ i result,
       i ∈ submitted → htr_task E (window w) df i = Some result →
       cell_at df' i "Original_Text" = Some (CStr result))
  ∧ (main_df (window w) = Some d → store w' = Some df')
  ∧ (∀ r, main_df (window w) = Some r → r ≠ d → store w' = heap w !! r)
  ∧ (∃ sigs n,
       (process_htr_all E (Some t) as_completed self w).2
       = sigs ++ [pages_processed "HTR processing cancelled: " n (df_len df)])
  ∧ (t ≤ df_len df →
     window (process_text_correction E (Some t) self w).1 = window w
     ∧ next_ref (process_text_correction E (Some t) self w).1 = next_ref w).
Proof.
  intros Hlen Hd Hdf Hne Ht submitted df' w'. subst w'.
  assert (t ≤ df_len df →
    window (process_text_correction E (Some t) self w).1 = window w
    ∧ next_ref (process_text_correction E (Some t) self w).1 = next_ref w)
    as Hcorrection.
  { intros Ht'. unfold process_text_correction. rewrite Hd, Hdf, Hne.
    destruct (correct_pages _ _ _ _ _ _) as [st [msg|]] eqn:Hpages; [done|].
    destruct (is_cancelled (Some t) (c_reads st)) eqn:Hc; [done|].
    pose proof (correct_pages_reads _ _ _ _ _ _ _ Hpages Hc) as Hreads.
    unfold range in Hreads. rewrite length_seq in Hreads.
    simpl in Hc, Hreads. apply Nat.leb_gt in Hc. lia. }
  rewrite (process_htr_all_eq E (Some t) as_completed self w d df) by done.
  cbv zeta. fold submitted. fold df'.
  set (read1 := (submit_pages (Some t) 0 (range 0 (df_len df))).2).
  set (harvested := harvest _ _ _ _ _ _).
  assert (is_cancelled (Some t) harvested.2 = true) as Hc.
  { destruct (is_cancelled (Some t) harvested.2) eqn:Hc; [done|].
    destruct (harvest_reads (Some t) read1 (df_len df)
                (htr_succeeds E (window w) df) (as_completed submitted) 0)
      as [Hle Hall].
    fold harvested in Hle, Hall. destruct (Hall Hc) as [Hread _].
    destruct (submit_pages_reads (Some t) 0 (range 0 (df_len df))) as [_ Hsub].
    fold read1 in Hsub.
    pose proof (is_cancelled_before _ _ _ Hle Hc) as Hc1.
    specialize (Hsub Hc1).
    assert (read1 = 0 + length (range 0 (df_len df))) as Hr1
      by (unfold read1; by rewrite Hsub).
    assert (submitted = range 0 (df_len df)) as Hs
      by (unfold submitted; by rewrite Hsub).
    rewrite Hlen, Hs, Hr1 in Hread. unfold range in Hread.
    rewrite length_seq in Hread. simpl in Hc. apply Nat.leb_gt in Hc. lia. }
  rewrite Hc. cbn [negb fst snd].
  split_and!; [done|done|done|apply lookup_insert_eq| | | |by eauto|done].
  - intros i result Hi Htask. apply run_tasks_written; [|done|by right].
    apply submitted_in_range.
  - intros Hmain. unfold store. simpl. rewrite Hmain. simpl.
    apply lookup_insert_eq.
  - intros r Hmain Hr. unfold store. simpl. rewrite Hmain. simpl.
    by apply lookup_insert_ne.
Qed.

Lemma htr_cancelled_no_hand_back_witness :
  let E := Scenario.E0 in
  let w := Scenario.three_page_world in
  let df := Scenario.three_page_frame in
  let submitted := (submit_pages (Some 3) 0 (range 0 (df_len df))).1 in
  let df' := run_tasks (htr_task E (window w) df) submitted df in
  let w' := (process_htr_all E (Some 3) reverse Scenario.htr_thread w).1 in
  w' = set_heap w (<[0 := df']> (heap w))
  ∧ window w' = window w
  ∧ next_ref w' = next_ref w
  ∧ heap w' !! 0 = Some df'
  ∧ (∀ i result,
       i ∈ submitted → htr_task E (window w) df i = Some result →
       cell_at df' i "Original_Text" = Some (CStr result))
  ∧ (main_df (window w) = Some 0 → store w' = Some df')
  ∧ (∀ r, main_df (window w) = Some r → r ≠ 0 → store w' = heap w !! r)
  ∧ (∃ sigs n,
       (process_htr_all E (Some 3) reverse Scenario.htr_thread w).2
       = sigs ++ [pages_processed "HTR processing cancelled: " n (df_len df)])
  ∧ (3 ≤ df_len df →
     window (process_text_correction E (Some 3) Scenario.htr_thread w).1 = window w
     ∧ next_ref (process_text_correction E (Some 3) Scenario.htr_thread w).1
       = next_ref w).
Proof.
  apply (htr_cancelled_no_hand_back Scenario.E0 3 reverse Scenario.htr_thread
           Scenario.three_page_world 0 Scenario.three_page_frame).
  - intros l. apply length_reverse.
  - reflexivity.
  - reflexivity.
  - reflexivity.
  - vm_compute. lia.
Defined.

(** C2, against the specification: an HTR job is submitted on the store of
    two pages; a PDF of one page is imported, which rebinds [main_df] to
    the concatenated frame; the job transcribes both pages into the frame
    it was given and is cancelled after the first page is reported.  The
    job's frame has the text of page 1, the main store does not: nothing
    was handed back. *)
Lemma htr_cancelled_counterexample :
  let submitted :=
    start_ai_processing Scenario.idle_tab Scenario.w0 htr_all in
  let imported :=
    PDFImportThread_run Scenario.E0 (Ok [Scenario.good_page "three"])
      Scenario.pdf_path None submitted.1.2 in
  let run :=
    AIProcessingThread_run Scenario.E0 (Some 3) (λ l, l) Scenario.htr_thread
      imported.1.1 in
  submitted.1.1 = Scenario.busy_tab
  ∧ main_df (window imported.1.1) = Some 1
  ∧ last run.2
    = Some (processing_complete (str "HTR processing cancelled: 1/2 pages processed"))
  ∧ (heap run.1 !! 0 ≫= λ df, cell_at df 0 "Original_Text")
    = Some (CStr (str "transcribed"))
  ∧ (store run.1 ≫= λ df, cell_at df 0 "Original_Text") = Some (CStr [])
  ∧ ¬ Claimed.partial_results_in_store 0 run.1.
Proof.
  cbv zeta.
  set (run := AIProcessingThread_run _ _ _ _ _).
  assert ((heap run.1 !! 0 ≫= λ df, cell_at df 0 "Original_Text")
          = Some (CStr (str "transcribed"))) as Hdata by evaluated.
  assert ((store run.1 ≫= λ df, cell_at df 0 "Original_Text") = Some (CStr []))
    as Hstore by evaluated.
  split_and!; [reflexivity|evaluated|evaluated|done|done|].
  intros H. specialize (H 0 (str "transcribed") Hdata).
  rewrite Hstore in H. discriminate H.
Qed.

End ProcessingClaims.


(** ** More about the cleanup: running it again, and the words it keeps *)
Section CleanupMore.
Import PyStr Spec DocumentAI ArchiveStudio Review.

Lemma clean_document_text_blank text :
  strip text = [] → clean_document_text text = no_text_detected.
Proof.
  intros H. unfold clean_document_text. destruct text as [|c t]; [done|].
  by rewrite H.
Qed.

Lemma filter_ne_idemp (lss : list (list pystr)) :
  filter (λ ws, ws ≠ []) (filter (λ ws, ws ≠ []) lss)
  = filter (λ ws, ws ≠ []) lss.
Proof.
  induction lss as [|ws lss IH]; [done|].
  rewrite filter_cons. destruct (decide (ws ≠ [])) as [Hws|Hws]; [|done].
  by rewrite filter_cons, decide_True, IH.
Qed.

Lemma clean_lines_idemp lines :
  clean_lines (clean_lines lines) = clean_lines lines.
Proof.
  rewrite (clean_lines_words (clean_lines lines)), split_ws_clean_lines.
  by rewrite filter_ne_idemp, <- clean_lines_words.
Qed.

Lemma split_ws_app_space a c b :
  isspace c = true → split_ws (a ++ c :: b) = split_ws a ++ split_ws b.
Proof.
  intros Hc. induction a as [|x a IH]; [by simpl; rewrite Hc|].
  change ((x :: a) ++ c :: b) with (x :: (a ++ c :: b)).
  destruct (isspace x) eqn:Hx; [by simpl; rewrite Hx|].
  destruct a as [|y a].
  - simpl. by rewrite Hx, Hc.
  - change (split_ws (x :: (y :: a) ++ c :: b))
      with (if isspace x then split_ws ((y :: a) ++ c :: b)
            else if isspace y then [x] :: split_ws ((y :: a) ++ c :: b)
            else match split_ws ((y :: a) ++ c :: b) with
                 | w :: ws => (x :: w) :: ws
                 | [] => [[x]]
                 end).
    change (split_ws (x :: y :: a))
      with (if isspace x then split_ws (y :: a)
            else if isspace y then [x] :: split_ws (y :: a)
            else match split_ws (y :: a) with
                 | w :: ws => (x :: w) :: ws
                 | [] => [[x]]
                 end).
    rewrite Hx, IH. destruct (isspace y) eqn:Hy; [done|].
    destruct (split_ws (y :: a)) as [|w ws] eqn:Hw; [|done].
    apply split_ws_nil_iff in Hw. simpl in Hw. by rewrite Hy in Hw.
Qed.

Lemma join_split_on sep s : join [sep] (split_on sep s) = s.
Proof.
  induction s as [|c s IH]; [done|]. simpl.
  destruct (c =? sep)%N eqn:Hc.
  - apply N.eqb_eq in Hc. subst c.
    destruct (split_on sep s) as [|h t] eqn:Hs; [by destruct (split_on_ne sep s)|].
    change (join [sep] ([] :: h :: t)) with ([] ++ [sep] ++ join [sep] (h :: t)).
    by rewrite IH.
  - destruct (split_on sep s) as [|h t] eqn:Hs; [by destruct (split_on_ne sep s)|].
    destruct t as [|h' t]; simpl in *; by rewrite <- IH.
Qed.

Lemma split_ws_join_LF ls :
  split_ws (join [LF] ls) = mjoin (split_ws <$> ls).
Proof.
  induction ls as [|l ls IH]; [done|].
  destruct ls as [|l' ls]; [by simpl; rewrite app_nil_r|].
  change (join [LF] (l :: l' :: ls)) with (l ++ LF :: join [LF] (l' :: ls)).
  rewrite split_ws_app_space by apply isspace_LF. by rewrite IH.
Qed.

Lemma mjoin_filter_ne (lss : list (list pystr)) :
  mjoin (filter (λ ws, ws ≠ []) lss) = mjoin lss.
Proof.
  induction lss as [|ws lss IH]; [done|].
  rewrite filter_cons. destruct (decide (ws ≠ [])) as [Hws|Hws]; simpl.
  - by rewrite IH.
  - destruct ws; [by rewrite IH|by destruct Hws].
Qed.

Lemma split_ws_clean_document_text text :
  strip text ≠ [] → split_ws (clean_document_text text) = split_ws text.
Proof.
  intros Hne. destruct (clean_document_text_lines text Hne) as [-> _].
  rewrite split_ws_join_LF, split_ws_clean_lines, mjoin_filter_ne.
  by rewrite <- split_ws_join_LF, join_split_on.
Qed.

Lemma strip_clean_document_text text :
  strip text ≠ [] → strip (clean_document_text text) ≠ [].
Proof.
  intros Hne Hc. apply Hne.
  apply strip_nil_iff, split_ws_nil_iff in Hc.
  rewrite split_ws_clean_document_text in Hc by done.
  by apply strip_nil_iff, split_ws_nil_iff.
Qed.

(** X1: cleaning a text that has been cleaned changes nothing; the
    placeholder of a blank text is itself left as it is. *)
Theorem clean_document_text_idempotent text :
  clean_document_text (clean_document_text text) = clean_document_text text.
Proof.
  destruct (decide (strip text = [])) as [Hblank|Hne].
  - rewrite (clean_document_text_blank text Hblank). by vm_compute.
  - pose proof (strip_clean_document_text text Hne) as Hne'.
    destruct (clean_document_text_lines _ Hne') as [-> _].
    destruct (clean_document_text_lines text Hne) as [-> Hc].
    rewrite split_on_join by (done || apply clean_lines_tidy).
    by rewrite clean_lines_idemp.
Qed.

(** X2: the cleanup keeps the words of a text that has any, in their order:
    what it removes is whitespace only.  So the review tab counts as many
    words in the cleaned text as in the text the service gave. *)
Theorem clean_document_text_keeps_words text tab :
  strip text ≠ [] →
  split_ws (clean_document_text text) = split_ws text
  ∧ word_count_label
      (update_word_count (set_text_editor tab (clean_document_text text)))
    = word_count_label (update_word_count (set_text_editor tab text))
  ∧ word_count_label (update_word_count (set_text_editor tab text))
    = str "Words: " ++ dec (length (split_ws text)).
Proof.
  intros Hne. pose proof (strip_clean_document_text text Hne) as Hne'.
  pose proof (split_ws_clean_document_text text Hne) as Hw.
  unfold update_word_count, nonblank. simpl.
  rewrite !bool_decide_eq_false_2 by done. simpl. by rewrite Hw.
Qed.

Lemma clean_document_text_keeps_words_witness :
  split_ws (clean_document_text sample_input)
  = [str "Line"; str "one"; str "Line"; str "two"].
Proof.
  destruct (clean_document_text_keeps_words sample_input More.first_page)
    as [H _].
  - by vm_compute.
  - rewrite H. reflexivity.
Defined.

End CleanupMore.

(** ** The configuration of the Document AI handler *)
Section HandlerFacts.
Import PyStr DocumentAIHandler.

Lemma split_on_absent sep l : sep ∉ l → split_on sep l = [l].
Proof.
  induction l as [|c l IH]; [done|]. intros Hl.
  apply not_elem_of_cons in Hl as [Hc Hl]. simpl.
  rewrite (proj2 (N.eqb_neq c sep)) by congruence. by rewrite IH.
Qed.

Lemma split_on_app sep a b :
  ∃ h pre, split_on sep (a ++ sep :: b) = h :: pre ++ split_on sep b.
Proof.
  induction a as [|c a (h & pre & IH)]; simpl.
  - rewrite N.eqb_refl. by exists [], [].
  - rewrite IH. destruct (c =? sep)%N.
    + by exists [], (h :: pre).
    + by exists (c :: h), pre.
Qed.

(** The last of the parts of a text cut at [sep] is what follows the last
    [sep]. *)
Lemma last_split_on sep a b :
  sep ∉ b → last (split_on sep (a ++ sep :: b)) = Some b.
Proof.
  intros Hb. destruct (split_on_app sep a b) as (h & pre & ->).
  rewrite (split_on_absent sep b Hb).
  change (h :: pre ++ [b]) with ((h :: pre) ++ [b]). apply last_snoc.
Qed.

Lemma processor_id_of_path project loc pid :
  SLASH ∉ pid → processor_id_of (processor_path project loc pid) = pid.
Proof.
  intros Hpid. unfold processor_id_of, processor_path.
  change (str "/processors/") with (str "/processors" ++ [SLASH]).
  rewrite <- !app_assoc, !app_assoc, <- app_assoc.
  change ([SLASH] ++ pid) with (SLASH :: pid).
  by rewrite last_split_on.
Qed.

(** X3: a setup that succeeds leaves the handler configured, with a
    processor id that is never empty (the id asked for, or "general" when
    none or an empty one was given) and the resource name built from the
    project, the location and that id.  Reading the id back from the
    resource name the way [get_available_processors] does gives the same
    id, as long as the id has no slash in it. *)
Theorem setup_credentials_configures made_credentials made_client project loc
    processor self :
  let done :=
    setup_credentials made_credentials made_client project loc processor self in
  done.2 = true →
  is_configured done.1 = true
  ∧ ∃ pid,
      processor_id done.1 = Some pid
      ∧ pid ≠ []
      ∧ pid = (if bool_decide (default [] processor = []) then str "general"
               else default [] processor)
      ∧ processor_name done.1 = Some (processor_path project loc pid)
      ∧ (SLASH ∉ pid → processor_id_of (processor_path project loc pid) = pid).
Proof.
  cbv zeta. unfold setup_credentials.
  destruct made_credentials as [creds|]; [|done].
  destruct made_client as [made|]; [|done]. intros _. simpl.
  split; [done|]. eexists. split; [done|].
  split_and!; [| |done|apply processor_id_of_path].
  - by destruct processor as [[|c p]|].
  - by destruct processor as [[|c p]|].
Qed.

Lemma setup_credentials_configures_witness :
  processor_id
    (setup_credentials (Some 1) (Some 2) (str "archive") (str "us")
       (Some (str "ocr-7")) init).1 = Some (str "ocr-7")
  ∧ processor_name
      (setup_credentials (Some 1) (Some 2) (str "archive") (str "us")
         (Some (str "ocr-7")) init).1
    = Some (str "projects/archive/locations/us/processors/ocr-7").
Proof.
  destruct (setup_credentials_configures (Some 1) (Some 2) (str "archive")
              (str "us") (Some (str "ocr-7")) init eq_refl)
    as (_ & pid & Hid & _ & Hpid & Hname & _).
  rewrite Hid, Hname, Hpid. split; reflexivity.
Defined.

(** X4: a setup that fails changes nothing of the configuration: the
    client, the project, the location, the processor and its resource name
    are the ones from before, so the handler answers as it did; one that
    was never configured goes on returning [None] for every image. *)
Theorem setup_credentials_failure_keeps made_credentials made_client project
    loc processor self :
  let done :=
    setup_credentials made_credentials made_client project loc processor self in
  done.2 = false →
  client done.1 = client self
  ∧ project_id done.1 = project_id self
  ∧ location done.1 = location self
  ∧ processor_id done.1 = processor_id self
  ∧ processor_name done.1 = processor_name self
  ∧ (∀ response, process_image done.1 response = process_image self response)
  ∧ (∀ listing,
       get_available_processors done.1 listing
       = get_available_processors self listing)
  ∧ (is_configured self = false →
     ∀ response, process_image done.1 response = None).
Proof.
  cbv zeta. unfold setup_credentials.
  destruct made_credentials as [creds|]; [|intros _].
  - destruct made_client as [made|]; [done|]. intros _. simpl.
    split_and!; try done. unfold process_image, is_configured. simpl.
    intros H response. unfold is_configured in H. by rewrite H.
  - simpl. split_and!; try done. unfold process_image.
    intros H response. by rewrite H.
Qed.

Lemma setup_credentials_failure_keeps_witness :
  process_image
    (setup_credentials None (Some 2) (str "archive") (str "us") None init).1
    (Some (str "a text")) = None.
Proof.
  destruct (setup_credentials_failure_keeps None (Some 2) (str "archive")
              (str "us") None init eq_refl)
    as (_ & _ & _ & _ & _ & _ & _ & H).
  by apply H.
Defined.

Lemma listing_lookup (ps : list processor) (d : gmap pystr pystr) k :
  foldl (λ processor_dict p,
           <[shown_name p := processor_id_of (name p)]> processor_dict) d ps !! k
  = match last (filter (λ p, shown_name p = k) ps) with
    | Some p => Some (processor_id_of (name p))
    | None => d !! k
    end.
Proof.
  revert d. induction ps as [|p ps IH] using rev_ind; intros d; [done|].
  rewrite foldl_app, filter_app. simpl. rewrite filter_cons, filter_nil.
  destruct (decide (shown_name p = k)) as [<-|Hne].
  - by rewrite last_snoc, lookup_insert_eq.
  - rewrite app_nil_r, lookup_insert_ne by done. apply IH.
Qed.

(** X5: the dictionary of a configured handler has, under each name shown,
    the id of the last listed processor with that name, read from the end
    of its resource name; it has no other entries.  A handler that is not
    configured, or a listing that raises, gives the empty dictionary. *)
Theorem get_available_processors_lookup self listing k :
  get_available_processors self listing !! k
  = if is_configured self then
      listing ≫= λ ps,
        (λ p, processor_id_of (name p)) <$> last (filter (λ p, shown_name p = k) ps)
    else None.
Proof.
  unfold get_available_processors. destruct (is_configured self); [|done].
  destruct listing as [ps|]; [|done]. simpl. rewrite listing_lookup.
  by destruct (last _).
Qed.

End HandlerFacts.

(** ** The review tab *)
Section ReviewFacts.
Import PyStr Spec ArchiveStudio Review.

Lemma load_current_text_pages w tab :
  current_page (load_current_text w tab) = current_page tab
  ∧ total_pages (load_current_text w tab) = total_pages tab
  ∧ page_label (load_current_text w tab) = page_label tab
  ∧ prev_enabled (load_current_text w tab) = prev_enabled tab
  ∧ next_enabled (load_current_text w tab) = next_enabled tab.
Proof. done. Qed.

Lemma load_current_page_pages E w tab :
  current_page (load_current_page E w tab) = current_page tab
  ∧ total_pages (load_current_page E w tab) = total_pages tab
  ∧ page_label (load_current_page E w tab) = page_label tab
  ∧ prev_enabled (load_current_page E w tab) = prev_enabled tab
  ∧ next_enabled (load_current_page E w tab) = next_enabled tab.
Proof.
  unfold load_current_page. destruct (current_row w tab) as [[cols row]|]; [|done].
  by destruct (_ && _).
Qed.

Lemma update_page_display_pages E w tab :
  let shown := update_page_display E w tab in
  current_page shown = current_page (refresh_page_data w tab)
  ∧ total_pages shown = total_pages (refresh_page_data w tab)
  ∧ page_label shown
    = str "Page " ++ dec (current_page shown + 1) ++ str " / "
      ++ dec (total_pages shown)
  ∧ prev_enabled shown = (0 <? current_page shown)
  ∧ next_enabled shown = (current_page shown + 1 <? total_pages shown).
Proof.
  cbv zeta. unfold update_page_display.
  set (tab1 := refresh_page_data w tab).
  set (tab2 := set_navigation tab1 _ _ _).
  destruct (load_current_page_pages E w tab2) as (-> & -> & -> & -> & ->).
  subst tab2. simpl. split_and!; try done.
  destruct (current_page tab1 + 1 <? total_pages tab1) eqn:H.
  - apply Nat.ltb_lt in H. apply Z.ltb_lt. lia.
  - apply Nat.ltb_ge in H. apply Z.ltb_ge. lia.
Qed.

Lemma refresh_page_data_pages w tab :
  match store w with
  | Some df =>
      if df_empty df then
        current_page (refresh_page_data w tab) = 0
        ∧ total_pages (refresh_page_data w tab) = 0
      else
        current_page (refresh_page_data w tab)
        = min (current_page tab) (df_len df - 1)
        ∧ total_pages (refresh_page_data w tab) = df_len df
        ∧ 0 < df_len df
  | None =>
      current_page (refresh_page_data w tab) = 0
      ∧ total_pages (refresh_page_data w tab) = 0
  end.
Proof.
  unfold refresh_page_data. destruct (store w) as [df|]; [|done].
  destruct (df_empty df) eqn:He; [done|]. simpl.
  unfold df_empty in He. apply orb_false_iff in He as [He _].
  apply Nat.eqb_neq in He. unfold clamp, df_len. lia.
Qed.

(** Where a move ends: the page asked for, brought back into the frame. *)
Lemma navigate_pages_current E w direction tab df :
  store w = Some df → df_empty df = false →
  current_page (navigate_pages E w direction tab)
  = clamp (Z.of_nat (min (current_page tab) (df_len df - 1)) + direction)
      (df_len df)
  ∧ total_pages (navigate_pages E w direction tab) = df_len df
  ∧ 0 < df_len df.
Proof.
  intros Hdf Hne. unfold navigate_pages.
  pose proof (refresh_page_data_pages w tab) as H1. rewrite Hdf, Hne in H1.
  destruct H1 as (Hcp & Htot & Hpos).
  set (tab1 := refresh_page_data w tab) in *.
  rewrite Htot. rewrite (proj2 (Nat.ltb_lt 0 (df_len df))) by done.
  set (tab2 := set_pages tab1 _ _).
  destruct (update_page_display_pages E w tab2) as (-> & -> & _).
  pose proof (refresh_page_data_pages w tab2) as H2. rewrite Hdf, Hne in H2.
  destruct H2 as (-> & -> & _). subst tab2. simpl. rewrite Hcp.
  split; [|done]. unfold clamp. lia.
Qed.

(** X6: whatever the tab held and whichever way it is asked to move, after
    [navigate_pages] the page counter of the tab is the length of the store
    and the current page is a page of the store; with no store, or an
    empty one, both are 0.  The label shows the page counted from 1, the
    buttons back are enabled exactly when there is a page before, the
    buttons forward exactly when there is a page after. *)
Theorem navigate_pages_in_bounds E w direction tab :
  let shown := navigate_pages E w direction tab in
  match store w with
  | Some df =>
      if df_empty df then current_page shown = 0 ∧ total_pages shown = 0
      else total_pages shown = df_len df ∧ current_page shown < df_len df
  | None => current_page shown = 0 ∧ total_pages shown = 0
  end
  ∧ page_label shown
    = str "Page " ++ dec (current_page shown + 1) ++ str " / "
      ++ dec (total_pages shown)
  ∧ prev_enabled shown = (0 <? current_page shown)
  ∧ next_enabled shown = (current_page shown + 1 <? total_pages shown).
Proof.
  cbv zeta. split.
  - destruct (store w) as [df|] eqn:Hdf.
    + destruct (df_empty df) eqn:Hne.
      * unfold navigate_pages.
        pose proof (refresh_page_data_pages w tab) as H1. rewrite Hdf, Hne in H1.
        destruct H1 as [Hcp Htot]. rewrite Htot. simpl.
        destruct (update_page_display_pages E w (refresh_page_data w tab))
          as (-> & -> & _).
        pose proof (refresh_page_data_pages w (refresh_page_data w tab)) as H2.
        by rewrite Hdf, Hne in H2.
      * destruct (navigate_pages_current E w direction tab df Hdf Hne)
          as (-> & -> & Hpos).
        split; [done|]. unfold clamp. lia.
    + unfold navigate_pages.
      pose proof (refresh_page_data_pages w tab) as H1. rewrite Hdf in H1.
      destruct H1 as [Hcp Htot]. rewrite Htot. simpl.
      destruct (update_page_display_pages E w (refresh_page_data w tab))
        as (-> & -> & _).
      pose proof (refresh_page_data_pages w (refresh_page_data w tab)) as H2.
      by rewrite Hdf in H2.
  - unfold navigate_pages.
    by destruct (update_page_display_pages E w
      (let tab0 := refresh_page_data w tab in
       if 0 <? total_pages tab0
       then set_pages tab0
              (clamp (Z.of_nat (current_page tab0) + direction) (total_pages tab0))
              (total_pages tab0)
       else tab0)) as (_ & _ & ? & ? & ?).
Qed.

(** X7: a move that stays inside the store is undone by the opposite move:
    from a page of the store, going [direction] pages and then as many
    back shows the page one started from.  A move that would leave the
    store stops at its first or its last page. *)
Theorem navigate_pages_back E w direction tab df :
  store w = Some df → df_empty df = false →
  current_page tab < df_len df →
  let there := navigate_pages E w direction tab in
  let target := (Z.of_nat (current_page tab) + direction)%Z in
  ((0 ≤ target < Z.of_nat (df_len df))%Z →
     Z.of_nat (current_page there) = target
     ∧ current_page (navigate_pages E w (- direction) there) = current_page tab)
  ∧ ((target < 0)%Z → current_page there = 0)
  ∧ ((Z.of_nat (df_len df) ≤ target)%Z → current_page there = df_len df - 1).
Proof.
  intros Hdf Hne Hcp. cbv zeta.
  destruct (navigate_pages_current E w direction tab df Hdf Hne) as (Hthere & _ & _).
  split_and!.
  - intros Hin.
    destruct (navigate_pages_current E w (- direction)
                (navigate_pages E w direction tab) df Hdf Hne) as (-> & _ & _).
    rewrite Hthere. unfold clamp. lia.
  - intros Hin. rewrite Hthere. unfold clamp. lia.
  - intros Hin. rewrite Hthere. unfold clamp. lia.
Qed.

Lemma navigate_pages_back_witness :
  current_page
    (navigate_pages Scenario.E0 Scenario.w0 (- (1))
       (navigate_pages Scenario.E0 Scenario.w0 1 More.first_page)) = 0
  ∧ current_page (navigate_pages Scenario.E0 Scenario.w0 10 More.first_page) = 1.
Proof.
  destruct (navigate_pages_back Scenario.E0 Scenario.w0 1 More.first_page
              Scenario.two_page_frame) as (H1 & _ & _).
  - reflexivity.
  - reflexivity.
  - cbn. lia.
  - destruct (navigate_pages_back Scenario.E0 Scenario.w0 10 More.first_page
                Scenario.two_page_frame) as (_ & _ & H3).
    + reflexivity.
    + reflexivity.
    + cbn. lia.
    + split.
      * apply H1. cbn. lia.
      * apply H3. cbn. lia.
Defined.

End ReviewFacts.

(** ** What a job writes to its frame *)
Section FrameFacts.
Import PyStr Spec ArchiveStudio More.

Lemma loc_set_frame df j c v :
  j < length (rows df) →
  length (rows (loc_set df j c v)) = length (rows df)
  ∧ (∀ i col, cell_at (loc_set df j c v) i col
       = if bool_decide (i = j ∧ col = c) then Some v else cell_at df i col)
  ∧ (∀ i, i ≠ j → rows (loc_set df j c v) !! i = rows df !! i)
  ∧ (∀ x, x ∈ columns (loc_set df j c v) ↔ x ∈ columns df ∨ x = c).
Proof.
  intros Hj. pose proof Hj as Hlt. apply lookup_lt_is_Some in Hj as [r Hr].
  rewrite (loc_set_rows _ _ c v _ Hr). split_and!.
  - by rewrite length_insert.
  - intros i col. unfold cell_at. rewrite (loc_set_rows _ _ c v _ Hr).
    destruct (decide (i = j)) as [->|Hne].
    + rewrite list_lookup_insert_eq, Hr by done. simpl.
      case_bool_decide as Hc.
      * destruct Hc as [_ ->]. by rewrite lookup_insert_eq.
      * rewrite lookup_insert_ne; [done|]. intros ->. by apply Hc.
    + rewrite list_lookup_insert_ne by done.
      rewrite bool_decide_eq_false_2; [done|]. by intros [? _].
  - intros i Hne. by rewrite list_lookup_insert_ne.
  - intros x. unfold loc_set. rewrite Hr. simpl. case_bool_decide as Hc.
    + split; [by left|]. by intros [?| ->].
    + rewrite elem_of_app, list_elem_of_singleton. done.
Qed.

(** The two writes of a task: the text into its column, and the toggle. *)
Lemma two_writes_frame df j c v v' :
  j < length (rows df) →
  let df' := loc_set (loc_set df j c v) j "Text_Toggle" v' in
  length (rows df') = length (rows df)
  ∧ (∀ i col, col ≠ c → col ≠ "Text_Toggle"%string →
       cell_at df' i col = cell_at df i col)
  ∧ (∀ i, i ≠ j → rows df' !! i = rows df !! i)
  ∧ (∀ x, x ∈ columns df' ↔ x ∈ columns df ∨ x = c ∨ x = "Text_Toggle"%string)
  ∧ (c ≠ "Text_Toggle"%string → cell_at df' j c = Some v)
  ∧ cell_at df' j "Text_Toggle" = Some v'.
Proof.
  intros Hj. cbv zeta.
  destruct (loc_set_frame df j c v Hj) as (Hlen1 & Hcell1 & Hrow1 & Hcol1).
  destruct (loc_set_frame (loc_set df j c v) j "Text_Toggle" v')
    as (Hlen2 & Hcell2 & Hrow2 & Hcol2); [by rewrite Hlen1|].
  split_and!.
  - by rewrite Hlen2.
  - intros i col H1 H2. rewrite Hcell2, Hcell1.
    rewrite !bool_decide_eq_false_2; [done| |]; by intros [_ ?].
  - intros i Hne. by rewrite Hrow2, Hrow1.
  - intros x. rewrite Hcol2, Hcol1. tauto.
  - intros Hc. rewrite Hcell2, Hcell1.
    rewrite bool_decide_eq_false_2 by (by intros [_ ?]).
    by rewrite bool_decide_eq_true_2.
  - rewrite Hcell2. by rewrite bool_decide_eq_true_2.
Qed.

(** What holds of the frame before the tasks and is kept by each task's
    writes holds after them. *)
Lemma run_tasks_invariant (Q : DataFrame → Prop) task sub df :
  Q df →
  (∀ df' i result,
     Q df' → i ∈ sub → task i = Some result → Q (htr_store df' i result)) →
  Q (run_tasks task sub df).
Proof.
  revert df. induction sub as [|j sub IH]; intros df HQ Hstep; [done|].
  rewrite run_tasks_cons. apply IH.
  - destruct (task j) eqn:Hj; [|done]. apply Hstep; [done|by left|done].
  - intros df' i result HQ' Hi. apply Hstep; [done|by right].
Qed.


Lemma written_only_refl col df : written_only col df df.
Proof. unfold written_only. split_and!; auto. Qed.

Lemma written_only_step col df df' j v v' :
  written_only col df df' → j < df_len df →
  written_only col df (loc_set (loc_set df' j col v) j "Text_Toggle" v').
Proof.
  intros (Hlen & Hin & Hout & Hcell) Hj.
  destruct (two_writes_frame df' j col v v') as (Hlen' & Hcell' & _ & Hcol' & _).
  { unfold df_len in *. lia. }
  unfold written_only, df_len in *. split_and!.
  - by rewrite Hlen'.
  - intros x Hx. apply Hcol'. left. by apply Hin.
  - intros x Hx. apply Hcol' in Hx as [Hx|Hx]; [by apply Hout|by right].
  - intros i c H1 H2. by rewrite Hcell', Hcell.
Qed.

Lemma run_tasks_column task sub df j result :
  Forall (λ i, i < length (rows df)) sub →
  task j = Some result → j ∈ sub →
  "Original_Text"%string ∈ columns (run_tasks task sub df).
Proof.
  intros Hsub Hj. revert df Hsub. induction sub as [|i sub IH]; intros df Hsub Hin.
  - by apply elem_of_nil in Hin.
  - apply Forall_cons in Hsub as [Hi Hsub]. rewrite run_tasks_cons.
    destruct (decide (i = j)) as [->|Hne].
    + rewrite Hj.
      apply (run_tasks_invariant
        (λ df', "Original_Text"%string ∈ columns df'
                ∧ length (rows df') = length (rows df))).
      * destruct (two_writes_frame df j "Original_Text" (CStr result)
          (CStr (str "Original_Text")) Hi) as (Hl & _ & _ & Hc & _).
        unfold htr_store. split; [|done]. apply Hc. right. by left.
      * intros df' k res [Hc Hl] Hk _.
        rewrite Forall_forall in Hsub. specialize (Hsub k Hk).
        destruct (two_writes_frame df' k "Original_Text" (CStr res)
          (CStr (str "Original_Text"))) as (Hl' & _ & _ & Hc' & _); [lia|].
        unfold htr_store. split; [|lia]. apply Hc'. by left.
    + apply elem_of_cons in Hin as [?|Hin]; [congruence|].
      destruct (task i) as [res|]; [|by apply IH].
      destruct (two_writes_frame df i "Original_Text" (CStr res)
        (CStr (str "Original_Text")) Hi) as (Hl & _).
      apply IH; [|done]. unfold htr_store. by rewrite Hl.
Qed.

(** What a frame written to in [col0] still reads as before: every column
    it had, and every column but [col0] and the toggle. *)
Lemma written_only_reads col0 df df' (row : gmap string cell) col :
  written_only col0 df df' →
  col ∈ columns df ∨ col ≠ col0 ∧ col ≠ "Text_Toggle"%string →
  reads_as_before df df' row col.
Proof.
  intros (_ & Hin & Hout & _) Hcol dflt. unfold series_get.
  destruct (decide (col ∈ columns df)) as [Hc|Hc].
  - by rewrite !bool_decide_eq_true_2 by auto.
  - destruct Hcol as [?|[H1 H2]]; [done|].
    rewrite !bool_decide_eq_false_2; [done|done|].
    intros Hc'. by destruct (Hout _ Hc') as [?|[?|?]].
Qed.

(** A cell that a row does not have reads as the default while the frame
    has no such column, and as NaN once the column is there. *)
Lemma new_column_reads_NaN cols cols' (row : gmap string cell) col dflt :
  col ∉ cols → col ∈ cols' → row !! col = None →
  series_get cols row col dflt = dflt ∧ series_get cols' row col dflt = CNaN.
Proof.
  intros H1 H2 Hrow. unfold series_get.
  by rewrite bool_decide_eq_false_2, bool_decide_eq_true_2, Hrow.
Qed.

Lemma pd_concat_columns a b x :
  x ∈ columns (pd_concat a b) ↔ x ∈ columns a ∨ x ∈ columns b.
Proof.
  unfold pd_concat. simpl. rewrite elem_of_app, list_elem_of_filter.
  destruct (decide (x ∈ columns a)); tauto.
Qed.

Lemma new_row_columns_elem cols x :
  x ∈ new_row_columns cols ↔ x ∈ base_columns ∨ x ∈ cols.
Proof.
  unfold new_row_columns. rewrite elem_of_app, list_elem_of_filter.
  destruct (decide (x ∈ base_columns)); tauto.
Qed.

End FrameFacts.

(** ** A page whose image is missing *)
Section MissingImage.
Import PyStr Spec ArchiveStudio Window More.

(** C5, as the program has it: a page whose image path is empty or leads
    to no file makes its task return [False]; whether the job is cancelled
    or not, nothing is written to the page's row and the job ends with its
    count, not with an error; and a job that is not cancelled reports as
    processed exactly the pages whose task succeeded, which this page is
    not among.  The job writes only to the columns [Original_Text] and
    [Text_Toggle], so the page reads as before in every column the frame
    had, and in all its fields when the frame has these two columns.  For
    the store of three pages with one image missing the report is 2/3 and
    the page's text is still empty. *)
Theorem htr_missing_image_skipped E as_completed self w d df i page_data :
  (∀ l, as_completed l ≡ₚ l) →
  data self = Some d → heap w !! d = Some df → df_empty df = false →
  rows df !! i = Some page_data →
  image_missing E (columns df) page_data = true →
  process_single_page_htr E (window w) (columns df) page_data i = None
  ∧ htr_succeeds E (window w) df i = false
  ∧ (∀ cancel, ∃ df' what n,
       heap (process_htr_all E cancel as_completed self w).1 !! d = Some df'
       ∧ rows df' !! i = Some page_data
       ∧ written_only "Original_Text" df df'
       ∧ (∀ col, col ∈ columns df → reads_as_before df df' page_data col)
       ∧ ("Original_Text"%string ∈ columns df →
          "Text_Toggle"%string ∈ columns df →
          ∀ col, reads_as_before df df' page_data col)
       ∧ last (process_htr_all E cancel as_completed self w).2
         = Some (pages_processed what n (df_len df)))
  ∧ (∃ df',
       store (process_htr_all E None as_completed self w).1 = Some df'
       ∧ rows df' !! i = Some page_data
       ∧ written_only "Original_Text" df df'
       ∧ (∀ col, col ∈ columns df → reads_as_before df df' page_data col)
       ∧ ("Original_Text"%string ∈ columns df →
          "Text_Toggle"%string ∈ columns df →
          ∀ col, reads_as_before df df' page_data col)
       ∧ last (process_htr_all E None as_completed self w).2
         = Some (pages_processed "HTR processing completed: "
             (length (filter (λ j, htr_succeeds E (window w) df j = true)
                        (seq 0 (df_len df))))
             (df_len df)))
  ∧ (let run :=
       process_htr_all Scenario.E0 None reverse Scenario.htr_thread
         Scenario.three_page_world in
     last run.2
       = Some (processing_complete (str "HTR processing completed: 2/3 pages processed"))
     ∧ (store run.1 ≫= λ df', cell_at df' 1 "Original_Text") = Some (CStr [])
     ∧ (store run.1 ≫= λ df',
          (λ r, series_get (columns df') r "Original_Text" (CStr []))
            <$> rows df' !! 1) = Some (CStr [])).
Proof.
  intros Hperm Hd Hdf Hne Hi Hmiss.
  pose proof (image_missing_skipped E (window w) _ _ i Hmiss) as Hskip.
  assert (htr_task E (window w) df i = None) as Htask
    by (unfold htr_task; by rewrite Hi).
  assert (∀ cancel,
    let df' :=
      run_tasks (htr_task E (window w) df)
        (submit_pages cancel 0 (range 0 (df_len df))).1 df in
    rows df' !! i = Some page_data
    ∧ written_only "Original_Text" df df'
    ∧ (∀ col, col ∈ columns df → reads_as_before df df' page_data col)
    ∧ ("Original_Text"%string ∈ columns df →
       "Text_Toggle"%string ∈ columns df →
       ∀ col, reads_as_before df df' page_data col)) as Hrow.
  { intros cancel df'.
    assert (written_only "Original_Text" df df') as Hw.
    { apply (run_tasks_invariant (written_only "Original_Text" df)).
      - apply written_only_refl.
      - intros df1 j result Hdf1 Hj _. apply written_only_step; [done|].
        pose proof (submitted_in_range cancel df) as Hsub.
        rewrite Forall_forall in Hsub. by apply Hsub. }
    split_and!; [|done| |].
    - unfold df'. rewrite run_tasks_untouched;
        [done|apply submitted_in_range|by left].
    - intros col Hcol. eapply written_only_reads; [done|by left].
    - intros H1 H2 col. eapply written_only_reads; [done|].
      destruct (decide (col = "Original_Text"%string)) as [->|?]; [by left|].
      destruct (decide (col = "Text_Toggle"%string)) as [->|?]; [by left|].
      by right. }
  split_and!; [done|by apply bool_decide_eq_false_2; rewrite Htask; intros [??]| | |].
  - intros cancel. destruct (Hrow cancel) as (H1 & H2 & H3 & H4).
    rewrite (process_htr_all_eq E cancel as_completed self w d df)
      by done. cbv zeta.
    destruct (is_cancelled cancel _); simpl; eexists _, _, _; rewrite last_snoc.
    + split_and!; [apply lookup_insert_eq|exact H1|exact H2|exact H3|exact H4|done].
    + split_and!; [|exact H1|exact H2|exact H3|exact H4|done].
      by apply sync_dataframe_store, lookup_insert_eq.
  - destruct (Hrow None) as (H1 & H2 & H3 & H4).
    rewrite submit_pages_never in H1, H2, H3, H4. cbn [fst] in H1, H2, H3, H4.
    rewrite (process_htr_all_eq E None as_completed self w d df) by done.
    cbv zeta. simpl. rewrite submit_pages_never. simpl.
    eexists. rewrite last_snoc. split_and!.
    + by apply sync_dataframe_store, lookup_insert_eq.
    + exact H1.
    + exact H2.
    + exact H3.
    + exact H4.
    + destruct (harvest_reads None (length (range 0 (df_len df))) (df_len df)
        (htr_succeeds E (window w) df) (as_completed (range 0 (df_len df))) 0)
        as [_ Hh].
      destruct (Hh eq_refl) as [_ ->]. simpl.
      assert (as_completed (range 0 (df_len df)) ≡ₚ seq 0 (df_len df)) as ->;
        [|done].
      rewrite (Hperm _). unfold range. by rewrite Nat.sub_0_r.
  - cbv zeta. split_and!; evaluated.
Qed.

Lemma htr_missing_image_skipped_witness :
  let E := Scenario.E0 in
  let w := Scenario.three_page_world in
  let df := Scenario.three_page_frame in
  let page_data := Scenario.page_row 1 "missing.jpg" in
  process_single_page_htr E (window w) (columns df) page_data 1 = None
  ∧ htr_succeeds E (window w) df 1 = false
  ∧ (∃ df',
       store (process_htr_all E None reverse Scenario.htr_thread w).1 = Some df'
       ∧ rows df' !! 1 = Some page_data
       ∧ (∀ col, reads_as_before df df' page_data col)
       ∧ last (process_htr_all E None reverse Scenario.htr_thread w).2
         = Some (pages_processed "HTR processing completed: "
             (length (filter (λ j, htr_succeeds E (window w) df j = true)
                        (seq 0 (df_len df))))
             (df_len df))).
Proof.
  destruct (htr_missing_image_skipped Scenario.E0 reverse Scenario.htr_thread
              Scenario.three_page_world 0 Scenario.three_page_frame 1
              (Scenario.page_row 1 "missing.jpg"))
    as (H1 & H2 & _ & (df' & H3 & H4 & _ & _ & H5 & H6) & _).
  - intros l. apply reverse_Permutation.
  - reflexivity.
  - reflexivity.
  - reflexivity.
  - reflexivity.
  - vm_compute. reflexivity.
  - split; [exact H1|]. split; [exact H2|]. exists df'.
    split; [exact H3|]. split; [exact H4|]. split; [|exact H6].
    apply H5; vm_compute.
    + do 2 apply list_elem_of_further. apply list_elem_of_here.
    + do 9 apply list_elem_of_further. apply list_elem_of_here.
Defined.

(** C5, against the specification: a folder of two images is loaded, which
    gives a frame with no [Original_Text] column, and the second image is
    gone.  The HTR job transcribes the first page and skips the second;
    the write of the first text makes the column, and the second page's
    original text, the empty default before the job, reads NaN after
    it. *)
Lemma htr_missing_image_counterexample :
  let run := process_htr_all E1 None reverse folder_htr_thread folder_world in
  let row := Window.new_row E1 (str "/docs") 1 (str "missing.jpg") in
  heap folder_world !! 1 = Some folder_frame
  ∧ rows folder_frame !! 1 = Some row
  ∧ image_missing E1 (columns folder_frame) row = true
  ∧ Claimed.original_text_at_default folder_frame 1
  ∧ last run.2
    = Some (processing_complete (str "HTR processing completed: 1/2 pages processed"))
  ∧ store run.1 = Some after_htr_frame
  ∧ rows after_htr_frame !! 1 = Some row
  ∧ series_get (columns after_htr_frame) row "Original_Text" (CStr []) = CNaN
  ∧ ¬ Claimed.original_text_at_default after_htr_frame 1.
Proof.
  cbv zeta.
  assert (series_get (columns after_htr_frame)
            (Window.new_row E1 (str "/docs") 1 (str "missing.jpg"))
            "Original_Text" (CStr []) = CNaN) as Hnan by evaluated.
  split_and!; [evaluated|reflexivity|evaluated| |evaluated|evaluated|reflexivity
              |done|].
  - intros page_data [= <-]. evaluated.
  - intros H. specialize (H _ eq_refl). rewrite Hnan in H. discriminate H.
Qed.

End MissingImage.

(** ** More about the processing thread *)
Section ProcessingMore.
Import PyStr Spec ArchiveStudio Window Progress More.





End ProcessingMore.

(** ** The signals of a job *)
Section JobSignals.
Import PyStr Spec ArchiveStudio Window Progress More.

Lemma harvest_signals cancel read total success l n0 sig :
  sig ∈ (harvest cancel read total success l n0).1.2 →
  ∃ current status,
    sig = progress_updated current total status ∧ current ≤ n0 + length l.
Proof.
  revert read n0. induction l as [|i l IH]; intros read n0; simpl.
  - by intros ?%elem_of_nil.
  - destruct (is_cancelled cancel read); simpl; [by intros ?%elem_of_nil|].
    specialize (IH (S read) (if success i then n0 + 1 else n0)).
    destruct (harvest cancel (S read) total success l _) as [[n sigs] read'].
    simpl in *. intros [->|Hin]%elem_of_cons.
    + eexists _, _. split; [done|]. destruct (success i); lia.
    + destruct (IH Hin) as (current & status & -> & Hle).
      eexists _, _. split; [done|]. destruct (success i); lia.
Qed.

Lemma correct_pages_signals E cancel mw total pages st sig :
  sig ∈ c_emitted (correct_pages E cancel mw total pages st).1 →
  sig ∈ c_emitted st
  ∨ ∃ i, i ∈ pages
      ∧ sig = progress_updated (i + 1) total
                (str "Correcting text for page " ++ dec (i + 1)).
Proof.
  revert st. induction pages as [|i pages IH]; intros st; [by left|].
  cbn [correct_pages]. destruct (is_cancelled cancel (c_reads st)); [by left|].
  assert (∀ sig', sig' ∈ c_emitted st ++
            [progress_updated (i + 1) total
               (str "Correcting text for page " ++ dec (i + 1))] →
          sig' ∈ c_emitted st
          ∨ ∃ j, j ∈ i :: pages
              ∧ sig' = progress_updated (j + 1) total
                         (str "Correcting text for page " ++ dec (j + 1)))
    as Hnow.
  { intros sig' [?|Hs]%elem_of_app; [by left|]. right.
    apply list_elem_of_singleton in Hs. exists i. split; [by left|done]. }
  destruct (series_get _ _ _ _) as [text| |]; [|by apply Hnow|by apply Hnow].
  intros Hin. apply IH in Hin as [Hin|(j & Hj & ->)].
  - apply Hnow.
    destruct (nonblank text); [|done].
    by destruct (process_single_page_correction _ _ _ _ _).
  - right. exists j. split; [by right|done].
Qed.

Lemma simulate_eq cancel read total label items :
  let k :=
    match cancel with
    | Some t => min (t - read) (length items)
    | None => length items
    end in
  simulate cancel read total label items
  = ((λ i, progress_updated (i + 1) total (str label ++ dec (i + 1)))
       <$> take k items,
     if k <? length items then read + k + 1 else read + k).
Proof.
  cbv zeta. revert read. induction items as [|i items IH]; intros read.
  - simpl. destruct cancel as [t|]; simpl.
    + rewrite Nat.min_0_r. simpl. f_equal. lia.
    + f_equal. lia.
  - cbn [simulate]. destruct cancel as [t|]; cbn [is_cancelled].
    + destruct (t <=? read) eqn:Ht.
      * apply Nat.leb_le in Ht. replace (t - read) with 0 by lia. simpl.
        f_equal. lia.
      * apply Nat.leb_gt in Ht. rewrite IH. cbn [length].
        replace (min (t - read) (S (length items)))
          with (S (min (t - S read) (length items))) by lia.
        cbn [take fmap list_fmap]. f_equal.
        change (S ?a <? S ?b) with (a <? b).
        destruct (_ <? _); lia.
    + rewrite IH. cbn [length take fmap list_fmap]. f_equal.
      rewrite !Nat.ltb_irrefl. lia.
Qed.

Lemma process_simulated_eq cancel total label done :
  process_simulated cancel total label done
  = progress_steps label total (steps_before cancel total)
    ++ (if is_cancelled cancel total then []
        else [processing_complete (str done)]).
Proof.
  unfold process_simulated, progress_steps, steps_before, range.
  rewrite simulate_eq. cbv zeta. rewrite length_seq, Nat.sub_0_r.
  destruct cancel as [t|]; cbn [is_cancelled].
  - rewrite Nat.sub_0_r, take_seq.
    replace (min (min t total) total) with (min t total) by lia.
    destruct (min t total <? total) eqn:Hlt.
    + apply Nat.ltb_lt in Hlt.
      rewrite (proj2 (Nat.leb_le t (0 + min t total + 1))) by lia.
      rewrite (proj2 (Nat.leb_le t total)) by lia. simpl.
      by rewrite app_nil_r.
    + apply Nat.ltb_ge in Hlt. replace (min t total) with total by lia.
      change (0 + total) with total.
      destruct (t <=? total); simpl; by rewrite ?app_nil_r.
  - simpl. by rewrite take_seq, Nat.min_id.
Qed.

(** X10: the signals of a translation job and of a metadata job, to the
    last: one progress signal for each step before the flag is seen set,
    counted from 1, and then the completion signal if the flag was still
    unset after the last step.  A job that is cancelled ends with no
    completion signal and no error signal at all, and neither job touches
    the world. *)
Theorem simulated_jobs_signals E cancel as_completed self w :
  process_translation cancel
  = progress_steps "Translating segment " 8 (steps_before cancel 8)
    ++ (if is_cancelled cancel 8 then []
        else [processing_complete (str "Translation completed")])
  ∧ process_metadata_extraction cancel
    = progress_steps "Extracting metadata from page " 15 (steps_before cancel 15)
      ++ (if is_cancelled cancel 15 then []
          else [processing_complete (str "Metadata extraction completed")])
  ∧ (operation_type self = translate ∨ operation_type self = extract_metadata →
     (AIProcessingThread_run E cancel as_completed self w).1 = w).
Proof.
  split_and!; [apply process_simulated_eq|apply process_simulated_eq|].
  unfold AIProcessingThread_run. by intros [->| ->].
Qed.

Lemma submit_pages_NoDup cancel read l :
  NoDup l → NoDup (submit_pages cancel read l).1.
Proof.
  revert read. induction l as [|i l IH]; intros read Hl; simpl; [constructor|].
  destruct (is_cancelled cancel read); simpl; [constructor|].
  apply NoDup_cons in Hl as [Hi Hl].
  pose proof (submit_pages_in_range cancel (S read) l) as Hsub.
  specialize (IH (S read) Hl).
  destruct (submit_pages cancel (S read) l) as [sub' r']. simpl in *.
  apply NoDup_cons. split; [|done]. intros Hin. apply Hi. by apply Hsub.
Qed.

Lemma progress_steps_signals label total n sig :
  n ≤ total → sig ∈ progress_steps label total n →
  ∃ current status,
    sig = progress_updated current total status ∧ 0 < total ∧ current ≤ total.
Proof.
  intros Hn Hin. unfold progress_steps in Hin.
  apply list_elem_of_fmap in Hin as (i & -> & Hi). apply elem_of_seq in Hi.
  eexists _, _. split; [done|]. lia.
Qed.

Lemma process_simulated_signals cancel total label done current total' status :
  progress_updated current total' status
    ∈ process_simulated cancel total label done →
  0 < total' ∧ current ≤ total'.
Proof.
  rewrite process_simulated_eq. intros [Hin|Hin]%elem_of_app.
  - apply progress_steps_signals in Hin as (c & s & [= -> -> ->] & ? & ?); [done|].
    unfold steps_before. destruct cancel; lia.
  - destruct (is_cancelled cancel total); [by apply elem_of_nil in Hin|].
    by apply list_elem_of_singleton in Hin.
Qed.

(** X11: every progress signal of a job, whatever its kind, the flag and
    the order of completion, counts at most the total it carries, and that
    total is at least 1.  So the slot [on_progress_updated] always gets
    past its division and returns; the unbound [progress_percent] it would
    read for a total of 0 is never reached from a job. *)
Theorem progress_signals_in_range E cancel as_completed self w current total
    status :
  (∀ l, as_completed l ≡ₚ l) →
  progress_updated current total status
    ∈ (AIProcessingThread_run E cancel as_completed self w).2 →
  0 < total ∧ current ≤ total
  ∧ ∀ percent v, ∃ v', on_progress_updated percent current total status v
                       = Returned v'.
Proof.
  intros Hperm Hin.
  cut (0 < total ∧ current ≤ total).
  { intros [Hpos Hle]. split_and!; [done|done|]. intros percent v.
    unfold on_progress_updated. rewrite (proj2 (Nat.ltb_lt 0 total)) by done.
    by eexists. }
  unfold AIProcessingThread_run in Hin.
  destruct (operation_type self).
  - unfold process_htr_all in Hin.
    destruct (data self) as [d|];
      [|by apply list_elem_of_singleton in Hin].
    destruct (heap w !! d) as [df|];
      [|by apply list_elem_of_singleton in Hin].
    destruct (df_empty df) eqn:Hne;
      [by apply list_elem_of_singleton in Hin|].
    pose proof (submit_pages_in_range cancel 0 (range 0 (df_len df))) as Hsub.
    pose proof (submitted_in_range cancel df) as Hrange.
    destruct (submit_pages cancel 0 (range 0 (df_len df))) as [sub read1] eqn:Hs.
    simpl in Hsub, Hrange.
    pose proof (harvest_signals cancel read1 (df_len df)
      (λ i, bool_decide (is_Some (htr_task E (window w) df i)))
      (as_completed sub) 0 (progress_updated current total status)) as Hh.
    destruct (harvest _ _ _ _ _ _) as [[n sigs] read2]. simpl in Hh.
    assert (progress_updated current total status ∈ sigs) as Hsig.
    { destruct (negb _); simpl in Hin;
        apply elem_of_app in Hin as [?|Hin]; try done;
        by apply list_elem_of_singleton in Hin. }
    destruct (Hh Hsig) as (c & s & [= -> -> ->] & Hle).
    rewrite (Permutation_length (Hperm sub)) in Hle.
    assert (length sub ≤ df_len df) as Hlen.
    { assert (NoDup sub) as Hnd.
      { pose proof (submit_pages_NoDup cancel 0 (range 0 (df_len df))
                      (NoDup_seq _ _)) as Hnd.
        by rewrite Hs in Hnd. }
      assert (length sub ≤ length (range 0 (df_len df))) as Hlen'
        by (by apply submseteq_length, NoDup_submseteq).
      unfold range in Hlen'. rewrite length_seq in Hlen'. lia. }
    unfold df_empty in Hne. apply orb_false_iff in Hne as [Hne _].
    apply Nat.eqb_neq in Hne. unfold df_len in *. lia.
  - unfold process_text_correction in Hin.
    destruct (data self) as [d|];
      [|by apply list_elem_of_singleton in Hin].
    destruct (heap w !! d) as [df|];
      [|by apply list_elem_of_singleton in Hin].
    destruct (df_empty df) eqn:Hne;
      [by apply list_elem_of_singleton in Hin|].
    pose proof (correct_pages_signals E cancel (window w) (df_len df)
      (range 0 (df_len df))
      {| c_reads := 0; c_df := df; c_processed := 0; c_emitted := [] |}
      (progress_updated current total status)) as Hc.
    destruct (correct_pages _ _ _ _ _ _) as [st raised]. simpl in Hc.
    assert (progress_updated current total status ∈ c_emitted st) as Hsig.
    { destruct raised; [|destruct (negb _)]; simpl in Hin;
        apply elem_of_app in Hin as [?|Hin]; try done;
        by apply list_elem_of_singleton in Hin. }
    destruct (Hc Hsig) as [Hnil|(i & Hi & [= -> -> ->])];
      [by apply elem_of_nil in Hnil|].
    unfold range in Hi. apply elem_of_seq in Hi. lia.
  - simpl in Hin. by apply process_simulated_signals in Hin.
  - simpl in Hin. by apply process_simulated_signals in Hin.
Qed.

Lemma progress_signals_in_range_witness :
  0 < 3 ∧ 1 ≤ 3
  ∧ ∀ percent v, ∃ v', on_progress_updated percent 1 3
                         (str "Completed page 3") v = Returned v'.
Proof.
  apply (progress_signals_in_range Scenario.E0 None reverse Scenario.htr_thread
           Scenario.three_page_world 1 3 (str "Completed page 3")).
  - intros l. apply reverse_Permutation.
  - apply (bool_decide_eq_true_1 _). vm_compute. reflexivity.
Defined.

End JobSignals.

(** ** Handing the frame back, and jobs that stop early *)
Section HandBack.
Import PyStr Spec ArchiveStudio More.

(** X12: the hand-back gives the window a copy of the job's frame, a new
    object, and [data_operations], when the window has one, another copy of
    its own.  Every object that was there is left as it was, the job's
    frame too, and what is written to the job's frame afterwards does not
    show in the store. *)
Theorem sync_dataframe_makes_copies d w df :
  heap w !! d = Some df → d < next_ref w →
  let w' := sync_dataframe_to_main_window d w in
  store w' = Some df
  ∧ main_df (window w') = Some (next_ref w)
  ∧ main_df (window w') ≠ Some d
  ∧ (∀ r, r < next_ref w → heap w' !! r = heap w !! r)
  ∧ match data_operations (window w) with
    | Some _ =>
        data_operations (window w') = Some (Some (S (next_ref w)))
        ∧ heap w' !! S (next_ref w) = Some df
        ∧ next_ref w' = S (S (next_ref w))
    | None =>
        data_operations (window w') = None ∧ next_ref w' = S (next_ref w)
    end
  ∧ (∀ df2, store (set_heap w' (<[d := df2]> (heap w'))) = Some df)
  ∧ page_counter (window w') = page_counter (window w)
  ∧ settings (window w') = settings (window w)
  ∧ images_directory (window w') = images_directory (window w).
Proof.
  intros Hd Hlt. cbv zeta. unfold sync_dataframe_to_main_window, store.
  rewrite Hd. simpl. destruct (data_operations (window w)) as [ops|]; simpl.
  - rewrite !lookup_insert_ne by lia. rewrite !lookup_insert_eq.
    split_and!; try done.
    + intros [= H]. lia.
    + intros r Hr. by rewrite !lookup_insert_ne by lia.
    + intros df2. rewrite !lookup_insert_ne by lia. by rewrite lookup_insert_eq.
  - rewrite lookup_insert_eq.
    split_and!; try done.
    + intros [= H]. lia.
    + intros r Hr. by rewrite !lookup_insert_ne by lia.
    + intros df2. rewrite !lookup_insert_ne by lia. by rewrite lookup_insert_eq.
Qed.

Lemma sync_dataframe_makes_copies_witness :
  let w' := sync_dataframe_to_main_window 0 Scenario.w0 in
  store w' = Some Scenario.two_page_frame
  ∧ main_df (window w') = Some 1
  ∧ data_operations (window w') = Some (Some 2).
Proof.
  destruct (sync_dataframe_makes_copies 0 Scenario.w0 Scenario.two_page_frame)
    as (H1 & H2 & _ & _ & H3 & _).
  - reflexivity.
  - vm_compute. lia.
  - destruct H3 as [H3 _]. by split_and!.
Defined.

Lemma submit_pages_cancelled t read a n :
  read ≤ t → t < read + n →
  submit_pages (Some t) read (seq a n) = (seq a (t - read), t + 1).
Proof.
  revert read a. induction n as [|n IH]; intros read a Hle Hlt; [lia|].
  cbn [seq submit_pages is_cancelled]. destruct (t <=? read) eqn:Ht.
  - apply Nat.leb_le in Ht. replace (t - read) with 0 by lia. simpl.
    f_equal. lia.
  - apply Nat.leb_gt in Ht. rewrite IH by lia.
    replace (t - read) with (S (t - S read)) by lia. done.
Qed.

Lemma harvest_cancelled t read total success l n0 :
  t ≤ read →
  (harvest (Some t) read total success l n0).1 = (n0, [])
  ∧ t ≤ (harvest (Some t) read total success l n0).2.
Proof.
  intros Ht. destruct l as [|i l]; simpl; [done|].
  rewrite (proj2 (Nat.leb_le t read)) by done. simpl. split; [done|lia].
Qed.

(** X13: an HTR job whose flag is set while the pages are being submitted,
    before page [t], has submitted the pages before [t] and no other.
    Their tasks run to the end and write their texts to the job's frame.
    The rows from [t] on are not written to: each has the cells it had,
    and reads as before in every column the frame had.  When the frame had
    no [Original_Text] column and a page before [t] succeeded, the column
    is new, and a row from [t] on then reads NaN there instead of the
    empty default.  The job reads no result: its only signal is the
    cancellation, and that reports 0 pages processed whatever the tasks
    have written.  The window is not touched. *)
Theorem htr_cancelled_while_submitting E t as_completed self w d df :
  data self = Some d → heap w !! d = Some df → df_empty df = false →
  t < df_len df →
  let df' := run_tasks (htr_task E (window w) df) (seq 0 t) df in
  process_htr_all E (Some t) as_completed self w
  = (set_heap w (<[d := df']> (heap w)),
     [pages_processed "HTR processing cancelled: " 0 (df_len df)])
  ∧ (∀ i, t ≤ i → rows df' !! i = rows df !! i)
  ∧ (∀ i result, i < t → htr_task E (window w) df i = Some result →
       cell_at df' i "Original_Text" = Some (CStr result))
  ∧ (∀ i, htr_task E (window w) df i = None → rows df' !! i = rows df !! i)
  ∧ written_only "Original_Text" df df'
  ∧ (∀ i row col,
       t ≤ i → rows df !! i = Some row →
       col ∈ columns df
       ∨ col ≠ "Original_Text"%string ∧ col ≠ "Text_Toggle"%string →
       reads_as_before df df' row col)
  ∧ (∀ j result i row,
       "Original_Text"%string ∉ columns df →
       j < t → htr_task E (window w) df j = Some result →
       t ≤ i → rows df !! i = Some row → row !! "Original_Text"%string = None →
       series_get (columns df) row "Original_Text" (CStr []) = CStr []
       ∧ series_get (columns df') row "Original_Text" (CStr []) = CNaN).
Proof.
  intros Hd Hdf Hne Ht. cbv zeta.
  assert (Forall (λ j, j < length (rows df)) (seq 0 t)) as Hrange.
  { apply Forall_forall. intros j Hj. apply elem_of_seq in Hj.
    unfold df_len in Ht. lia. }
  assert (written_only "Original_Text" df
            (run_tasks (htr_task E (window w) df) (seq 0 t) df)) as Hw.
  { apply (run_tasks_invariant (written_only "Original_Text" df)).
    - apply written_only_refl.
    - intros df' i result Hdf' Hi _. apply written_only_step; [done|].
      apply elem_of_seq in Hi. lia. }
  split_and!.
  - rewrite (process_htr_all_eq E (Some t) as_completed self w d df Hd Hdf Hne).
    cbv zeta. unfold range.
    rewrite Nat.sub_0_r, (submit_pages_cancelled t 0 0 (df_len df)) by lia.
    rewrite Nat.sub_0_r. cbn [fst snd].
    destruct (harvest_cancelled t (t + 1) (df_len df)
      (htr_succeeds E (window w) df) (as_completed (seq 0 t)) 0) as [Hh Hr];
      [lia|].
    destruct (harvest _ _ _ _ _ _) as [[n sigs] read2]. simpl in Hh, Hr.
    injection Hh as -> ->. cbn [is_cancelled fst snd].
    by rewrite (proj2 (Nat.leb_le t read2)) by done.
  - intros i Hi. apply run_tasks_untouched; [done|]. right.
    intros Hin. apply elem_of_seq in Hin. lia.
  - intros i result Hi Htask. apply run_tasks_written; [done|done|]. right.
    apply elem_of_seq. lia.
  - intros i Hnone. apply run_tasks_untouched; [done|by left].
  - done.
  - intros i row col _ _ Hcol. by eapply written_only_reads.
  - intros j result i row Hcol Hj Htask _ _ Hrow.
    apply new_column_reads_NaN; [done| |done].
    apply (run_tasks_column _ _ _ j result); [done|done|].
    apply elem_of_seq. lia.
Qed.

Lemma htr_cancelled_while_submitting_witness :
  let df' :=
    run_tasks (htr_task Scenario.E0 (window Scenario.three_page_world)
                 Scenario.three_page_frame) (seq 0 1) Scenario.three_page_frame in
  process_htr_all Scenario.E0 (Some 1) reverse Scenario.htr_thread
    Scenario.three_page_world
  = (set_heap Scenario.three_page_world
       (<[0 := df']> (heap Scenario.three_page_world)),
     [pages_processed "HTR processing cancelled: " 0 3])
  ∧ cell_at df' 0 "Original_Text" = Some (CStr (str "transcribed"))
  ∧ cell_at df' 2 "Original_Text" = Some (CStr [])
  ∧ reads_as_before Scenario.three_page_frame df'
      (Scenario.page_row 2 "images/0003_p003.jpg") "Original_Text".
Proof.
  destruct (htr_cancelled_while_submitting Scenario.E0 1 reverse
              Scenario.htr_thread Scenario.three_page_world 0
              Scenario.three_page_frame) as (H1 & H2 & H3 & _ & _ & H6 & _).
  - reflexivity.
  - reflexivity.
  - reflexivity.
  - vm_compute. lia.
  - split_and!.
    + exact H1.
    + apply H3; [lia|]. vm_compute. reflexivity.
    + unfold cell_at. rewrite H2 by lia. vm_compute. reflexivity.
    + apply (H6 2); [lia|reflexivity|]. left. vm_compute.
      do 2 apply list_elem_of_further. apply list_elem_of_here.
Defined.

(** The same job over the folder of two images, which has no
    [Original_Text] column: the first page is transcribed, and the second,
    not submitted, then reads NaN for its original text. *)
Example htr_cancelled_folder :
  let run := process_htr_all E1 (Some 1) reverse folder_htr_thread folder_world in
  let row := Window.new_row E1 (str "/docs") 1 (str "missing.jpg") in
  heap folder_world !! 1 = Some folder_frame
  ∧ series_get (columns folder_frame) row "Original_Text" (CStr []) = CStr []
  ∧ (heap run.1 !! 1 ≫= λ df', rows df' !! 1) = Some row
  ∧ (heap run.1 !! 1 ≫= λ df',
       (λ r, series_get (columns df') r "Original_Text" (CStr [])) <$> rows df' !! 1)
    = Some CNaN.
Proof. cbv zeta. split_and!; evaluated. Qed.

End HandBack.

(** ** A text correction over a frame with a missing text *)
Section MissingText.
Import PyStr Spec ArchiveStudio More.

Lemma series_get_more cols cols' (r : gmap string cell) key dflt :
  key ∈ cols → key ∈ cols' → series_get cols' r key dflt = series_get cols r key dflt.
Proof.
  intros H1 H2. unfold series_get. by rewrite !bool_decide_eq_true_2.
Qed.

Lemma series_get_NaN_column cols (r : gmap string cell) key s :
  series_get cols r key (CStr s) = CNaN → key ∈ cols.
Proof. unfold series_get. by case_bool_decide. Qed.

Lemma correct_pages_raises E cancel mw total df k page_data n a st :
  rows df !! k = Some page_data →
  series_get (columns df) page_data "Original_Text" (CStr []) = CNaN →
  (∀ j r, j < k → rows df !! j = Some r →
     ∃ s, series_get (columns df) r "Original_Text" (CStr []) = CStr s) →
  is_cancelled cancel k = false →
  a ≤ k → k < a + n → c_reads st = a →
  length (rows (c_df st)) = length (rows df) →
  (∀ x, x ∈ columns df → x ∈ columns (c_df st)) →
  (∀ i, a ≤ i → rows (c_df st) !! i = rows df !! i) →
  ∃ st',
    correct_pages E cancel mw total (seq a n) st
    = (st', Some (str "'float' object has no attribute 'strip'"))
    ∧ length (c_emitted st') = length (c_emitted st) + (k - a + 1).
Proof.
  intros Hk Hnan Htexts Hc. pose proof (series_get_NaN_column _ _ _ _ Hnan) as Hcol.
  revert a st. induction n as [|n IH]; intros a st Hle Hlt Hreads Hlen Hcols Hrows;
    [lia|].
  cbn [seq correct_pages]. rewrite Hreads.
  rewrite (is_cancelled_before cancel a k) by done.
  rewrite (Hrows a) by lia.
  destruct (decide (a = k)) as [->|Hne].
  - rewrite Hk. cbn [default from_option id].
    rewrite (series_get_more (columns df)) by auto. rewrite Hnan.
    eexists. split; [done|]. cbn. rewrite length_app. cbn. lia.
  - assert (a < length (rows df)) as Ha by (apply lookup_lt_Some in Hk; lia).
    pose proof Ha as Ha'. apply lookup_lt_is_Some in Ha' as [r Hr]. rewrite Hr.
    cbn [default from_option id].
    rewrite (series_get_more (columns df)) by auto.
    destruct (Htexts a r) as [s ->]; [lia|done|].
    set (emitted := c_emitted st ++ _).
    assert (∀ st1,
      c_reads st1 = S a → c_emitted st1 = emitted →
      length (rows (c_df st1)) = length (rows df) →
      (∀ x, x ∈ columns df → x ∈ columns (c_df st1)) →
      (∀ i, S a ≤ i → rows (c_df st1) !! i = rows df !! i) →
      ∃ st',
        correct_pages E cancel mw total (seq (S a) n) st1
        = (st', Some (str "'float' object has no attribute 'strip'"))
        ∧ length (c_emitted st') = length (c_emitted st) + (k - a + 1)) as Hnext.
    { intros st1 H1 H2 H3 H4 H5.
      destruct (IH (S a) st1) as (st' & -> & Hl); [lia|lia|done|done|done|done|].
      exists st'. split; [done|]. rewrite Hl, H2. unfold emitted.
      rewrite length_app. cbn. lia. }
    assert (∀ i, S a ≤ i → rows (c_df st) !! i = rows df !! i) as Hrows'
      by (intros i Hi; apply Hrows; lia).
    destruct (nonblank s); [|by apply Hnext].
    destruct (process_single_page_correction _ _ _ _ _) as [result|];
      [|by apply Hnext].
    destruct (two_writes_frame (c_df st) a "Corrected_Text" (CStr result)
                (CStr (str "Corrected_Text"))) as (Hl' & _ & Hr' & Hc' & _);
      [lia|].
    apply Hnext; cbn [c_reads c_emitted c_df]; unfold correction_store.
    + done.
    + done.
    + by rewrite Hl'.
    + intros x Hx. apply Hc'. left. by apply Hcols.
    + intros i Hi. rewrite Hr' by lia. apply Hrows. lia.
Qed.

Lemma process_text_correction_raises E cancel self w d df k page_data :
  data self = Some d → heap w !! d = Some df →
  rows df !! k = Some page_data →
  series_get (columns df) page_data "Original_Text" (CStr []) = CNaN →
  (∀ j r, j < k → rows df !! j = Some r →
     ∃ s, series_get (columns df) r "Original_Text" (CStr []) = CStr s) →
  is_cancelled cancel k = false →
  let run := process_text_correction E cancel self w in
  ∃ sigs,
    run.2 = sigs ++ [error_occurred
              (str "Text correction failed: 'float' object has no attribute 'strip'")]
    ∧ length sigs = k + 1
    ∧ window run.1 = window w
    ∧ next_ref run.1 = next_ref w
    ∧ (∀ r, r ≠ d → heap run.1 !! r = heap w !! r).
Proof.
  intros Hd Hdf Hk Hnan Htexts Hc. cbv zeta.
  pose proof (series_get_NaN_column _ _ _ _ Hnan) as Hcol.
  assert (df_empty df = false) as Hne.
  { unfold df_empty. apply lookup_lt_Some in Hk.
    apply orb_false_iff. split; apply Nat.eqb_neq; [lia|].
    destruct (columns df); [by apply elem_of_nil in Hcol|done]. }
  unfold process_text_correction. rewrite Hd, Hdf, Hne. cbv zeta.
  set (st0 := {| c_reads := 0; c_df := df; c_processed := 0; c_emitted := [] |}).
  destruct (correct_pages_raises E cancel (window w) (df_len df) df k page_data
              (df_len df) 0 st0) as (st' & Hrun & Hlen); try done.
  { lia. }
  { apply lookup_lt_Some in Hk. unfold df_len. lia. }
  unfold range. rewrite Nat.sub_0_r, Hrun. simpl.
  exists (c_emitted st'). split_and!; try done.
  - rewrite Hlen. simpl. lia.
  - intros r Hr. by rewrite lookup_insert_ne.
Qed.

(** X14: a text correction over a frame in which some page has no
    original text at all (NaN: the cell was never written, as after an HTR
    task that failed on a frame that had no such column) stops at the
    first such page that it reaches with the flag unset.  It ends with the
    error about ['float'], after one progress signal for each page up to
    that one; the window gets nothing back, although the pages before may
    have been corrected in the job's frame. *)
Theorem correction_fails_on_missing_text E cancel self w d df k page_data :
  data self = Some d → heap w !! d = Some df →
  rows df !! k = Some page_data →
  series_get (columns df) page_data "Original_Text" (CStr []) = CNaN →
  (∀ j r, j < k → rows df !! j = Some r →
     ∃ s, series_get (columns df) r "Original_Text" (CStr []) = CStr s) →
  is_cancelled cancel k = false →
  let run := process_text_correction E cancel self w in
  ∃ sigs,
    run.2 = sigs ++ [error_occurred
              (str "Text correction failed: 'float' object has no attribute 'strip'")]
    ∧ length sigs = k + 1
    ∧ window run.1 = window w
    ∧ next_ref run.1 = next_ref w
    ∧ (∀ r, r ≠ d → heap run.1 !! r = heap w !! r)
    ∧ (main_df (window w) ≠ Some d → store run.1 = store w).
Proof.
  intros Hd Hdf Hk Hnan Htexts Hc. cbv zeta.
  destruct (process_text_correction_raises E cancel self w d df k page_data
              Hd Hdf Hk Hnan Htexts Hc) as (sigs & Hsigs & Hlen & Hw & Hn & Hheap).
  exists sigs. split_and!; [done|done|done|done|done|].
  intros Hmain. unfold store. rewrite Hw.
  destruct (main_df (window w)) as [r|]; [|done]. simpl.
  apply Hheap. by intros ->.
Qed.

Lemma correction_fails_on_missing_text_witness :
  let run :=
    process_text_correction E1 None folder_correction_thread after_htr_world in
  ∃ sigs,
    run.2 = sigs ++ [error_occurred
              (str "Text correction failed: 'float' object has no attribute 'strip'")]
    ∧ length sigs = 1 + 1
    ∧ window run.1 = window after_htr_world
    ∧ next_ref run.1 = next_ref after_htr_world
    ∧ (∀ r, r ≠ 2 → heap run.1 !! r = heap after_htr_world !! r)
    ∧ (main_df (window after_htr_world) ≠ Some 2 →
       store run.1 = store after_htr_world).
Proof.
  apply (correction_fails_on_missing_text E1 None folder_correction_thread
           after_htr_world 2 after_htr_frame 1
           (Window.new_row E1 (str "/docs") 1 (str "missing.jpg"))).
  - reflexivity.
  - evaluated.
  - reflexivity.
  - evaluated.
  - intros j r Hj Hr. destruct j as [|j]; [|lia]. injection Hr as <-.
    exists (str "transcribed"). evaluated.
  - reflexivity.
Defined.

End MissingText.

(** ** A project made from a folder of images *)
Section FolderFacts.
Import PyStr Spec ArchiveStudio Window More.

Lemma new_row_cells E dir i f :
  new_row E dir i f !! "Page"%string = Some (CInt (i + 1))
  ∧ new_row E dir i f !! "Image_Path"%string
    = Some (CStr (get_relative_path E (os_path_join E dir f)))
  ∧ new_row E dir i f !! "Text_Toggle"%string = Some (CStr (str "None"))
  ∧ new_row E dir i f !! "Original_Text"%string = None.
Proof. unfold new_row. split_and!; by simplify_map_eq. Qed.

Lemma load_files_from_folder_store E dir files w ops :
  dir ≠ [] → files ≠ [] → data_operations (window w) = Some ops →
  let run := load_files_from_folder_no_text E (Some dir) (Ok files) w in
  let df := {| columns := new_row_keys; rows := imap (new_row E dir) files |} in
  store run.1 = Some df
  ∧ main_df (window run.1) = Some (next_ref w)
  ∧ df_len df = length files
  ∧ df_empty df = false.
Proof.
  intros Hdir Hfiles Hops. cbv zeta. unfold load_files_from_folder_no_text.
  destruct dir as [|c dir]; [done|]. destruct files as [|f files]; [done|].
  cbn [alloc window]. rewrite Hops. unfold store. simpl.
  rewrite lookup_insert_eq. split_and!; try done.
  unfold df_len. simpl. by rewrite length_imap.
Qed.

(** X15: loading a folder with image files gives the window a new frame
    of one row for each file, in the order of the listing: the page number
    counted from 1, the image path relative to the project, and no column
    for the original text.  The window and [data_operations] then refer to
    that one object, and the page counter is 0.  With no directory, no
    image file or a listing that raises, the world is left as it is and a
    message box is shown. *)
Theorem load_files_from_folder_rows E dir files w ops :
  dir ≠ [] → files ≠ [] → data_operations (window w) = Some ops →
  let run := load_files_from_folder_no_text E (Some dir) (Ok files) w in
  let df := {| columns := new_row_keys; rows := imap (new_row E dir) files |} in
  run.2 = []
  ∧ store run.1 = Some df
  ∧ main_df (window run.1) = Some (next_ref w)
  ∧ data_operations (window run.1) = Some (Some (next_ref w))
  ∧ page_counter (window run.1) = 0
  ∧ settings (window run.1) = settings (window w)
  ∧ df_len df = length files
  ∧ df_empty df = false
  ∧ (∀ i f, files !! i = Some f →
       cell_at df i "Page" = Some (CInt (i + 1))
       ∧ cell_at df i "Image_Path"
         = Some (CStr (get_relative_path E (os_path_join E dir f)))
       ∧ series_get (columns df) (new_row E dir i f) "Original_Text" (CStr [])
         = CStr [])
  ∧ (∀ r, r ≠ next_ref w → heap run.1 !! r = heap w !! r)
  ∧ (∀ msg,
       load_files_from_folder_no_text E (Some dir) (Raise msg) w
       = (w, [QMessageBox_critical (str "Error")
                (str "Failed to load files: " ++ msg)]))
  ∧ load_files_from_folder_no_text E (Some dir) (Ok []) w
    = (w, [QMessageBox_information (str "No Files")
             (str "No image files found in the selected directory.")])
  ∧ (∀ listing,
       load_files_from_folder_no_text E None listing w
       = (w, [QMessageBox_critical (str "Error") (str "No directory selected.")])
       ∧ load_files_from_folder_no_text E (Some []) listing w
         = (w, [QMessageBox_critical (str "Error")
                  (str "No directory selected.")])).
Proof.
  intros Hdir Hfiles Hops. cbv zeta. unfold load_files_from_folder_no_text.
  destruct dir as [|c dir]; [done|]. destruct files as [|f files]; [done|].
  cbn [alloc window]. rewrite Hops. unfold store. simpl.
  rewrite lookup_insert_eq. split_and!; try done.
  - unfold df_len. simpl. by rewrite length_imap.
  - intros i f' Hf. unfold cell_at.
    change (rows _) with (imap (new_row E (c :: dir)) (f :: files)).
    rewrite list_lookup_imap, Hf. simpl.
    destruct (new_row_cells E (c :: dir) i f') as (-> & -> & _ & _).
    split_and!; [done|done|]. unfold series_get.
    rewrite bool_decide_eq_false_2; [done|]. evaluated.
  - intros r Hr. by rewrite lookup_insert_ne.
Qed.

Lemma load_files_from_folder_rows_witness :
  store
    (load_files_from_folder_no_text E1 (Some (str "/docs")) (Ok two_files)
       blank_world).1
  = Some {| columns := new_row_keys;
            rows := imap (new_row E1 (str "/docs")) two_files |}.
Proof.
  destruct (load_files_from_folder_rows E1 (str "/docs") two_files blank_world
              (Some 0)) as (_ & H & _); done.
Defined.

Lemma correct_pages_no_text E mw total pages st :
  Forall (λ i, ∃ r s,
    rows (c_df st) !! i = Some r
    ∧ series_get (columns (c_df st)) r "Original_Text" (CStr []) = CStr s
    ∧ nonblank s = false) pages →
  correct_pages E None mw total pages st
  = ({| c_reads := c_reads st + length pages;
        c_df := c_df st;
        c_processed := c_processed st;
        c_emitted := c_emitted st ++
          ((λ i, progress_updated (i + 1) total
                   (str "Correcting text for page " ++ dec (i + 1))) <$> pages) |},
     None).
Proof.
  intros Hpages. revert st Hpages.
  induction pages as [|i pages IH]; intros st Hpages.
  - simpl. rewrite Nat.add_0_r, app_nil_r. by destruct st.
  - apply Forall_cons in Hpages as [(r & s & Hr & Hs & Hb) Hpages].
    cbn [correct_pages is_cancelled]. rewrite Hr.
    change (default ∅ (Some r)) with r. rewrite Hs, Hb.
    rewrite IH by done. cbn [c_df c_reads c_processed c_emitted].
    rewrite <- app_assoc. cbn [length fmap list_fmap app].
    by replace (S (c_reads st) + length pages)
      with (c_reads st + S (length pages)) by lia.
Qed.

(** X16: over a store in which no page has an original text (each is
    empty, blank, or the frame has no such column, as after a folder of
    images was loaded), an uncancelled text correction calls no provider
    and writes nothing: it emits one progress signal for each page, reports
    0 of the pages processed, and hands back copies of the frame as it
    was. *)
Theorem correction_without_texts E self w d df :
  data self = Some d → heap w !! d = Some df → df_empty df = false →
  (∀ i r, rows df !! i = Some r →
     ∃ s, series_get (columns df) r "Original_Text" (CStr []) = CStr s
          ∧ nonblank s = false) →
  process_text_correction E None self w
  = (sync_dataframe_to_main_window d w,
     ((λ i, progress_updated (i + 1) (df_len df)
              (str "Correcting text for page " ++ dec (i + 1)))
        <$> seq 0 (df_len df))
     ++ [pages_processed "Text correction completed: " 0 (df_len df)])
  ∧ store (process_text_correction E None self w).1 = Some df.
Proof.
  intros Hd Hdf Hne Htexts.
  assert (process_text_correction E None self w
    = (sync_dataframe_to_main_window d w,
       ((λ i, progress_updated (i + 1) (df_len df)
                (str "Correcting text for page " ++ dec (i + 1)))
          <$> seq 0 (df_len df))
       ++ [pages_processed "Text correction completed: " 0 (df_len df)])) as ->.
  { unfold process_text_correction. rewrite Hd, Hdf, Hne. cbv zeta.
    rewrite correct_pages_no_text.
    - cbn [is_cancelled negb c_df c_emitted c_processed].
      rewrite (set_heap_id w df d Hdf). unfold range. by rewrite Nat.sub_0_r.
    - apply Forall_forall. intros i Hi. unfold range in Hi.
      apply elem_of_seq in Hi. simpl.
      destruct (lookup_lt_is_Some_2 (rows df) i) as [r Hr];
        [unfold df_len in Hi; lia|].
      destruct (Htexts i r Hr) as (s & Hs & Hb). by exists r, s. }
  split; [done|]. simpl. by apply sync_dataframe_store.
Qed.

Lemma correction_without_texts_witness :
  process_text_correction E1 None
    {| operation_type := correct_text; data := Some 1; isRunning := true |}
    folder_world
  = (sync_dataframe_to_main_window 1 folder_world,
     ((λ i, progress_updated (i + 1) (df_len folder_frame)
              (str "Correcting text for page " ++ dec (i + 1)))
        <$> seq 0 (df_len folder_frame))
     ++ [pages_processed "Text correction completed: " 0 (df_len folder_frame)])
  ∧ store (process_text_correction E1 None
             {| operation_type := correct_text; data := Some 1;
                isRunning := true |} folder_world).1 = Some folder_frame.
Proof.
  apply (correction_without_texts E1
           {| operation_type := correct_text; data := Some 1; isRunning := true |}
           folder_world 1 folder_frame).
  - reflexivity.
  - evaluated.
  - reflexivity.
  - intros i r Hr. exists []. destruct i as [|[|i]]; [| |done];
      injection Hr as <-; split; evaluated.
Defined.

(** X17: loading a folder, transcribing it and then asking for the
    correction.  When the HTR job, not cancelled, has transcribed the pages
    before page [k] and failed on page [k] (its image was gone, say), the
    frame handed back has the new column [Original_Text] with nothing in it
    for page [k]; a text correction started on it then stops at page [k]
    with the error about ['float'], having reported on [k + 1] pages, and
    hands nothing back. *)
Theorem folder_htr_then_correction E dir files w ops as_completed htr
    correction k :
  dir ≠ [] → data_operations (window w) = Some ops →
  let loaded := (load_files_from_folder_no_text E (Some dir) (Ok files) w).1 in
  let df := {| columns := new_row_keys; rows := imap (new_row E dir) files |} in
  let after_htr := (process_htr_all E None as_completed htr loaded).1 in
  let run := process_text_correction E None correction after_htr in
  data htr = main_df (window loaded) →
  data correction = main_df (window after_htr) →
  0 < k → k < length files →
  (∀ j, j < k → is_Some (htr_task E (window loaded) df j)) →
  htr_task E (window loaded) df k = None →
  ∃ sigs,
    run.2 = sigs ++ [error_occurred
              (str "Text correction failed: 'float' object has no attribute 'strip'")]
    ∧ length sigs = k + 1
    ∧ window run.1 = window after_htr
    ∧ (store after_htr ≫= λ df', cell_at df' k "Original_Text") = None
    ∧ (∀ j, j < k →
         (store after_htr ≫= λ df', cell_at df' j "Original_Text")
         = CStr <$> htr_task E (window loaded) df j).
Proof.
  intros Hdir Hops. cbv zeta. intros Hhtr Hcor Hk0 Hk Hbefore Hfail.
  assert (files ≠ []) as Hfiles by (intros ->; simpl in Hk; lia).
  destruct (load_files_from_folder_store E dir files w ops Hdir Hfiles Hops)
    as (Hstore & Hmain & Hlen & Hne).
  set (loaded := (load_files_from_folder_no_text E (Some dir) (Ok files) w).1) in *.
  set (df := {| columns := new_row_keys; rows := imap (new_row E dir) files |}) in *.
  unfold store in Hstore. rewrite Hmain in Hstore. simpl in Hstore.
  rewrite Hmain in Hhtr.
  pose proof (process_htr_all_eq E None as_completed htr loaded (next_ref w) df
    Hhtr Hstore Hne) as Heq.
  cbv zeta in Heq. rewrite submit_pages_never in Heq.
  cbn [is_cancelled negb fst snd] in Heq.
  set (df1 := run_tasks (htr_task E (window loaded) df) (range 0 (df_len df)) df)
    in *.
  rewrite Heq in *. cbn [fst] in *.
  destruct (sync_dataframe_store (next_ref w)
    (set_heap loaded (<[next_ref w := df1]> (heap loaded))) df1) as [Hs1 _];
    [by simpl; rewrite lookup_insert_eq|].
  set (after := sync_dataframe_to_main_window _ _) in *.
  assert (Forall (λ j, j < length (rows df)) (range 0 (df_len df))) as Hrange.
  { apply Forall_forall. intros j Hj. unfold range in Hj.
    apply elem_of_seq in Hj. unfold df_len in Hj. lia. }
  assert (∀ j, j < df_len df → j ∈ range 0 (df_len df)) as Hin.
  { intros j Hj. unfold range. apply elem_of_seq. lia. }
  destruct (lookup_lt_is_Some_2 files k Hk) as [f Hf].
  assert (rows df !! k = Some (new_row E dir k f)) as Hrow.
  { unfold df. simpl. by rewrite list_lookup_imap, Hf. }
  assert (rows df1 !! k = Some (new_row E dir k f)) as Hrow1.
  { unfold df1. rewrite run_tasks_untouched; [done|done|by left]. }
  assert ("Original_Text"%string ∈ columns df1) as Hcol.
  { destruct (Hbefore 0 Hk0) as [result Hres].
    eapply run_tasks_column; [done|done|]. apply Hin. lia. }
  assert (∀ j, j < k →
    ∃ result, htr_task E (window loaded) df j = Some result
      ∧ cell_at df1 j "Original_Text" = Some (CStr result)) as Hwritten.
  { intros j Hj. destruct (Hbefore j Hj) as [result Hres]. exists result.
    split; [done|]. apply run_tasks_written; [done|done|]. right. apply Hin. lia. }
  rewrite Hs1. cbn [mbind option_bind].
  unfold store in Hs1. destruct (main_df (window after)) as [r1|] eqn:Hr1; [|done].
  simpl in Hs1.
  destruct (process_text_correction_raises E None correction after r1 df1 k
    (new_row E dir k f)) as (sigs & Hsigs & Hl & Hw & _); try done.
  { unfold series_get. rewrite bool_decide_eq_true_2 by done.
    by destruct (new_row_cells E dir k f) as (_ & _ & _ & ->). }
  { intros j r Hj Hr. destruct (Hwritten j Hj) as (result & _ & Hc).
    unfold cell_at in Hc. rewrite Hr in Hc. simpl in Hc. exists result.
    unfold series_get. rewrite bool_decide_eq_true_2 by done. by rewrite Hc. }
  exists sigs. split_and!; [done|done|done| |].
  - unfold cell_at. rewrite Hrow1. simpl.
    by destruct (new_row_cells E dir k f) as (_ & _ & _ & ->).
  - intros j Hj. destruct (Hwritten j Hj) as (result & -> & ->). done.
Qed.

Lemma folder_htr_then_correction_witness :
  ∃ sigs,
    (process_text_correction E1 None folder_correction_thread after_htr_world).2
    = sigs ++ [error_occurred
         (str "Text correction failed: 'float' object has no attribute 'strip'")]
    ∧ length sigs = 1 + 1.
Proof.
  destruct (folder_htr_then_correction E1 (str "/docs") two_files blank_world
              (Some 0) reverse folder_htr_thread folder_correction_thread 1)
    as (sigs & H1 & H2 & _).
  - done.
  - reflexivity.
  - evaluated.
  - evaluated.
  - lia.
  - simpl. lia.
  - intros j Hj. destruct j as [|j]; [|lia]. apply (bool_decide_eq_true_1 _).
    vm_compute. reflexivity.
  - evaluated.
  - exists sigs. split; [exact H1|exact H2].
Defined.

End FolderFacts.

(** ** More about the import thread *)
Section ImportMore.
Import PyStr Spec ArchiveStudio Review More.

(** X18: whatever the document and the flag, an import changes no frame
    that was there: it writes to no object but a new one.  It never rebinds
    [data_operations.main_df] and never touches the settings; [main_df] is
    either what it was or a new object, and then the page counter is the
    length the store had.  So after an import that added pages,
    [data_operations] still refers to the frame without them. *)
Theorem import_leaves_objects E document pdf_path cancel w :
  let run := PDFImportThread_run E document pdf_path cancel w in
  (∀ r, r ≠ next_ref w → heap run.1.1 !! r = heap w !! r)
  ∧ data_operations (window run.1.1) = data_operations (window w)
  ∧ settings (window run.1.1) = settings (window w)
  ∧ (main_df (window run.1.1) = main_df (window w)
       ∧ heap run.1.1 = heap w
       ∧ page_counter (window run.1.1) = page_counter (window w)
     ∨ main_df (window run.1.1) = Some (next_ref w)
       ∧ page_counter (window run.1.1) = length (store_rows w)
       ∧ length (store_rows w) < length (store_rows run.1.1)).
Proof.
  cbv zeta. unfold PDFImportThread_run.
  destruct document as [pages|msg]; [|split_and!; auto].
  pose proof (ensure_images_directory_main_df E pdf_path (window w)) as [Hmain Hpc].
  assert (data_operations (ensure_images_directory E pdf_path (window w)).1
          = data_operations (window w)
          ∧ settings (ensure_images_directory E pdf_path (window w)).1
            = settings (window w)) as [Hops Hset].
  { unfold ensure_images_directory. destruct (images_directory (window w)); [|done].
    by case_bool_decide. }
  destruct (ensure_images_directory E pdf_path (window w)) as [mw1 dir] eqn:Hens.
  simpl in Hmain, Hpc, Hops, Hset.
  pose proof (store_set_window w mw1 Hmain) as Hstore. rewrite Hstore.
  destruct (store w) as [df0|] eqn:Hdf; [|simpl; split_and!; auto].
  destruct (import_batches _ _ _ _ _ _ _ _ _) as [[st|st msg] read];
    [|simpl; split_and!; auto].
  destruct (is_cancelled cancel read); simpl.
  { destruct (is_cancelled cancel (S read)); simpl; split_and!; auto. }
  case_bool_decide as Hnew; simpl.
  { destruct (is_cancelled cancel (S read)); simpl; split_and!; auto. }
  split_and!; [|done|done|].
  - intros r Hr. by rewrite lookup_insert_ne.
  - right. unfold store_rows, store. simpl. rewrite lookup_insert_eq. simpl.
    unfold store in Hdf. rewrite Hdf. simpl. unfold df_len.
    split_and!; [done|done|]. rewrite length_app.
    destruct (new_rows_list st); [done|simpl; lia].
Qed.

Lemma import_page_ok_eq E main_cols images_dir pages start_index st n pg :
  pages !! n = Some pg → page_ok pg = true →
  import_page E main_cols images_dir pages start_index st n
  = Done
      {| new_rows_list := new_rows_list st
           ++ [imported_row E main_cols images_dir pages start_index n];
         emitted := emitted st
           ++ [progress_updated (n + 1) (length pages)
                 (str "Processing page " ++ dec (n + 1) ++ str " of "
                  ++ dec (length pages))];
         saved := saved st
           ++ [os_path_join E images_dir (image_filename (start_index + n))] |}.
Proof.
  unfold import_page, imported_row, page_text, page_ok. intros -> H. simpl.
  destruct (get_pixmap pg); [|done]. destruct (save pg); [|done].
  by destruct (get_text pg).
Qed.

Lemma import_pages_ok_eq E main_cols images_dir pages start_index page_nums st :
  Forall (λ pg, page_ok pg = true) pages →
  Forall (λ n, n < length pages) page_nums →
  import_pages E main_cols images_dir pages start_index page_nums st
  = Done
      {| new_rows_list := new_rows_list st
           ++ (imported_row E main_cols images_dir pages start_index <$> page_nums);
         emitted := emitted st
           ++ ((λ n, progress_updated (n + 1) (length pages)
                       (str "Processing page " ++ dec (n + 1) ++ str " of "
                        ++ dec (length pages))) <$> page_nums);
         saved := saved st
           ++ ((λ n, os_path_join E images_dir (image_filename (start_index + n)))
                 <$> page_nums) |}.
Proof.
  intros Hok Hin. revert st. induction Hin as [|n l Hn Hl IH]; intros st.
  - simpl. rewrite !app_nil_r. by destruct st.
  - apply lookup_lt_is_Some in Hn as [pg Hpg]. simpl.
    rewrite (import_page_ok_eq _ _ _ _ _ _ _ pg Hpg).
    + rewrite IH. simpl. by rewrite <- !app_assoc.
    + rewrite Forall_forall in Hok. apply Hok. by eapply list_elem_of_lookup_2.
Qed.

Lemma import_batch_uncancelled E c main_cols images_dir pages start_index
    page_nums read st :
  Forall (λ pg, page_ok pg = true) pages →
  Forall (λ n, n < length pages) page_nums →
  is_cancelled c (read + length page_nums) = false →
  ∃ st',
    import_batch E c main_cols images_dir pages start_index page_nums read st
    = (Done st', read + length page_nums)
    ∧ import_pages E main_cols images_dir pages start_index page_nums st = Done st'.
Proof.
  intros Hok Hin. revert read st.
  induction Hin as [|n l Hn Hl IH]; intros read st Hc; simpl.
  - rewrite Nat.add_0_r. by eexists.
  - rewrite (is_cancelled_before c read (read + S (length l))) by (lia || done).
    apply lookup_lt_is_Some in Hn as [pg Hpg].
    destruct (import_page_ok E main_cols images_dir pages start_index st n pg Hpg)
      as [st1 ->].
    { rewrite Forall_forall in Hok. apply Hok. by eapply list_elem_of_lookup_2. }
    destruct (IH (S read) st1) as (st' & -> & ->).
    { by replace (S read + length l) with (read + S (length l)) by lia. }
    exists st'. split; [|done]. f_equal. simpl. lia.
Qed.

Lemma import_batches_uncancelled E c main_cols images_dir pages start_index
    batch_starts read st :
  Forall (λ pg, page_ok pg = true) pages →
  let chunk := λ batch_start,
    range batch_start (min (batch_start + batch_size) (length pages)) in
  is_cancelled c (read + length batch_starts + length (batch_starts ≫= chunk))
    = false →
  ∃ st',
    import_batches E c main_cols images_dir pages start_index batch_starts read st
    = (Done st', read + length batch_starts + length (batch_starts ≫= chunk))
    ∧ import_pages E main_cols images_dir pages start_index
        (batch_starts ≫= chunk) st = Done st'.
Proof.
  intros Hok chunk. revert read st.
  induction batch_starts as [|b l IH]; intros read st Hc.
  - simpl. rewrite !Nat.add_0_r. by eexists.
  - cbn [import_batches]. rewrite bind_cons in *. rewrite length_app in *.
    cbn [length] in *.
    rewrite (is_cancelled_before c read
               (read + S (length l) + (length (chunk b) + length (l ≫= chunk))))
      by (lia || done).
    destruct (import_batch_uncancelled E c main_cols images_dir pages start_index
                (chunk b) (S read) st Hok) as (st1 & Hb & Ht).
    { apply Forall_forall. intros n Hn. unfold chunk, range in Hn.
      apply elem_of_seq in Hn. lia. }
    { eapply is_cancelled_before; [|exact Hc]. lia. }
    fold (chunk b). rewrite Hb.
    destruct (IH (S read + length (chunk b)) st1) as (st' & -> & Hl).
    { eapply is_cancelled_before; [|exact Hc]. lia. }
    exists st'. split; [f_equal; lia|].
    by rewrite import_pages_app, Ht.
Qed.

(** The run of an import that nothing stops. *)
Lemma PDFImportThread_run_ok E pages pdf_path cancel w df0 :
  store w = Some df0 → pages ≠ [] →
  Forall (λ pg, page_ok pg = true) pages →
  is_cancelled cancel (loop_reads (length pages)) = false →
  let dir := (ensure_images_directory E pdf_path (window w)).2 in
  let run := PDFImportThread_run E (Ok pages) pdf_path cancel w in
  let n := length pages in
  run.1.2
  = progress_updated 0 n (str "Starting PDF import...")
    :: ((λ k, progress_updated (k + 1) n
                (str "Processing page " ++ dec (k + 1) ++ str " of " ++ dec n))
          <$> seq 0 n)
    ++ [import_complete
          (str "PDF import completed: " ++ dec n ++ str " pages imported")]
  ∧ run.2
    = (λ k, os_path_join E dir (image_filename (df_len df0 + k))) <$> seq 0 n
  ∧ store run.1.1
    = Some (pd_concat df0
              {| columns := new_row_columns (columns df0);
                 rows := imported_row E (columns df0) dir pages (df_len df0)
                           <$> seq 0 n |})
  ∧ main_df (window run.1.1) = Some (next_ref w)
  ∧ page_counter (window run.1.1) = df_len df0
  ∧ images_directory (window run.1.1) = Some dir.
Proof.
  intros Hdf Hne Hok Hc. cbv zeta. unfold PDFImportThread_run.
  pose proof (ensure_images_directory_main_df E pdf_path (window w)) as [Hmain _].
  assert (images_directory (ensure_images_directory E pdf_path (window w)).1
          = Some (ensure_images_directory E pdf_path (window w)).2) as Himg.
  { unfold ensure_images_directory.
    destruct (images_directory (window w)) eqn:Hd; [|done].
    by case_bool_decide. }
  destruct (ensure_images_directory E pdf_path (window w)) as [mw1 dir] eqn:Hens.
  simpl in Hmain, Himg. pose proof (store_set_window w mw1 Hmain) as Hstore.
  rewrite Hstore, Hdf.
  set (st0 := {| new_rows_list := []; emitted := _; saved := [] |}).
  destruct (import_batches_uncancelled E cancel (columns df0) dir pages
              (df_len df0) (range_step (length pages) batch_size) 0 st0 Hok)
    as (st' & Hb & Ht).
  { change (range_step (length pages) batch_size ≫= _)
      with (batched_pages (length pages)).
    by rewrite batched_pages_seq, length_seq. }
  change (range_step (length pages) batch_size ≫= _)
    with (batched_pages (length pages)) in Hb, Ht.
  rewrite batched_pages_seq, length_seq in Hb. rewrite batched_pages_seq in Ht.
  rewrite import_pages_ok_eq in Ht; [|done|].
  2: { apply Forall_forall. intros k Hk. apply elem_of_seq in Hk. lia. }
  injection Ht as <-. rewrite Hb.
  change (0 + length (range_step (length pages) batch_size) + length pages)
    with (loop_reads (length pages)).
  rewrite Hc. cbn [negb andb new_rows_list app].
  rewrite bool_decide_eq_false_2.
  2: { destruct pages; [done|]. simpl. done. }
  cbn [negb alloc]. unfold store. simpl. rewrite lookup_insert_eq.
  rewrite length_fmap, length_seq. by split_and!.
Qed.

(** X19: an import that nothing stops: the store is there, the document
    has pages, none of them makes PyMuPDF raise, and the flag is not set
    before the loops have made their last read.  Then the run writes one
    image for each page, named by the token of the page's new index, into
    the images directory and in page order; it reports the start, each
    page in order and then the completion with the number of pages; the
    store becomes the frame of before followed by the rows of all pages;
    the page counter is the length the store had. *)
Theorem import_all_pages E pages pdf_path cancel w df0 :
  store w = Some df0 → pages ≠ [] →
  Forall (λ pg, page_ok pg = true) pages →
  is_cancelled cancel (loop_reads (length pages)) = false →
  let dir := (ensure_images_directory E pdf_path (window w)).2 in
  let run := PDFImportThread_run E (Ok pages) pdf_path cancel w in
  let n := length pages in
  run.1.2
  = progress_updated 0 n (str "Starting PDF import...")
    :: ((λ k, progress_updated (k + 1) n
                (str "Processing page " ++ dec (k + 1) ++ str " of " ++ dec n))
          <$> seq 0 n)
    ++ [import_complete
          (str "PDF import completed: " ++ dec n ++ str " pages imported")]
  ∧ run.2
    = (λ k, os_path_join E dir (image_filename (df_len df0 + k))) <$> seq 0 n
  ∧ store run.1.1
    = Some (pd_concat df0
              {| columns := new_row_columns (columns df0);
                 rows := imported_row E (columns df0) dir pages (df_len df0)
                           <$> seq 0 n |})
  ∧ main_df (window run.1.1) = Some (next_ref w)
  ∧ page_counter (window run.1.1) = df_len df0
  ∧ images_directory (window run.1.1) = Some dir
  ∧ length (store_rows run.1.1) = df_len df0 + n
  ∧ NoDup ((λ k, image_filename (df_len df0 + k)) <$> seq 0 n).
Proof.
  intros Hdf Hne Hok Hc. cbv zeta.
  destruct (PDFImportThread_run_ok E pages pdf_path cancel w df0 Hdf Hne Hok Hc)
    as (Hsigs & Hsaved & Hstore & Hmain & Hpc & Himg).
  split_and!; [done|done|done|done|done|done| |].
  - unfold store_rows. rewrite Hstore. unfold pd_concat, df_len. simpl.
    by rewrite length_app, length_fmap, length_seq.
  - apply NoDup_fmap_2_strong; [|apply NoDup_seq].
    intros k k' _ _ Heq. unfold image_filename in Heq.
    apply app_inv_tail, new_page_num_str_inj in Heq. lia.
Qed.

Lemma import_all_pages_witness :
  (PDFImportThread_run Scenario.E0 (Ok Scenario.seven_good_pages)
     Scenario.pdf_path (Some 10) Scenario.w0).2
  = (λ k, str "/docs/images/" ++ image_filename (2 + k)) <$> seq 0 7.
Proof.
  destruct (import_all_pages Scenario.E0 Scenario.seven_good_pages
              Scenario.pdf_path (Some 10) Scenario.w0 Scenario.two_page_frame)
    as (_ & H & _).
  - reflexivity.
  - done.
  - repeat constructor.
  - reflexivity.
  - rewrite H. reflexivity.
Defined.

(** X20: a document with no page.  The run reports the start with a total
    of 0 and then an error: that no pages were imported, or, when the flag
    was set by then, that the import was cancelled.  No image is written
    and the store is as it was; the images directory of the window is set
    all the same. *)
Theorem import_empty_document E pdf_path cancel w :
  let run := PDFImportThread_run E (Ok []) pdf_path cancel w in
  run.1.2
  = [progress_updated 0 0 (str "Starting PDF import...");
     match store w with
     | None => import_error (str "Import error: " ++ no_main_df)
     | Some _ =>
         if is_cancelled cancel 1 then import_error (str "Import cancelled by user")
         else import_error (str "No pages were imported")
     end]
  ∧ run.2 = []
  ∧ heap run.1.1 = heap w
  ∧ store run.1.1 = store w
  ∧ page_counter (window run.1.1) = page_counter (window w)
  ∧ images_directory (window run.1.1)
    = Some (ensure_images_directory E pdf_path (window w)).2.
Proof.
  cbv zeta. unfold PDFImportThread_run.
  pose proof (ensure_images_directory_main_df E pdf_path (window w)) as [Hmain Hpc].
  assert (images_directory (ensure_images_directory E pdf_path (window w)).1
          = Some (ensure_images_directory E pdf_path (window w)).2) as Himg.
  { unfold ensure_images_directory.
    destruct (images_directory (window w)) eqn:Hd; [|done].
    by case_bool_decide. }
  destruct (ensure_images_directory E pdf_path (window w)) as [mw1 dir] eqn:Hens.
  simpl in Hmain, Hpc, Himg. pose proof (store_set_window w mw1 Hmain) as Hstore.
  rewrite Hstore. destruct (store w) as [df0|] eqn:Hdf; [|done].
  cbn [length range_step import_batches fmap list_fmap seq Nat.div].
  change (range_step 0 batch_size) with (@nil nat). cbn [import_batches].
  rewrite andb_false_r. simpl.
  destruct (is_cancelled cancel 1); simpl; by rewrite ?Hstore.
Qed.

End ImportMore.

(** ** What the review tab shows after a job *)
Section ReviewAfter.
Import PyStr Spec ArchiveStudio Review More.

Lemma word_count_all text :
  (if nonblank text then length (split_ws text) else 0) = length (split_ws text).
Proof.
  unfold nonblank. case_bool_decide as Hb; [|done]. simpl.
  apply strip_nil_iff, split_ws_nil_iff in Hb. by rewrite Hb.
Qed.

Lemma load_current_text_shown w tab df row s :
  store w = Some df → df_empty df = false →
  current_page tab < df_len df →
  rows df !! current_page tab = Some row →
  column_map (text_type_combo tab) ∈ columns df →
  row !! column_map (text_type_combo tab) = Some (CStr s) →
  text_editor (load_current_text w tab) = s
  ∧ word_count_label (load_current_text w tab)
    = str "Words: " ++ dec (length (split_ws s)).
Proof.
  intros Hdf Hne Hlt Hrow Hcol Hcell.
  unfold load_current_text, update_word_count, current_row.
  rewrite Hdf. cbn [mbind option_bind]. rewrite Hne.
  rewrite (proj2 (Nat.ltb_lt _ _) Hlt), Hrow. cbn [negb andb fmap option_fmap option_map].
  rewrite bool_decide_eq_true_2 by done. rewrite Hcell. cbn.
  by rewrite word_count_all.
Qed.

(** What the tab shows for a page whose cell holds a text. *)
Lemma update_page_display_shown E w tab df row s :
  store w = Some df → df_empty df = false →
  rows df !! current_page (update_page_display E w tab) = Some row →
  column_map (text_type_combo tab) ∈ columns df →
  row !! column_map (text_type_combo tab) = Some (CStr s) →
  text_editor (update_page_display E w tab) = s
  ∧ word_count_label (update_page_display E w tab)
    = str "Words: " ++ dec (length (split_ws s)).
Proof.
  intros Hdf Hne Hrow Hcol Hcell.
  destruct (update_page_display_pages E w tab) as (Hcp & _).
  rewrite Hcp in Hrow.
  pose proof (refresh_page_data_pages w tab) as Hr. rewrite Hdf, Hne in Hr.
  destruct Hr as (Hcur & Htot & Hpos).
  assert (text_type_combo (refresh_page_data w tab) = text_type_combo tab) as Htt.
  { unfold refresh_page_data. rewrite Hdf, Hne. done. }
  unfold update_page_display.
  set (tab1 := refresh_page_data w tab) in *.
  set (tab2 := set_navigation tab1 _ _ _).
  assert (current_page tab1 < df_len df) as Hlt by lia.
  unfold load_current_page, current_row. rewrite Hdf. cbn [mbind option_bind].
  rewrite Hne. change (current_page tab2) with (current_page tab1).
  rewrite (proj2 (Nat.ltb_lt _ _) Hlt), Hrow.
  cbn [negb andb fmap option_fmap option_map].
  destruct (_ && _);
    apply (load_current_text_shown w _ df row s); try done;
    by rewrite <- Htt in *.
Qed.

Lemma htr_task_nonblank E mw df i result :
  htr_task E mw df i = Some result → nonblank result = true.
Proof.
  unfold htr_task, process_single_page_htr.
  destruct (rows df !! i) as [page_data|]; [|done]. cbn [mbind option_bind].
  destruct (negb _); [done|].
  destruct (series_get _ _ _ _) as [p| |]; [|done|done].
  destruct (negb _); [done|]. destruct (settings mw) as [presets|]; [|done].
  destruct (find_preset _ _) as [preset|]; [|done].
  destruct (call_ai_api_thread_safe _ _ _ _ _) as [r|]; [|done].
  destruct (nonblank r) eqn:Hr; [|done]. by intros [= <-].
Qed.

(** X21: after an HTR job that was not cancelled, whenever the review tab
    shows, with the original text selected, a page whose task succeeded,
    the editor holds the text that task got from the provider, the word
    count is the number of its words, which is not 0, and the page counter
    is the length of the store. *)
Theorem review_shows_transcription E as_completed self w d df tab i result :
  data self = Some d → heap w !! d = Some df → df_empty df = false →
  htr_task E (window w) df i = Some result →
  text_type_combo tab = Original_Text →
  let w' := (process_htr_all E None as_completed self w).1 in
  let shown := update_page_display E w' tab in
  current_page shown = i →
  text_editor shown = result
  ∧ word_count_label shown = str "Words: " ++ dec (length (split_ws result))
  ∧ 0 < length (split_ws result)
  ∧ total_pages shown = df_len df.
Proof.
  intros Hd Hdf Hne Htask Htt. cbv zeta.
  rewrite (process_htr_all_eq E None as_completed self w d df Hd Hdf Hne).
  cbv zeta. rewrite submit_pages_never. cbn [is_cancelled negb fst snd].
  set (df1 := run_tasks (htr_task E (window w) df) (range 0 (df_len df)) df).
  destruct (sync_dataframe_store d
    (set_heap w (<[d := df1]> (heap w))) df1) as [Hs _];
    [by simpl; rewrite lookup_insert_eq|].
  set (w' := sync_dataframe_to_main_window _ _) in *.
  assert (Forall (λ j, j < length (rows df)) (range 0 (df_len df))) as Hrange.
  { apply Forall_forall. intros j Hj. unfold range in Hj.
    apply elem_of_seq in Hj. unfold df_len in Hj. lia. }
  assert (i < df_len df) as Hi.
  { unfold htr_task in Htask. destruct (rows df !! i) eqn:Hr; [|done].
    by apply lookup_lt_Some in Hr. }
  assert (i ∈ range 0 (df_len df)) as Hin by (unfold range; apply elem_of_seq; lia).
  assert (df_len df1 = df_len df) as Hlen by (by apply run_tasks_length).
  assert ("Original_Text"%string ∈ columns df1) as Hcol
    by (by eapply run_tasks_column).
  assert (df_empty df1 = false) as Hne1.
  { unfold df_empty. apply orb_false_iff. split; apply Nat.eqb_neq.
    - unfold df_len in *. lia.
    - destruct (columns df1); [by apply elem_of_nil in Hcol|done]. }
  pose proof (run_tasks_written (htr_task E (window w) df) _ df i result Hrange
    Htask (or_intror Hin)) as Hcell.
  fold df1 in Hcell. unfold cell_at in Hcell.
  destruct (rows df1 !! i) as [row|] eqn:Hrow; [|done]. simpl in Hcell.
  intros Hshown.
  destruct (update_page_display_shown E w' tab df1 row result) as [Ht Hw];
    try done.
  { by rewrite Hshown. }
  { by rewrite Htt. }
  { by rewrite Htt. }
  split_and!; [done|done| |].
  - pose proof (htr_task_nonblank _ _ _ _ _ Htask) as Hnb.
    unfold nonblank in Hnb. apply negb_true_iff, bool_decide_eq_false in Hnb.
    destruct (split_ws result) eqn:Hws; [|simpl; lia].
    destruct Hnb. by apply strip_nil_iff, split_ws_nil_iff.
  - destruct (update_page_display_pages E w' tab) as (_ & -> & _).
    pose proof (refresh_page_data_pages w' tab) as Hr. rewrite Hs, Hne1 in Hr.
    destruct Hr as (_ & -> & _). done.
Qed.

Lemma review_shows_transcription_witness :
  text_editor
    (update_page_display Scenario.E0
       (process_htr_all Scenario.E0 None reverse Scenario.htr_thread
          Scenario.three_page_world).1 first_page)
  = str "transcribed".
Proof.
  destruct (review_shows_transcription Scenario.E0 reverse Scenario.htr_thread
              Scenario.three_page_world 0 Scenario.three_page_frame first_page
              0 (str "transcribed")) as (H & _).
  - reflexivity.
  - reflexivity.
  - reflexivity.
  - evaluated.
  - reflexivity.
  - evaluated.
  - exact H.
Defined.

Lemma imported_row_text E main_cols images_dir pages start_index n :
  imported_row E main_cols images_dir pages start_index n !! "Original_Text"%string
  = Some (CStr (if nonblank (page_text pages n) then page_text pages n else [])).
Proof.
  apply add_other_columns_lookup. unfold new_row_data.
  rewrite !lookup_insert_ne by done. rewrite lookup_insert_eq.
  do 2 f_equal. unfold nonblank.
  destruct (page_text pages n) as [|c t]; [done|]. simpl. done.
Qed.

(** X22: after an import that nothing stops, the update that
    [on_import_complete] asks of the review tab leaves it with the new
    length of the store as its page counter and, since the page it was on
    is still there, on that page: the imported pages are not brought into
    view.  Whenever the tab then shows an imported page with the original
    text selected, the editor holds the text extracted from that page of
    the source, or nothing when that text is blank. *)
Theorem review_after_import E pages pdf_path cancel w df0 tab :
  store w = Some df0 → pages ≠ [] →
  Forall (λ pg, page_ok pg = true) pages →
  is_cancelled cancel (loop_reads (length pages)) = false →
  let w' := (PDFImportThread_run E (Ok pages) pdf_path cancel w).1.1 in
  let shown := on_import_complete E w' tab in
  total_pages shown = df_len df0 + length pages
  ∧ current_page shown = min (current_page tab) (df_len df0 + length pages - 1)
  ∧ (current_page tab < df_len df0 → current_page shown = current_page tab)
  ∧ (∀ tab' k,
       text_type_combo tab' = Original_Text → k < length pages →
       current_page (update_page_display E w' tab') = df_len df0 + k →
       text_editor (update_page_display E w' tab')
       = if nonblank (page_text pages k) then page_text pages k else []).
Proof.
  intros Hdf Hne Hok Hc. cbv zeta.
  destruct (PDFImportThread_run_ok E pages pdf_path cancel w df0 Hdf Hne Hok Hc)
    as (_ & _ & Hstore & _).
  set (w' := (PDFImportThread_run E (Ok pages) pdf_path cancel w).1.1) in *.
  set (dir := (ensure_images_directory E pdf_path (window w)).2) in *.
  set (df1 := pd_concat df0 _) in Hstore.
  assert (df_len df1 = df_len df0 + length pages) as Hlen.
  { unfold df1, df_len, pd_concat. simpl.
    by rewrite length_app, length_fmap, length_seq. }
  assert ("Original_Text"%string ∈ columns df1) as Hcol.
  { unfold df1, pd_concat. simpl. apply elem_of_app.
    destruct (decide ("Original_Text"%string ∈ columns df0)) as [?|Hn];
      [by left|right].
    apply list_elem_of_filter. split; [done|].
    unfold new_row_columns. apply elem_of_app. left. evaluated. }
  assert (df_empty df1 = false) as Hne1.
  { unfold df_empty. apply orb_false_iff. split; apply Nat.eqb_neq.
    - unfold df_len in Hlen. rewrite Hlen.
      destruct pages; [done|]. simpl. lia.
    - destruct (columns df1); [by apply elem_of_nil in Hcol|done]. }
  unfold on_import_complete.
  destruct (update_page_display_pages E w' tab) as (Hcp & Htot & _).
  pose proof (refresh_page_data_pages w' tab) as Hr. rewrite Hstore, Hne1 in Hr.
  destruct Hr as (Hcur & Htot' & _).
  rewrite Hcp, Htot, Hcur, Htot', Hlen. split_and!; [done|done|lia|].
  intros tab' k Htt Hk Hshown.
  destruct (update_page_display_shown E w' tab' df1
    (imported_row E (columns df0) dir pages (df_len df0) k)
    (if nonblank (page_text pages k) then page_text pages k else []))
    as [Ht _]; try done.
  - rewrite Hshown. unfold df1, pd_concat. simpl.
    rewrite lookup_app_r by (unfold df_len; lia).
    replace (df_len df0 + k - length (rows df0)) with k by (unfold df_len; lia).
    rewrite list_lookup_fmap, lookup_seq_lt by done. done.
  - by rewrite Htt.
  - rewrite Htt. apply imported_row_text.
Qed.

Lemma review_after_import_witness :
  total_pages
    (on_import_complete Scenario.E0
       (PDFImportThread_run Scenario.E0 (Ok Scenario.seven_good_pages)
          Scenario.pdf_path None Scenario.w0).1.1 first_page)
  = 2 + 7.
Proof.
  destruct (review_after_import Scenario.E0 Scenario.seven_good_pages
              Scenario.pdf_path None Scenario.w0 Scenario.two_page_frame
              first_page) as (H & _).
  - reflexivity.
  - done.
  - repeat constructor.
  - reflexivity.
  - exact H.
Defined.

End ReviewAfter.

(** ** A provider that fails *)
Section ProviderDown.
Import PyStr Spec ArchiveStudio More.

Lemma call_ai_api_no_usable_text E image_path preset i text :
  (∀ request, no_usable_text (route_api_call E request)) →
  match call_ai_api_thread_safe E image_path preset i text with
  | Some result => nonblank result = false
  | None => True
  end.
Proof.
  intros Hdown. unfold call_ai_api_thread_safe.
  destruct image_path as [p|[|n]|]; try done.
  - match goal with |- context [route_api_call E ?r] =>
      specialize (Hdown r); destruct (route_api_call E r) as [[s|]|s| |]
    end; done.
  - match goal with |- context [route_api_call E ?r] =>
      specialize (Hdown r); destruct (route_api_call E r) as [[s|]|s| |]
    end; done.
Qed.

Lemma process_single_page_htr_down E mw cols page_data i :
  (∀ request, no_usable_text (route_api_call E request)) →
  process_single_page_htr E mw cols page_data i = None.
Proof.
  intros Hdown. unfold process_single_page_htr.
  destruct (negb _); [done|].
  destruct (series_get _ _ _ _) as [p| |]; [|done|done].
  destruct (negb _); [done|]. destruct (settings mw) as [presets|]; [|done].
  destruct (find_preset _ _) as [preset|]; [|done].
  pose proof (call_ai_api_no_usable_text E (CStr (get_full_path E p)) preset i []
    Hdown) as Hcall.
  destruct (call_ai_api_thread_safe _ _ _ _ _) as [r|]; [|done].
  by rewrite Hcall.
Qed.

Lemma process_single_page_correction_down E mw cols page_data i :
  (∀ request, no_usable_text (route_api_call E request)) →
  process_single_page_correction E mw cols page_data i = None.
Proof.
  intros Hdown. unfold process_single_page_correction.
  destruct (series_get _ _ "Original_Text" _) as [text| |]; [|done|done].
  destruct (negb _); [done|]. destruct (settings mw) as [presets|]; [|done].
  destruct (find_preset _ _) as [preset|]; [|done].
  match goal with |- context [call_ai_api_thread_safe E ?img preset i text] =>
    pose proof (call_ai_api_no_usable_text E img preset i text Hdown) as Hcall;
    destruct (call_ai_api_thread_safe E img preset i text) as [r|]; [|done]
  end.
  by rewrite Hcall.
Qed.

Lemma correct_pages_none E mw total pages st :
  (∀ cols page_data i, process_single_page_correction E mw cols page_data i = None) →
  original_texts_are_strings (c_df st) →
  Forall (λ i, i < length (rows (c_df st))) pages →
  correct_pages E None mw total pages st
  = ({| c_reads := c_reads st + length pages;
        c_df := c_df st;
        c_processed := c_processed st;
        c_emitted := c_emitted st ++
          ((λ i, progress_updated (i + 1) total
                   (str "Correcting text for page " ++ dec (i + 1))) <$> pages) |},
     None).
Proof.
  intros Hnone Htexts Hpages. revert st Htexts Hpages.
  induction pages as [|i pages IH]; intros st Htexts Hpages.
  - simpl. rewrite Nat.add_0_r, app_nil_r. by destruct st.
  - apply Forall_cons in Hpages as [Hi Hpages].
    apply lookup_lt_is_Some in Hi as [r Hr].
    cbn [correct_pages is_cancelled]. rewrite Hr.
    change (default ∅ (Some r)) with r.
    unfold original_texts_are_strings in Htexts.
    rewrite Forall_forall in Htexts.
    destruct (Htexts r) as [text ->]; [by eapply list_elem_of_lookup_2|].
    rewrite Hnone.
    assert (∀ (b : bool) (x : correction_state), (if b then x else x) = x) as ->
      by (by intros []).
    rewrite IH; cbn [c_df c_reads c_processed c_emitted];
      [|by apply Forall_forall|done].
    rewrite <- app_assoc. cbn [length fmap list_fmap app].
    by replace (S (c_reads st) + length pages)
      with (c_reads st + S (length pages)) by lia.
Qed.

(** X23: a provider that gives no usable text for any call (it raises, or
    answers with something that is no text, or with blanks) never makes a
    job fail: an uncancelled HTR job, and an uncancelled text correction
    over original texts that are strings, emit their progress signal for
    every page and then the completion with 0 pages processed.  No error
    signal is emitted, and the frame handed back is the frame of before. *)
Theorem provider_failure_isolated E as_completed self w d df :
  data self = Some d → heap w !! d = Some df → df_empty df = false →
  (∀ request, no_usable_text (route_api_call E request)) →
  process_htr_all E None as_completed self w
  = (sync_dataframe_to_main_window d w,
     ((λ i, progress_updated 0 (df_len df) (str "Completed page " ++ dec (i + 1)))
        <$> as_completed (seq 0 (df_len df)))
     ++ [pages_processed "HTR processing completed: " 0 (df_len df)])
  ∧ (original_texts_are_strings df →
     process_text_correction E None self w
     = (sync_dataframe_to_main_window d w,
        ((λ i, progress_updated (i + 1) (df_len df)
                 (str "Correcting text for page " ++ dec (i + 1)))
           <$> seq 0 (df_len df))
        ++ [pages_processed "Text correction completed: " 0 (df_len df)]))
  ∧ store (sync_dataframe_to_main_window d w) = Some df.
Proof.
  intros Hd Hdf Hne Hdown. split_and!.
  - assert (∀ i, htr_task E (window w) df i = None) as Hnone.
    { intros i. unfold htr_task. destruct (rows df !! i); [|done].
      simpl. by apply process_single_page_htr_down. }
    rewrite (process_htr_all_eq E None as_completed self w d df) by done.
    cbv zeta. rewrite submit_pages_never. cbn [fst snd].
    rewrite run_tasks_none, (set_heap_id _ _ _ Hdf) by done.
    rewrite harvest_no_success.
    + cbn [fst snd is_cancelled negb]. unfold range.
      by rewrite Nat.sub_0_r.
    + apply Forall_forall. intros i _. apply bool_decide_eq_false_2.
      rewrite Hnone. by intros [??].
  - intros Htexts. unfold process_text_correction. rewrite Hd, Hdf, Hne.
    rewrite correct_pages_none.
    + cbn [c_df c_reads c_processed c_emitted is_cancelled negb app].
      rewrite (set_heap_id _ _ _ Hdf). unfold range.
      by rewrite Nat.sub_0_r.
    + intros cols page_data i. by apply process_single_page_correction_down.
    + done.
    + apply Forall_forall. intros i Hi%elem_of_seq.
      cbn [c_df]. unfold df_len in *. lia.
  - by apply sync_dataframe_store.
Qed.

Lemma provider_failure_isolated_witness :
  process_htr_all E_down None reverse Scenario.htr_thread ready_world
  = (sync_dataframe_to_main_window 0 ready_world,
     [progress_updated 0 2 (str "Completed page 2");
      progress_updated 0 2 (str "Completed page 1");
      pages_processed "HTR processing completed: " 0 2])
  ∧ process_text_correction E_down None Scenario.correction_thread ready_world
    = (sync_dataframe_to_main_window 0 ready_world,
       [progress_updated 1 2 (str "Correcting text for page 1");
        progress_updated 2 2 (str "Correcting text for page 2");
        pages_processed "Text correction completed: " 0 2]).
Proof.
  destruct (provider_failure_isolated E_down reverse Scenario.htr_thread
              ready_world 0 Scenario.transcribed_frame eq_refl eq_refl eq_refl)
    as (Hhtr & _); [by intros request|].
  destruct (provider_failure_isolated E_down reverse Scenario.correction_thread
              ready_world 0 Scenario.transcribed_frame eq_refl eq_refl eq_refl)
    as (_ & Hcorr & _); [by intros request|].
  split; [exact Hhtr|]. apply Hcorr.
  repeat constructor; eexists; vm_compute; reflexivity.
Defined.

End ProviderDown.

(** ** Running the HTR job again *)
Section Rerun.
Import PyStr Spec ArchiveStudio More.

Lemma loc_set_id df i col v row :
  col ∈ columns df → rows df !! i = Some row → row !! col = Some v →
  loc_set df i col v = df.
Proof.
  intros Hcol Hrow Hcell. unfold loc_set.
  rewrite bool_decide_eq_true_2 by done. rewrite Hrow.
  rewrite (insert_id row col v Hcell), (list_insert_id _ _ _ Hrow).
  by destruct df.
Qed.

Lemma htr_store_id df i result :
  "Original_Text"%string ∈ columns df → "Text_Toggle"%string ∈ columns df →
  cell_at df i "Original_Text" = Some (CStr result) →
  cell_at df i "Text_Toggle" = Some (CStr (str "Original_Text")) →
  htr_store df i result = df.
Proof.
  intros Hc1 Hc2 H1 H2. unfold htr_store, cell_at in *.
  destruct (rows df !! i) as [row|] eqn:Hrow; [|done]. simpl in H1, H2.
  rewrite (loc_set_id df i "Original_Text" _ row) by done.
  by rewrite (loc_set_id df i "Text_Toggle" _ row).
Qed.

Lemma run_tasks_ext task1 task2 sub df :
  (∀ i, task1 i = task2 i) → run_tasks task1 sub df = run_tasks task2 sub df.
Proof.
  intros Hext. revert df. induction sub as [|j sub IH]; intros df; [done|].
  by rewrite !run_tasks_cons, Hext, IH.
Qed.

Lemma harvest_ext cancel read total success1 success2 l n0 :
  (∀ i, success1 i = success2 i) →
  harvest cancel read total success1 l n0 = harvest cancel read total success2 l n0.
Proof.
  intros Hext. revert read n0. induction l as [|i l IH]; intros read n0; [done|].
  simpl. by rewrite Hext, IH.
Qed.

Lemma run_tasks_fixed task sub df :
  Forall (λ i, ∀ result, task i = Some result → htr_store df i result = df) sub →
  run_tasks task sub df = df.
Proof.
  induction 1 as [|j sub Hj Hsub IH]; [done|].
  rewrite run_tasks_cons. destruct (task j) as [result|] eqn:Htask; [|done].
  by rewrite (Hj result).
Qed.

(** After its tasks the frame holds, for each page whose task succeeded,
    the text and the toggle, in columns that are there. *)
Lemma run_tasks_stored task sub df i result :
  Forall (λ j, j < length (rows df)) sub →
  task i = Some result → i ∈ sub →
  let df' := run_tasks task sub df in
  "Original_Text"%string ∈ columns df' ∧ "Text_Toggle"%string ∈ columns df'
  ∧ cell_at df' i "Original_Text" = Some (CStr result)
  ∧ cell_at df' i "Text_Toggle" = Some (CStr (str "Original_Text")).
Proof.
  intros Hsub Hi. cbv zeta. revert df Hsub.
  induction sub as [|j sub IH]; intros df Hsub Hin.
  - by apply elem_of_nil in Hin.
  - apply Forall_cons in Hsub as [Hj Hsub]. rewrite run_tasks_cons.
    destruct (decide (j = i)) as [->|Hne].
    + rewrite Hi.
      cut (length (rows (run_tasks task sub (htr_store df i result)))
             = length (rows df)
           ∧ "Original_Text"%string ∈ columns (run_tasks task sub (htr_store df i result))
           ∧ "Text_Toggle"%string ∈ columns (run_tasks task sub (htr_store df i result))
           ∧ cell_at (run_tasks task sub (htr_store df i result)) i "Original_Text"
             = Some (CStr result)
           ∧ cell_at (run_tasks task sub (htr_store df i result)) i "Text_Toggle"
             = Some (CStr (str "Original_Text"))); [tauto|].
      apply (run_tasks_invariant (λ df',
        length (rows df') = length (rows df)
        ∧ "Original_Text"%string ∈ columns df'
        ∧ "Text_Toggle"%string ∈ columns df'
        ∧ cell_at df' i "Original_Text" = Some (CStr result)
        ∧ cell_at df' i "Text_Toggle" = Some (CStr (str "Original_Text")))).
      * destruct (two_writes_frame df i "Original_Text" (CStr result)
          (CStr (str "Original_Text")) Hj) as (Hl & _ & _ & Hc & H1 & H2).
        unfold htr_store. split_and!; [done| | |by apply H1|done].
        -- apply Hc. right. by left.
        -- apply Hc. right. by right.
      * intros df' k res (Hl & Hc1 & Hc2 & H1 & H2) Hk Htask.
        rewrite Forall_forall in Hsub. specialize (Hsub k Hk).
        destruct (two_writes_frame df' k "Original_Text" (CStr res)
          (CStr (str "Original_Text"))) as (Hl' & _ & Hr' & Hc' & H1' & H2');
          [lia|].
        unfold htr_store. split_and!; [lia| | | |].
        -- apply Hc'. by left.
        -- apply Hc'. by left.
        -- destruct (decide (k = i)) as [->|Hki].
           ++ rewrite Hi in Htask. injection Htask as <-. by apply H1'.
           ++ unfold cell_at in *. by rewrite Hr'.
        -- destruct (decide (k = i)) as [->|Hki]; [done|].
           unfold cell_at in *. by rewrite Hr'.
    + apply elem_of_cons in Hin as [?|Hin]; [congruence|].
      destruct (task j) as [res|]; [|by apply IH].
      destruct (two_writes_frame df j "Original_Text" (CStr res)
        (CStr (str "Original_Text")) Hj) as (Hl & _).
      apply IH; [|done]. unfold htr_store. by rewrite Hl.
Qed.

Lemma process_single_page_htr_image E mw cols cols' page_data page_data' i :
  series_get cols' page_data' "Image_Path" (CStr [])
  = series_get cols page_data "Image_Path" (CStr []) →
  process_single_page_htr E mw cols' page_data' i
  = process_single_page_htr E mw cols page_data i.
Proof. unfold process_single_page_htr. by intros ->. Qed.

(** X24: running the HTR job a second time, uncancelled both times and with
    the provider answering as before, changes nothing: the second job, on
    the frame the first one handed back, succeeds on the same pages, emits
    the same signals, and hands back a frame equal to the one it started
    from. *)
Theorem htr_rerun_same E as_completed self self' w d df :
  data self = Some d → heap w !! d = Some df → df_empty df = false →
  let first := process_htr_all E None as_completed self w in
  let second := process_htr_all E None as_completed self' first.1 in
  data self' = main_df (window first.1) →
  second.2 = first.2
  ∧ store second.1 = store first.1
  ∧ (∀ i, (store first.1 ≫= λ df1, htr_task E (window first.1) df1 i)
          = htr_task E (window w) df i).
Proof.
  intros Hd Hdf Hne. cbv zeta.
  rewrite (process_htr_all_eq E None as_completed self w d df Hd Hdf Hne).
  cbv zeta. rewrite submit_pages_never. cbn [is_cancelled negb fst snd].
  set (task := htr_task E (window w) df).
  set (df1 := run_tasks task (range 0 (df_len df)) df).
  set (w1 := set_heap w (<[d := df1]> (heap w))).
  destruct (sync_dataframe_store d w1 df1) as [Hs _];
    [by simpl; rewrite lookup_insert_eq|].
  assert (settings (window (sync_dataframe_to_main_window d w1))
          = settings (window w)) as Hset.
  { unfold sync_dataframe_to_main_window, w1. simpl. rewrite lookup_insert_eq.
    simpl. by destruct (data_operations (window w)). }
  set (w' := sync_dataframe_to_main_window d w1) in *.
  intros Hd'.
  assert (Forall (λ j, j < length (rows df)) (range 0 (df_len df))) as Hrange.
  { apply Forall_forall. intros j Hj. unfold range in Hj.
    apply elem_of_seq in Hj. unfold df_len in Hj. lia. }
  assert (written_only "Original_Text" df df1) as (Hlen & Hin & Hout & Hcell).
  { apply (run_tasks_invariant (written_only "Original_Text" df)).
    - apply written_only_refl.
    - intros df' i result Hdf' Hi _. apply written_only_step; [done|].
      unfold range in Hi. apply elem_of_seq in Hi. lia. }
  assert (df_empty df1 = false) as Hne1.
  { unfold df_empty in *. apply orb_false_iff in Hne as [H1 H2].
    apply Nat.eqb_neq in H1, H2. apply orb_false_iff.
    split; apply Nat.eqb_neq; [unfold df_len in Hlen; lia|].
    destruct (columns df) as [|c cs] eqn:Hcs; [done|].
    assert (c ∈ columns df1) as Hc by (apply Hin; by left).
    destruct (columns df1); [by apply elem_of_nil in Hc|done]. }
  assert (∀ i, htr_task E (window w') df1 i = task i) as Htask.
  { intros i. unfold task, htr_task.
    destruct (rows df !! i) as [r|] eqn:Hr.
    2: { rewrite (proj2 (lookup_ge_None (rows df1) i)); [done|].
         apply lookup_ge_None in Hr. unfold df_len in Hlen. lia. }
    destruct (lookup_lt_is_Some_2 (rows df1) i) as [r1 Hr1].
    { apply lookup_lt_Some in Hr. unfold df_len in Hlen. lia. }
    rewrite Hr1. simpl.
    assert (process_single_page_htr E (window w') = process_single_page_htr E (window w))
      as ->.
    { unfold process_single_page_htr. by rewrite Hset. }
    apply process_single_page_htr_image. unfold series_get.
    specialize (Hcell i "Image_Path"%string).
    unfold cell_at in Hcell. rewrite Hr, Hr1 in Hcell. simpl in Hcell.
    rewrite Hcell by done.
    destruct (decide ("Image_Path"%string ∈ columns df)) as [Hc|Hc].
    - by rewrite !bool_decide_eq_true_2 by auto.
    - rewrite !bool_decide_eq_false_2; [done|done|].
      intros Hc1. apply Hout in Hc1 as [?|[?|?]]; done. }
  unfold store in Hs. destruct (main_df (window w')) as [r1|] eqn:Hr1; [|done].
  simpl in Hs.
  rewrite (process_htr_all_eq E None as_completed self' w' r1 df1 Hd' Hs Hne1).
  cbv zeta. rewrite submit_pages_never. cbn [is_cancelled negb fst snd].
  rewrite Hlen.
  rewrite (run_tasks_ext _ task) by done.
  rewrite (harvest_ext _ _ _ (htr_succeeds E (window w') df1)
             (htr_succeeds E (window w) df)).
  2: { intros i. unfold htr_succeeds. by rewrite Htask. }
  assert (run_tasks task (range 0 (df_len df)) df1 = df1) as Hfix.
  { apply run_tasks_fixed. apply Forall_forall. intros i Hi result Hres.
    destruct (run_tasks_stored task (range 0 (df_len df)) df i result Hrange Hres Hi)
      as (H1 & H2 & H3 & H4).
    by apply htr_store_id. }
  rewrite Hfix, (set_heap_id w' df1 r1 Hs).
  split_and!; [done| |].
  - destruct (sync_dataframe_store r1 w' df1 Hs) as [-> _].
    unfold store. by rewrite Hr1.
  - intros i. unfold store. rewrite Hr1. simpl. rewrite Hs. simpl. apply Htask.
Qed.

Lemma htr_rerun_same_witness :
  let first :=
    process_htr_all Scenario.E0 None reverse Scenario.htr_thread
      Scenario.three_page_world in
  let second :=
    process_htr_all Scenario.E0 None reverse
      {| operation_type := htr_all; data := Some 1; isRunning := true |} first.1 in
  second.2 = first.2 ∧ store second.1 = store first.1.
Proof.
  destruct (htr_rerun_same Scenario.E0 reverse Scenario.htr_thread
              {| operation_type := htr_all; data := Some 1; isRunning := true |}
              Scenario.three_page_world 0 Scenario.three_page_frame)
    as (H1 & H2 & _).
  - reflexivity.
  - reflexivity.
  - reflexivity.
  - evaluated.
  - split; [exact H1|exact H2].
Defined.

End Rerun.

(** ** One import after another *)
Section ImportTwice.
Import PyStr Spec ArchiveStudio More.

(** X25: two imports that nothing stops, one after the other.  The second
    continues where the first ended: the store then has the rows of
    before, the pages of the first document and the pages of the second,
    and the page at position [L + k] carries the index [L + k] and the
    token of [L + k], [L] being the length the store had at the start.
    The images of the second import are named from [L + n1] on, into the
    directory the first import has set: no file name of the first import is
    used again.  The rows of before keep their cells, and read as before
    in every column the old frame had; the frame now has the base columns
    too, and in a base column that the old frame lacked an old row reads
    NaN, no longer the default. *)
Theorem import_twice E pages1 pages2 path1 path2 cancel1 cancel2 w df0 :
  store w = Some df0 → pages1 ≠ [] → pages2 ≠ [] →
  Forall (λ pg, page_ok pg = true) pages1 →
  Forall (λ pg, page_ok pg = true) pages2 →
  is_cancelled cancel1 (loop_reads (length pages1)) = false →
  is_cancelled cancel2 (loop_reads (length pages2)) = false →
  let first := PDFImportThread_run E (Ok pages1) path1 cancel1 w in
  let second := PDFImportThread_run E (Ok pages2) path2 cancel2 first.1.1 in
  let L := df_len df0 in
  let n1 := length pages1 in
  let n2 := length pages2 in
  let dir := (ensure_images_directory E path1 (window w)).2 in
  length (store_rows second.1.1) = L + n1 + n2
  ∧ (∀ i, i < L → store_rows second.1.1 !! i = rows df0 !! i)
  ∧ (∀ k, k < n1 + n2 →
       (store_rows second.1.1 !! (L + k) ≫= λ r, r !! "Index"%string)
       = Some (CInt (L + k))
       ∧ (store_rows second.1.1 !! (L + k) ≫= λ r, r !! "Page"%string)
         = Some (CStr (new_page_num_str (L + k))))
  ∧ page_counter (window second.1.1) = L + n1
  ∧ first.2 = (λ k, os_path_join E dir (image_filename (L + k))) <$> seq 0 n1
  ∧ (dir ≠ [] →
     second.2
     = (λ k, os_path_join E dir (image_filename (L + n1 + k))) <$> seq 0 n2)
  ∧ (∀ k k', k < n1 → image_filename (L + k) ≠ image_filename (L + n1 + k'))
  ∧ (∃ df2,
       store second.1.1 = Some df2
       ∧ (∀ x, x ∈ columns df2 ↔ x ∈ columns df0 ∨ x ∈ base_columns)
       ∧ (∀ i row col,
            rows df0 !! i = Some row →
            col ∈ columns df0 ∨ col ∉ base_columns →
            rows df2 !! i = Some row ∧ reads_as_before df0 df2 row col)
       ∧ (∀ i row col dflt,
            rows df0 !! i = Some row →
            col ∈ base_columns → col ∉ columns df0 → row !! col = None →
            series_get (columns df0) row col dflt = dflt
            ∧ series_get (columns df2) row col dflt = CNaN)).
Proof.
  intros Hdf Hne1 Hne2 Hok1 Hok2 Hc1 Hc2. cbv zeta.
  destruct (PDFImportThread_run_ok E pages1 path1 cancel1 w df0 Hdf Hne1 Hok1 Hc1)
    as (_ & Hsaved1 & Hstore1 & _ & _ & Himg1).
  set (w1 := (PDFImportThread_run E (Ok pages1) path1 cancel1 w).1.1) in *.
  set (dir := (ensure_images_directory E path1 (window w)).2) in *.
  set (df1 := pd_concat df0 _) in Hstore1.
  assert (df_len df1 = df_len df0 + length pages1) as Hlen1.
  { unfold df1, df_len, pd_concat. simpl.
    by rewrite length_app, length_fmap, length_seq. }
  destruct (PDFImportThread_run_ok E pages2 path2 cancel2 w1 df1 Hstore1 Hne2
              Hok2 Hc2) as (_ & Hsaved2 & Hstore2 & _ & Hpc2 & _).
  set (w2 := (PDFImportThread_run E (Ok pages2) path2 cancel2 w1).1.1) in *.
  set (dir2 := (ensure_images_directory E path2 (window w1)).2) in *.
  set (df2 := pd_concat df1 _) in Hstore2.
  assert (store_rows w2
          = (rows df0
             ++ (imported_row E (columns df0) dir pages1 (df_len df0)
                   <$> seq 0 (length pages1)))
            ++ (imported_row E (columns df1) dir2 pages2 (df_len df1)
                  <$> seq 0 (length pages2))) as Hrows.
  { unfold store_rows. by rewrite Hstore2. }
  rewrite Hrows. split_and!.
  - rewrite !length_app, !length_fmap, !length_seq. unfold df_len. lia.
  - intros i Hi. unfold df_len in Hi.
    rewrite lookup_app_l by (rewrite length_app; lia).
    by rewrite lookup_app_l.
  - intros k Hk. destruct (decide (k < length pages1)) as [Hlt|Hge].
    + rewrite lookup_app_l
        by (rewrite length_app, length_fmap, length_seq; unfold df_len; lia).
      rewrite lookup_app_r by (unfold df_len; lia).
      replace (df_len df0 + k - length (rows df0)) with k by (unfold df_len; lia).
      rewrite list_lookup_fmap, lookup_seq_lt by done. simpl.
      by rewrite imported_row_index, imported_row_page.
    + rewrite lookup_app_r
        by (rewrite length_app, length_fmap, length_seq; unfold df_len; lia).
      rewrite length_app, length_fmap, length_seq.
      replace (df_len df0 + k - (length (rows df0) + length pages1))
        with (k - length pages1) by (unfold df_len; lia).
      rewrite list_lookup_fmap, lookup_seq_lt by lia. simpl.
      rewrite imported_row_index, imported_row_page, Hlen1.
      by replace (df_len df0 + length pages1 + (k - length pages1))
        with (df_len df0 + k) by lia.
  - by rewrite Hpc2.
  - done.
  - intros Hdir. rewrite Hsaved2, Hlen1.
    assert (dir2 = dir) as ->; [|done].
    unfold dir2, ensure_images_directory. rewrite Himg1.
    by rewrite bool_decide_eq_false_2.
  - intros k k' Hk Heq. unfold image_filename in Heq.
    apply app_inv_tail, new_page_num_str_inj in Heq. lia.
  - exists df2.
    assert (∀ x, x ∈ columns df2 ↔ x ∈ columns df0 ∨ x ∈ base_columns) as Hcols.
    { intros x. unfold df2. rewrite pd_concat_columns. cbn [columns].
      rewrite new_row_columns_elem. unfold df1. rewrite pd_concat_columns.
      cbn [columns]. rewrite new_row_columns_elem. tauto. }
    split_and!; [done|done| |].
    + intros i row col Hrow Hcol. split.
      * unfold df2, df1, pd_concat. cbn [rows].
        rewrite lookup_app_l
          by (rewrite length_app; apply lookup_lt_Some in Hrow; lia).
        rewrite lookup_app_l by (by eapply lookup_lt_Some). done.
      * intros dflt. unfold series_get.
        destruct (decide (col ∈ columns df0)) as [Hc|Hc].
        -- rewrite !bool_decide_eq_true_2; [done|done|]. apply Hcols. by left.
        -- destruct Hcol as [?|Hb]; [done|].
           rewrite !bool_decide_eq_false_2; [done|done|].
           intros [?|?]%Hcols; done.
    + intros i row col dflt _ Hb Hc Hrow.
      apply new_column_reads_NaN; [done| |done]. apply Hcols. by right.
Qed.

Lemma import_twice_witness :
  let first :=
    PDFImportThread_run Scenario.E0 (Ok Scenario.seven_good_pages)
      Scenario.pdf_path None Scenario.w0 in
  let second :=
    PDFImportThread_run Scenario.E0 (Ok Scenario.seven_good_pages)
      Scenario.pdf_path None first.1.1 in
  length (store_rows second.1.1) = 2 + 7 + 7
  ∧ page_counter (window second.1.1) = 2 + 7.
Proof.
  destruct (import_twice Scenario.E0 Scenario.seven_good_pages
              Scenario.seven_good_pages Scenario.pdf_path Scenario.pdf_path
              None None Scenario.w0 Scenario.two_page_frame)
    as (H1 & _ & _ & H2 & _).
  - reflexivity.
  - done.
  - done.
  - repeat constructor.
  - repeat constructor.
  - reflexivity.
  - reflexivity.
  - split; [exact H1|exact H2].
Defined.

End ImportTwice.

(** ** An import that fails on a page *)
Section ImportFailure.
Import PyStr Spec ArchiveStudio More.

Lemma import_pages_prefix_eq E main_cols images_dir pages start_index page_nums st :
  Forall (λ n, ∃ pg, pages !! n = Some pg ∧ page_ok pg = true) page_nums →
  import_pages E main_cols images_dir pages start_index page_nums st
  = Done
      {| new_rows_list := new_rows_list st
           ++ (imported_row E main_cols images_dir pages start_index <$> page_nums);
         emitted := emitted st
           ++ ((λ n, progress_updated (n + 1) (length pages)
                       (str "Processing page " ++ dec (n + 1) ++ str " of "
                        ++ dec (length pages))) <$> page_nums);
         saved := saved st
           ++ ((λ n, os_path_join E images_dir (image_filename (start_index + n)))
                 <$> page_nums) |}.
Proof.
  intros Hin. revert st. induction Hin as [|n l (pg & Hpg & Hok) Hl IH]; intros st.
  - simpl. rewrite !app_nil_r. by destruct st.
  - simpl. rewrite (import_page_ok_eq _ _ _ _ _ _ _ pg Hpg Hok).
    rewrite IH. simpl. by rewrite <- !app_assoc.
Qed.

Lemma import_page_failure E main_cols images_dir pages start_index st k pg
    image_saved msg :
  pages !! k = Some pg → failure_of pg = Some (image_saved, msg) →
  import_page E main_cols images_dir pages start_index st k
  = Raised
      {| new_rows_list := new_rows_list st;
         emitted := emitted st
           ++ [progress_updated (k + 1) (length pages)
                 (str "Processing page " ++ dec (k + 1) ++ str " of "
                  ++ dec (length pages))];
         saved := saved st
           ++ (if image_saved
               then [os_path_join E images_dir (image_filename (start_index + k))]
               else []) |} msg.
Proof.
  unfold import_page, failure_of. intros -> H. simpl.
  destruct (get_pixmap pg); [|injection H as <- <-; by rewrite app_nil_r].
  destruct (save pg); [|injection H as <- <-; by rewrite app_nil_r].
  destruct (get_text pg); [done|]. by injection H as <- <-.
Qed.

(** X26: an import, not cancelled, of a document whose first page that
    makes PyMuPDF raise is page [k].  The run has by then written the
    images of the pages before [k], and the image of page [k] too when it
    was the text extraction that raised; these files stay where they are,
    although the store is left as it was and no row refers to them.  The
    signals are the start, the progress of the pages up to [k], and the
    import error with the message of the exception. *)
Theorem import_failure_leaves_images E pages pdf_path w df0 k pg image_saved msg :
  store w = Some df0 →
  (∀ j, j < k → ∃ pg', pages !! j = Some pg' ∧ page_ok pg' = true) →
  pages !! k = Some pg → failure_of pg = Some (image_saved, msg) →
  let dir := (ensure_images_directory E pdf_path (window w)).2 in
  let run := PDFImportThread_run E (Ok pages) pdf_path None w in
  let n := length pages in
  run.2
  = ((λ j, os_path_join E dir (image_filename (df_len df0 + j))) <$> seq 0 k)
    ++ (if image_saved
        then [os_path_join E dir (image_filename (df_len df0 + k))] else [])
  ∧ run.1.2
    = progress_updated 0 n (str "Starting PDF import...")
      :: ((λ j, progress_updated (j + 1) n
                  (str "Processing page " ++ dec (j + 1) ++ str " of " ++ dec n))
            <$> seq 0 (k + 1))
      ++ [import_error (str "Import error: " ++ msg)]
  ∧ store run.1.1 = Some df0
  ∧ heap run.1.1 = heap w.
Proof.
  intros Hdf Hbefore Hk Hfail. cbv zeta. unfold PDFImportThread_run.
  pose proof (ensure_images_directory_main_df E pdf_path (window w)) as [Hmain _].
  destruct (ensure_images_directory E pdf_path (window w)) as [mw1 dir] eqn:Hens.
  simpl in Hmain. pose proof (store_set_window w mw1 Hmain) as Hstore.
  rewrite Hstore, Hdf.
  set (st0 := {| new_rows_list := []; emitted := _; saved := [] |}).
  pose proof (import_batches_never E (columns df0) dir pages (df_len df0)
    (range_step (length pages) batch_size) 0 st0) as Hnever.
  change (range_step (length pages) batch_size ≫= _)
    with (batched_pages (length pages)) in Hnever.
  rewrite batched_pages_seq in Hnever.
  assert (k < length pages) as Hlt by (by eapply lookup_lt_Some).
  replace (length pages) with (k + S (length pages - S k)) in Hnever at 2 by lia.
  rewrite seq_app in Hnever. cbn [seq] in Hnever.
  rewrite import_pages_app, import_pages_prefix_eq in Hnever.
  2: { apply Forall_forall. intros j Hj. apply elem_of_seq in Hj.
       apply Hbefore. lia. }
  cbn [import_pages] in Hnever.
  rewrite (import_page_failure _ _ _ _ _ _ _ pg image_saved msg Hk Hfail) in Hnever.
  destruct (import_batches _ _ _ _ _ _ _ _ _) as [o read]. cbn [fst] in Hnever.
  subst o. cbn [fst snd emitted saved]. unfold st0. cbn [emitted saved].
  split_and!; [done| |by rewrite Hstore|done].
  rewrite seq_app, fmap_app. cbn [seq fmap list_fmap].
  by rewrite <- !app_assoc.
Qed.

Lemma import_failure_leaves_images_witness :
  (PDFImportThread_run Scenario.E0 (Ok Scenario.seven_pages) Scenario.pdf_path
     None Scenario.w0).2
  = [str "/docs/images/0003_p003.jpg"; str "/docs/images/0004_p004.jpg";
     str "/docs/images/0005_p005.jpg"].
Proof.
  destruct (import_failure_leaves_images Scenario.E0 Scenario.seven_pages
              Scenario.pdf_path Scenario.w0 Scenario.two_page_frame 3
              Scenario.unrenderable_page false (str "cannot render page"))
    as (H & _).
  - reflexivity.
  - intros j Hj. destruct j as [|[|[|j]]]; [| | |lia]; by eexists.
  - reflexivity.
  - reflexivity.
  - rewrite H. reflexivity.
Defined.

End ImportFailure.

(** ** The rows an import appends *)
Section ImportOrder.
Import PyStr Spec ArchiveStudio More.

Context (E : Environment) (main_cols : list string) (images_dir : pystr).
Context (pages : list pdf_page) (start_index : nat).

Abbreviation is_progress := (λ s : signal, ∃ a b c, s = progress_updated a b c).

(** The loops emit progress signals and nothing else. *)
Lemma import_page_progress st n :
  Forall is_progress (emitted st) →
  match import_page E main_cols images_dir pages start_index st n with
  | Done st' | Raised st' _ => Forall is_progress (emitted st')
  end.
Proof.
  intros Hst.
  assert (Forall is_progress
            (emitted st ++
               [progress_updated (n + 1) (length pages)
                  (str "Processing page " ++ dec (n + 1) ++ str " of "
                   ++ dec (length pages))])) as Hst1.
  { apply Forall_app. split; [done|]. repeat constructor. by eexists _, _, _. }
  unfold import_page. destruct (pages !! n) as [pg|]; [|done]. simpl.
  destruct (get_pixmap pg); [|done]. destruct (save pg); [|done].
  by destruct (get_text pg).
Qed.

Lemma import_batch_progress c page_nums read st :
  Forall is_progress (emitted st) →
  match (import_batch E c main_cols images_dir pages start_index page_nums read
           st).1 with
  | Done st' | Raised st' _ => Forall is_progress (emitted st')
  end.
Proof.
  revert read st. induction page_nums as [|n l IH]; intros read st Hst; [done|].
  simpl. destruct (is_cancelled c read); [done|].
  pose proof (import_page_progress st n Hst) as Hp.
  destruct (import_page _ _ _ _ _ st n) as [st1|st1 msg]; [by apply IH|done].
Qed.

Lemma import_batches_progress c batch_starts read st :
  Forall is_progress (emitted st) →
  match (import_batches E c main_cols images_dir pages start_index batch_starts
           read st).1 with
  | Done st' | Raised st' _ => Forall is_progress (emitted st')
  end.
Proof.
  revert read st. induction batch_starts as [|b l IH]; intros read st Hst; [done|].
  cbn [import_batches]. destruct (is_cancelled c read); [done|].
  pose proof (import_batch_progress c
    (range b (min (b + batch_size) (length pages))) (S read) st Hst) as Hb.
  destruct (import_batch _ _ _ _ _ _ _ (S read) st) as [[st1|st1 msg] read1];
    [by apply IH|done].
Qed.

Lemma no_completion_report (sigs : list signal) msg' :
  Forall is_progress sigs →
  ∀ msg, import_complete msg ∉ sigs ++ [import_error msg'].
Proof.
  intros Hsigs msg [Hin|Hin%list_elem_of_singleton]%elem_of_app; [|done].
  rewrite Forall_forall in Hsigs. by destruct (Hsigs _ Hin) as (a & b & c & ?).
Qed.

(** Pages that were all seen through did not make PyMuPDF raise. *)
Lemma import_pages_done_ok page_nums st st' :
  import_pages E main_cols images_dir pages start_index page_nums st = Done st' →
  Forall (λ n, ∃ pg, pages !! n = Some pg ∧ page_ok pg = true) page_nums.
Proof.
  revert st. induction page_nums as [|n l IH]; intros st; [by constructor|].
  simpl.
  destruct (import_page _ _ _ _ _ st n) as [st1|] eqn:Hp; [|done].
  intros H. apply import_page_done in Hp as [_ Hp]. constructor; [done|].
  by apply (IH st1).
Qed.

End ImportOrder.

Section ImportOrderClaim.
Import PyStr Spec ArchiveStudio More.

(** C7: whatever the document, the flag and the world, the rows of the
    store after the run are the rows before it followed by the added ones,
    and the added rows carry the indices [L, L+1, ...] with [L] the length
    before.  Rows are added only all together: either none is added, and
    then no completion is reported, or the store was there, the document
    has pages, none of them made PyMuPDF raise, the flag was not set before
    the loops' last read, and there is one added row for each page of the
    source in page order, with the report giving their number.  Whenever
    these conditions hold the rows of all pages are added.  And when each
    row's index was its position before the run, so it is after it: no
    index is used twice. *)
Theorem import_appends_in_order E document pdf_path cancel w :
  let '(w', sigs, _) := PDFImportThread_run E document pdf_path cancel w in
  let L := length (store_rows w) in
  let dir := (ensure_images_directory E pdf_path (window w)).2 in
  ∃ added,
    store_rows w' = store_rows w ++ added
    ∧ (λ r : gmap string cell, r !! "Index"%string) <$> added
      = (λ i, Some (CInt i)) <$> seq L (length added)
    ∧ (added = [] ∧ (∀ msg, import_complete msg ∉ sigs)
       ∨ ∃ pages df0,
           document = Ok pages ∧ store w = Some df0 ∧ pages ≠ []
           ∧ Forall (λ pg, page_ok pg = true) pages
           ∧ is_cancelled cancel (loop_reads (length pages)) = false
           ∧ added = imported_row E (columns df0) dir pages L
                       <$> seq 0 (length pages)
           ∧ last sigs = Some (import_complete
               (str "PDF import completed: " ++ dec (length added)
                ++ str " pages imported")))
    ∧ (∀ pages df0,
         document = Ok pages → store w = Some df0 → pages ≠ [] →
         Forall (λ pg, page_ok pg = true) pages →
         is_cancelled cancel (loop_reads (length pages)) = false →
         added = imported_row E (columns df0) dir pages L <$> seq 0 (length pages))
    ∧ (indexed_by_position (store_rows w) →
       indexed_by_position (store_rows w')).
Proof.
  assert (∀ added : list (gmap string cell),
    (λ r : gmap string cell, r !! "Index"%string) <$> added
      = (λ i, Some (CInt i)) <$> seq (length (store_rows w)) (length added) →
    indexed_by_position (store_rows w) →
    indexed_by_position (store_rows w ++ added)) as Hkeep.
  { intros added Hadded Hold k r Hk.
    destruct (decide (k < length (store_rows w))) as [Hlt|Hge].
    - rewrite lookup_app_l in Hk by done. by apply Hold.
    - rewrite lookup_app_r in Hk by lia.
      apply (f_equal (λ l, l !! (k - length (store_rows w)))) in Hadded.
      rewrite !list_lookup_fmap, Hk in Hadded. simpl in Hadded.
      rewrite lookup_seq_lt in Hadded
        by (apply lookup_lt_Some in Hk; lia).
      simpl in Hadded. injection Hadded as ->. do 2 f_equal. lia. }
  assert (∀ pages df0,
    document = Ok pages → store w = Some df0 → pages ≠ [] →
    Forall (λ pg, page_ok pg = true) pages →
    is_cancelled cancel (loop_reads (length pages)) = false →
    store_rows (PDFImportThread_run E document pdf_path cancel w).1.1
    = store_rows w
      ++ (imported_row E (columns df0)
            (ensure_images_directory E pdf_path (window w)).2 pages
            (length (store_rows w)) <$> seq 0 (length pages))) as Hall.
  { intros pages df0 -> Hdf Hne Hok Hc.
    destruct (PDFImportThread_run_ok E pages pdf_path cancel w df0 Hdf Hne Hok Hc)
      as (_ & _ & Hstore & _).
    unfold store_rows at 1. rewrite Hstore. unfold store_rows. by rewrite Hdf. }
  cut (let '(w', sigs, _) := PDFImportThread_run E document pdf_path cancel w in
       ∃ added,
         store_rows w' = store_rows w ++ added
         ∧ (λ r : gmap string cell, r !! "Index"%string) <$> added
           = (λ i, Some (CInt i)) <$> seq (length (store_rows w)) (length added)
         ∧ (added = [] ∧ (∀ msg, import_complete msg ∉ sigs)
            ∨ ∃ pages df0,
                document = Ok pages ∧ store w = Some df0 ∧ pages ≠ []
                ∧ Forall (λ pg, page_ok pg = true) pages
                ∧ is_cancelled cancel (loop_reads (length pages)) = false
                ∧ added = imported_row E (columns df0)
                            (ensure_images_directory E pdf_path (window w)).2
                            pages (length (store_rows w)) <$> seq 0 (length pages)
                ∧ last sigs = Some (import_complete
                    (str "PDF import completed: " ++ dec (length added)
                     ++ str " pages imported")))).
  { destruct (PDFImportThread_run _ _ _ _ _) as [[w' sigs] written].
    simpl in Hall.
    intros (added & Hrows & Hidx & Hadded). exists added.
    split_and!; [done|done|done| |rewrite Hrows; by apply Hkeep].
    intros pages df0 H1 H2 H3 H4 H5. specialize (Hall pages df0 H1 H2 H3 H4 H5).
    rewrite Hrows in Hall. by apply app_inv_head in Hall. }
  clear Hall.
  assert (∀ (w1 : World) (sigs : list signal) msg',
    store_rows w1 = store_rows w →
    Forall (λ s : signal, ∃ a b c, s = progress_updated a b c) sigs →
    ∃ added,
      store_rows w1 = store_rows w ++ added
      ∧ (λ r : gmap string cell, r !! "Index"%string) <$> added
        = (λ i, Some (CInt i)) <$> seq (length (store_rows w)) (length added)
      ∧ added = [] ∧ (∀ msg, import_complete msg ∉ sigs ++ [import_error msg']))
    as Hsame.
  { intros w1 sigs msg' Hw1 Hsigs. exists []. rewrite app_nil_r.
    split_and!; [done|done|done|]. by apply no_completion_report. }
  unfold PDFImportThread_run.
  destruct document as [pages|msg].
  2: { destruct (Hsame w [] (str "Import error: " ++ msg) eq_refl)
         as (a & ? & ? & ? & ?); [constructor|].
       exists a. split_and!; [done|done|by left]. }
  pose proof (ensure_images_directory_main_df E pdf_path (window w)) as [Hmain _].
  destruct (ensure_images_directory E pdf_path (window w)) as [mw1 dir] eqn:Hens.
  simpl in Hmain. pose proof (store_set_window w mw1 Hmain) as Hstore.
  assert (store_rows (set_window w mw1) = store_rows w) as Hrows
    by (unfold store_rows; by rewrite Hstore).
  rewrite Hstore.
  set (started := [progress_updated 0 (length pages) (str "Starting PDF import...")]).
  assert (Forall (λ s : signal, ∃ a b c, s = progress_updated a b c) started)
    as Hstarted by (repeat constructor; by eexists _, _, _).
  destruct (store w) as [df0|] eqn:Hdf.
  2: { destruct (Hsame (set_window w mw1) started
                   (str "Import error: " ++ no_main_df) Hrows Hstarted)
         as (a & ? & ? & ? & ?).
       exists a. split_and!; [done|done|by left]. }
  set (st0 := {| new_rows_list := []; emitted := started; saved := [] |}).
  pose proof (import_batches_progress E (columns df0) dir pages (df_len df0)
    cancel (range_step (length pages) batch_size) 0 st0 Hstarted) as Hprogress.
  destruct (import_batches _ _ _ _ _ _ _ _ _) as [[st|st msg] read] eqn:Hb;
    cbn [fst] in Hprogress.
  2: { destruct (Hsame (set_window w mw1) (emitted st)
                   (str "Import error: " ++ msg) Hrows Hprogress)
         as (a & ? & ? & ? & ?).
       exists a. split_and!; [done|done|by left]. }
  assert (∀ msg',
    ∃ added,
      store_rows (set_window w mw1) = store_rows w ++ added
      ∧ (λ r : gmap string cell, r !! "Index"%string) <$> added
        = (λ i, Some (CInt i)) <$> seq (length (store_rows w)) (length added)
      ∧ added = [] ∧ (∀ msg, import_complete msg ∉ emitted st ++ [import_error msg']))
    as Hnone by (intros msg'; by apply Hsame).
  destruct (is_cancelled cancel read) eqn:Hc; cbn [negb andb].
  { destruct (is_cancelled cancel (S read));
      [destruct (Hnone (str "Import cancelled by user")) as (a & ? & ? & ? & ?)
      |destruct (Hnone (str "No pages were imported")) as (a & ? & ? & ? & ?)];
      exists a; split_and!; [done|done|by left|done|done|by left]. }
  case_bool_decide as Hnew; cbn [negb].
  { destruct (is_cancelled cancel (S read));
      [destruct (Hnone (str "Import cancelled by user")) as (a & ? & ? & ? & ?)
      |destruct (Hnone (str "No pages were imported")) as (a & ? & ? & ? & ?)];
      exists a; split_and!; [done|done|by left|done|done|by left]. }
  destruct (import_batches_done _ _ _ _ _ _ _ _ _ _ _ Hb Hc) as [Hturn Hread].
  change (range_step (length pages) batch_size ≫= _)
    with (batched_pages (length pages)) in Hturn, Hread.
  rewrite batched_pages_seq in Hturn. rewrite batched_pages_seq, length_seq in Hread.
  pose proof (import_pages_done_ok _ _ _ _ _ _ _ _ Hturn) as Hok.
  apply import_pages_done in Hturn. unfold st0 in Hturn. simpl in Hturn.
  assert (store_rows w = rows df0) as HL by (unfold store_rows; by rewrite Hdf).
  exists (new_rows_list st). cbn [alloc].
  unfold store_rows at 1, store. simpl. rewrite lookup_insert_eq. simpl.
  rewrite HL. split; [done|]. split.
  - rewrite Hturn, <- !list_fmap_compose, length_fmap, length_seq.
    replace (length (rows df0)) with (length (rows df0) + 0) at 1 by lia.
    rewrite <- fmap_add_seq, <- list_fmap_compose.
    apply list_fmap_ext. intros _ n _. simpl. by rewrite imported_row_index.
  - right. exists pages, df0. unfold df_len in Hturn. rewrite <- Hturn.
    split_and!; [done|done| | | |done|by rewrite last_snoc].
    + intros ->. apply Hnew. by rewrite Hturn.
    + apply Forall_lookup. intros i pg Hi.
      rewrite Forall_forall in Hok. destruct (Hok i) as (pg' & Hi' & Hpg').
      { apply elem_of_seq. apply lookup_lt_Some in Hi. lia. }
      congruence.
    + subst read. exact Hc.
Qed.

End ImportOrderClaim.

(** ** An import that is cancelled *)
Section ImportCancelled.
Import PyStr Spec ArchiveStudio More.

Context (E : Environment) (main_cols : list string) (images_dir : pystr).
Context (pages : list pdf_page) (start_index : nat).

(** The pages of a batch that come before the read [t] are seen through;
    the loop then either has read the flag unset before every page, or has
    seen it set. *)
Lemma import_batch_cancelled t len a read st :
  let run :=
    import_batch E (Some t) main_cols images_dir pages start_index (seq a len)
      read st in
  run.1
  = import_pages E main_cols images_dir pages start_index
      (seq a (min len (t - read))) st
  ∧ (∀ st', run.1 = Done st' →
       read + len ≤ t ∧ run.2 = read + len ∨ t < read + len ∧ t < run.2).
Proof.
  cbv zeta. revert a read st. induction len as [|len IH]; intros a read st.
  - simpl. split; [done|]. intros st' _.
    destruct (decide (read ≤ t)); [left|right]; lia.
  - cbn [seq import_batch is_cancelled]. destruct (t <=? read) eqn:Ht.
    + apply Nat.leb_le in Ht. replace (t - read) with 0 by lia. simpl.
      split; [done|]. intros st' _. right. lia.
    + apply Nat.leb_gt in Ht.
      replace (min (S len) (t - read)) with (S (min len (t - S read))) by lia.
      cbn [seq import_pages].
      destruct (import_page _ _ _ _ _ st a) as [st1|st1 msg].
      * destruct (IH (S a) (S read) st1) as [H1 H2]. split; [done|].
        intros st' Hst'. destruct (H2 st' Hst') as [[??]|[??]]; [left|right]; lia.
      * simpl. split; [done|]. intros st' Hst'. discriminate Hst'.
Qed.

(** The batches from the batch [c] on, each but the last a full one. *)
Lemma import_batches_cancelled t nb c st :
  nb = 0 ∨ (c + nb - 1) * 5 < length pages →
  (import_batches E (Some t) main_cols images_dir pages start_index
     ((λ k, k * 5) <$> seq c nb) (c * 6) st).1
  = import_pages E main_cols images_dir pages start_index
      (seq (c * 5)
         (min (min (nb * 5) (length pages - c * 5)) (pages_reached t - c * 5)))
      st.
Proof.
  unfold pages_reached, batch_size. change (5 + 1) with 6.
  pose proof (Nat.div_mod_eq (t + 5) 6) as Hq.
  pose proof (Nat.mod_upper_bound (t + 5) 6) as Hr.
  set (q := (t + 5) / 6) in *. set (r := (t + 5) mod 6) in *.
  clearbody q r. specialize (Hr ltac:(lia)).
  revert c st. induction nb as [|nb IH]; intros c st Hfull; [done|].
  cbn [seq fmap list_fmap import_batches is_cancelled].
  destruct (t <=? c * 6) eqn:Ht.
  { apply Nat.leb_le in Ht.
    replace (min _ (t - q - c * 5)) with 0 by lia. done. }
  apply Nat.leb_gt in Ht. unfold range, batch_size.
  set (len := min (c * 5 + 5) (length pages) - c * 5).
  assert (len = min (c * 5 + 5) (length pages) - c * 5) as Hlen by done.
  clearbody len.
  destruct (import_batch_cancelled t len (c * 5) (S (c * 6)) st) as [Hb1 Hb2].
  destruct (import_batch _ _ _ _ _ _ _ (S (c * 6)) st) as [[st1|st1 msg] read1].
  - cbn [fst snd] in Hb1, Hb2.
    destruct (Hb2 st1 eq_refl) as [[Hle ->]|[Hlt Hread]].
    + destruct nb as [|nb].
      * cbn [seq fmap list_fmap import_batches fst]. rewrite Hb1. f_equal. f_equal. lia.
      * assert (len = 5) as -> by lia.
        replace (S (c * 6) + 5) with (S c * 6) by lia.
        rewrite (IH (S c) st1) by lia.
        replace (min (min (S (S nb) * 5) (length pages - c * 5)) (t - q - c * 5))
          with (5 + min (min (S nb * 5) (length pages - S c * 5))
                        (t - q - S c * 5)) by lia.
        rewrite seq_app, import_pages_app.
        replace (min 5 (t - S (c * 6))) with 5 in Hb1 by lia.
        rewrite <- Hb1. by replace (c * 5 + 5) with (S c * 5) by lia.
    + assert ((import_batches E (Some t) main_cols images_dir pages start_index
                 ((λ k, k * 5) <$> seq (S c) nb) read1 st1).1 = Done st1) as ->.
      { destruct nb as [|nb]; [done|].
        cbn [seq fmap list_fmap import_batches is_cancelled].
        by rewrite (proj2 (Nat.leb_le t read1)) by lia. }
      rewrite Hb1. f_equal. f_equal. lia.
  - cbn [fst] in Hb1. cbn [fst].
    replace (min (min (S nb * 5) (length pages - c * 5)) (t - q - c * 5))
      with (min len (t - S (c * 6))
            + (min (min (S nb * 5) (length pages - c * 5)) (t - q - c * 5)
               - min len (t - S (c * 6)))) by lia.
    by rewrite seq_app, import_pages_app, <- Hb1.
Qed.

(** The loops of an import whose flag is set before the read [t] see
    through the pages reached by then, and no other. *)
Lemma import_batches_reached t st :
  (import_batches E (Some t) main_cols images_dir pages start_index
     (range_step (length pages) batch_size) 0 st).1
  = import_pages E main_cols images_dir pages start_index
      (seq 0 (min (length pages) (pages_reached t))) st.
Proof.
  pose proof (import_batches_cancelled t ((length pages + 5 - 1) / 5) 0 st) as H.
  cbn [Nat.mul] in H. rewrite !Nat.sub_0_r in H.
  unfold range_step, batch_size.
  pose proof (Nat.div_mod_eq (length pages + 5 - 1) 5) as Hq.
  pose proof (Nat.mod_upper_bound (length pages + 5 - 1) 5) as Hr.
  set (nb := (length pages + 5 - 1) / 5) in *.
  set (r := (length pages + 5 - 1) mod 5) in *. clearbody nb r.
  specialize (Hr ltac:(lia)). rewrite H by lia.
  do 2 f_equal. lia.
Qed.

End ImportCancelled.

Section ImportCancelledClaim.
Import PyStr Spec ArchiveStudio More.

(** C10, as the program has it: an import whose flag is set before the
    loops have made their last read leaves the store exactly as it was,
    whatever had been rasterized by then: the frames, [main_df] and the
    page counter are untouched.  Its last signal depends on the pages
    reached before the flag was seen, which are the first
    [pages_reached t] pages.  When none of them makes PyMuPDF raise, the
    run reports the start and each of these pages, and ends with the error
    "Import cancelled by user"; their images are on disk.  When one of them
    raises, the run ends at the first such page with the import error that
    carries the message of the exception, and not with the
    cancellation. *)
Theorem import_cancelled_discards E pages pdf_path t w :
  t ≤ loop_reads (length pages) →
  let run := PDFImportThread_run E (Ok pages) pdf_path (Some t) w in
  let n := length pages in
  let reached := min n (pages_reached t) in
  let dir := (ensure_images_directory E pdf_path (window w)).2 in
  let started := progress_updated 0 n (str "Starting PDF import...") in
  heap run.1.1 = heap w
  ∧ main_df (window run.1.1) = main_df (window w)
  ∧ page_counter (window run.1.1) = page_counter (window w)
  ∧ store_rows run.1.1 = store_rows w
  ∧ (is_Some (store w) →
     Forall (λ pg, page_ok pg = true) (take reached pages) →
     run.1.2
     = started :: (processing_page n <$> seq 0 reached)
       ++ [import_error (str "Import cancelled by user")]
     ∧ run.2
       = (λ k, os_path_join E dir (image_filename (length (store_rows w) + k)))
           <$> seq 0 reached)
  ∧ (∀ k pg image_saved msg,
       is_Some (store w) → k < reached →
       pages !! k = Some pg → failure_of pg = Some (image_saved, msg) →
       Forall (λ pg, page_ok pg = true) (take k pages) →
       run.1.2
       = started :: (processing_page n <$> seq 0 (k + 1))
         ++ [import_error (str "Import error: " ++ msg)]).
Proof.
  intros Ht. cbv zeta. unfold PDFImportThread_run.
  pose proof (ensure_images_directory_main_df E pdf_path (window w)) as [Hmain Hpc].
  destruct (ensure_images_directory E pdf_path (window w)) as [mw1 dir] eqn:Hens.
  simpl in Hmain, Hpc. pose proof (store_set_window w mw1 Hmain) as Hstore.
  assert (store_rows (set_window w mw1) = store_rows w) as Hrows
    by (unfold store_rows; by rewrite Hstore).
  rewrite Hstore. destruct (store w) as [df0|] eqn:Hdf.
  2: { split_and!; [done|done|done|done| |]; [by intros [??]|].
       by intros k pg image_saved msg [??]. }
  assert (length (store_rows w) = df_len df0) as HL
    by (unfold store_rows; by rewrite Hdf).
  rewrite HL. cbn [snd].
  set (st0 := {| new_rows_list := []; emitted := _; saved := [] |}).
  pose proof (import_batches_reached E (columns df0) dir pages (df_len df0) t st0)
    as Hreached.
  set (reached := min (length pages) (pages_reached t)) in *.
  assert (∀ k, k ≤ length pages →
    Forall (λ pg, page_ok pg = true) (take k pages) →
    Forall (λ j, ∃ pg, pages !! j = Some pg ∧ page_ok pg = true) (seq 0 k))
    as Hprefix.
  { intros k Hk Hok. apply Forall_forall. intros j Hj%elem_of_seq.
    destruct (lookup_lt_is_Some_2 pages j) as [pg Hpg]; [lia|].
    exists pg. split; [done|]. rewrite Forall_lookup in Hok. apply (Hok j).
    by rewrite lookup_take_lt by lia. }
  assert (Forall (λ pg, page_ok pg = true) (take reached pages) →
    import_pages E (columns df0) dir pages (df_len df0) (seq 0 reached) st0
    = Done
        {| new_rows_list :=
             imported_row E (columns df0) dir pages (df_len df0) <$> seq 0 reached;
           emitted :=
             progress_updated 0 (length pages) (str "Starting PDF import...")
             :: (processing_page (length pages) <$> seq 0 reached);
           saved :=
             (λ k, os_path_join E dir (image_filename (df_len df0 + k)))
               <$> seq 0 reached |}) as Hdone.
  { intros Hok. rewrite import_pages_prefix_eq; [done|].
    apply Hprefix; [unfold reached; lia|done]. }
  assert (∀ k pg image_saved msg,
    k < reached → pages !! k = Some pg →
    failure_of pg = Some (image_saved, msg) →
    Forall (λ pg, page_ok pg = true) (take k pages) →
    ∃ st',
      import_pages E (columns df0) dir pages (df_len df0) (seq 0 reached) st0
      = Raised st' msg
      ∧ emitted st'
        = progress_updated 0 (length pages) (str "Starting PDF import...")
          :: (processing_page (length pages) <$> seq 0 (k + 1))) as Hraised.
  { intros k pg image_saved msg Hk Hpg Hfail Hok.
    replace reached with (k + S (reached - S k)) by lia.
    rewrite seq_app. cbn [seq].
    rewrite import_pages_app, import_pages_prefix_eq.
    2: { apply Hprefix; [apply lookup_lt_Some in Hpg; lia|done]. }
    cbn [import_pages].
    rewrite (import_page_failure _ _ _ _ _ _ _ pg image_saved msg Hpg Hfail).
    eexists. split; [done|]. cbn [emitted st0].
    rewrite seq_app, fmap_app. cbn [seq fmap list_fmap app].
    by rewrite <- app_assoc. }
  destruct (import_batches _ _ _ _ _ _ _ _ _) as [[st|st msg] read] eqn:Hb;
    cbn [fst] in Hreached.
  - assert (is_cancelled (Some t) read = true) as Hc.
    { destruct (is_cancelled (Some t) read) eqn:Hc; [done|].
      destruct (import_batches_done _ _ _ _ _ _ _ _ _ _ _ Hb Hc) as [_ Hread].
      change (range_step (length pages) batch_size ≫= _)
        with (batched_pages (length pages)) in Hread.
      rewrite batched_pages_seq, length_seq in Hread.
      unfold loop_reads in Ht. simpl in Hc. apply Nat.leb_gt in Hc. lia. }
    rewrite Hc, (is_cancelled_mono (Some t) read (S read)) by (lia || done).
    cbn [negb andb fst snd]. split_and!; [done|done|done|done| |].
    + intros _ Hok. rewrite (Hdone Hok) in Hreached. injection Hreached as ->.
      cbn [emitted saved]. split; [|done]. by rewrite app_comm_cons.
    + intros k pg image_saved msg _ Hk Hpg Hfail Hok.
      destruct (Hraised k pg image_saved msg Hk Hpg Hfail Hok) as (st' & H & _).
      rewrite H in Hreached. discriminate Hreached.
  - cbn [fst snd]. split_and!; [done|done|done|done| |].
    + intros _ Hok. rewrite (Hdone Hok) in Hreached. discriminate Hreached.
    + intros k pg image_saved msg' _ Hk Hpg Hfail Hok.
      destruct (Hraised k pg image_saved msg' Hk Hpg Hfail Hok) as (st' & H & He).
      rewrite H in Hreached. injection Hreached as -> ->.
      rewrite He. by rewrite app_comm_cons.
Qed.

(** Seven pages, the fourth of which cannot be rendered, cancelled before
    the second page: the bad page is never reached. *)
Lemma import_cancelled_discards_witness :
  let run :=
    PDFImportThread_run Scenario.E0 (Ok Scenario.seven_pages) Scenario.pdf_path
      (Some 2) Scenario.w0 in
  store_rows run.1.1 = store_rows Scenario.w0
  ∧ run.1.2
    = [progress_updated 0 7 (str "Starting PDF import...");
       progress_updated 1 7 (str "Processing page 1 of 7");
       import_error (str "Import cancelled by user")]
  ∧ run.2 = [str "/docs/images/0003_p003.jpg"].
Proof.
  destruct (import_cancelled_discards Scenario.E0 Scenario.seven_pages
              Scenario.pdf_path 2 Scenario.w0) as (_ & _ & _ & H4 & H5 & _).
  - vm_compute. lia.
  - destruct H5 as [H5 H6].
    + by eexists.
    + repeat constructor.
    + split; [exact H4|]. split; [exact H5|exact H6].
Defined.

(** C10, against the specification: the flag is set while the first page
    is being rendered, and that page makes PyMuPDF raise.  The store is
    left as it was, but the run ends with the import error of the page,
    not with "Import cancelled by user". *)
Lemma import_cancelled_counterexample :
  let run :=
    PDFImportThread_run Scenario.E0 (Ok first_page_unrenderable)
      Scenario.pdf_path (Some 2) Scenario.w0 in
  2 ≤ loop_reads (length first_page_unrenderable)
  ∧ store_rows run.1.1 = store_rows Scenario.w0
  ∧ run.1.2
    = [progress_updated 0 2 (str "Starting PDF import...");
       progress_updated 1 2 (str "Processing page 1 of 2");
       import_error (str "Import error: cannot render page")]
  ∧ ¬ Claimed.ends_with_cancellation run.1.2.
Proof.
  cbv zeta.
  assert ((PDFImportThread_run Scenario.E0 (Ok first_page_unrenderable)
             Scenario.pdf_path (Some 2) Scenario.w0).1.2
          = [progress_updated 0 2 (str "Starting PDF import...");
             progress_updated 1 2 (str "Processing page 1 of 2");
             import_error (str "Import error: cannot render page")]) as Hrun
    by evaluated.
  split_and!; [vm_compute; lia|evaluated|done|].
  rewrite Hrun. intros H. discriminate H.
Qed.

End ImportCancelledClaim.

(** ** The counts of the progress signals *)
Section ProgressCounts.
Import PyStr Spec ArchiveStudio More.

Lemma progress_counts_app sigs1 sigs2 :
  progress_counts (sigs1 ++ sigs2) = progress_counts sigs1 ++ progress_counts sigs2.
Proof. unfold progress_counts. apply bind_app. Qed.

Lemma never_decreases_weaken a b counts :
  a ≤ b → never_decreases b counts → never_decreases a counts.
Proof. destruct counts as [|c rest]; [done|]. simpl. intros ? [? ?]. split; [lia|done]. Qed.

Lemma harvest_counts cancel read total success l n0 :
  never_decreases n0
    (progress_counts (harvest cancel read total success l n0).1.2).
Proof.
  revert read n0. induction l as [|i l IH]; intros read n0; simpl; [done|].
  destruct (is_cancelled cancel read); simpl; [done|].
  specialize (IH (S read) (if success i then n0 + 1 else n0)).
  destruct (harvest cancel (S read) total success l _) as [[n sigs] read'].
  simpl in *. split; [destruct (success i); lia|done].
Qed.

Lemma correct_pages_counts E cancel mw total a n st :
  c_emitted (correct_pages E cancel mw total (seq a n) st).1
  = c_emitted st ++ drop (length (c_emitted st))
                      (c_emitted (correct_pages E cancel mw total (seq a n) st).1)
  ∧ never_decreases a
      (progress_counts
         (drop (length (c_emitted st))
            (c_emitted (correct_pages E cancel mw total (seq a n) st).1))).
Proof.
  revert a st. induction n as [|n IH]; intros a st.
  - simpl. rewrite drop_all, app_nil_r. done.
  - cbn [seq correct_pages]. destruct (is_cancelled cancel (c_reads st)).
    { simpl. rewrite drop_all, app_nil_r. done. }
    set (now := progress_updated (a + 1) total _).
    assert (drop (length (c_emitted st)) (c_emitted st ++ [now]) = [now]) as Hnow
      by (by rewrite drop_app_length).
    destruct (series_get _ _ _ _) as [text| |];
      [|simpl; rewrite Hnow; split; [done|simpl; lia]
       |simpl; rewrite Hnow; split; [done|simpl; lia]].
    match goal with |- context [correct_pages E cancel mw total (seq (S a) n) ?s] =>
      set (st1 := s) end.
    assert (c_emitted st1 = c_emitted st ++ [now]) as Hem.
    { unfold st1. destruct (nonblank text); [|done].
      by destruct (process_single_page_correction _ _ _ _ _). }
    destruct (IH (S a) st1) as [Heq Hcounts].
    rewrite Hem in Heq, Hcounts. rewrite length_app in Heq, Hcounts.
    cbn [length] in Heq, Hcounts.
    set (out := c_emitted (correct_pages E cancel mw total (seq (S a) n) st1).1) in *.
    assert (drop (length (c_emitted st)) out
            = now :: drop (length (c_emitted st) + 1) out) as Hdrop.
    { rewrite Heq at 1. rewrite <- app_assoc, drop_app_length. done. }
    split.
    + rewrite Hdrop. rewrite Heq at 1. by rewrite <- app_assoc.
    + rewrite Hdrop. simpl. split; [lia|].
      eapply never_decreases_weaken; [|exact Hcounts]. lia.
Qed.

Lemma progress_steps_counts label total a n :
  never_decreases a
    (progress_counts
       ((λ i, progress_updated (i + 1) total (str label ++ dec (i + 1)))
          <$> seq a n)).
Proof.
  revert a. induction n as [|n IH]; intros a; [done|].
  simpl. split; [lia|]. eapply never_decreases_weaken; [|apply IH]. lia.
Qed.

(** X27: within any job, whatever its kind, the flag and the order of
    completion, the counts carried by the progress signals never go down
    from one signal to the next. *)
Theorem progress_counts_never_decrease E cancel as_completed self w :
  never_decreases 0
    (progress_counts (AIProcessingThread_run E cancel as_completed self w).2).
Proof.
  unfold AIProcessingThread_run. destruct (operation_type self).
  - unfold process_htr_all.
    destruct (data self) as [d|]; [|done].
    destruct (heap w !! d) as [df|]; [|done].
    destruct (df_empty df); [done|].
    destruct (submit_pages cancel 0 (range 0 (df_len df))) as [sub read1].
    pose proof (harvest_counts cancel read1 (df_len df)
      (λ i, bool_decide (is_Some (htr_task E (window w) df i)))
      (as_completed sub) 0) as Hh.
    destruct (harvest _ _ _ _ _ _) as [[n sigs] read2]. simpl in Hh.
    destruct (negb _); simpl; rewrite progress_counts_app; simpl;
      by rewrite app_nil_r.
  - unfold process_text_correction.
    destruct (data self) as [d|]; [|done].
    destruct (heap w !! d) as [df|]; [|done].
    destruct (df_empty df); [done|].
    unfold range. rewrite Nat.sub_0_r.
    destruct (correct_pages_counts E cancel (window w) (df_len df) 0 (df_len df)
      {| c_reads := 0; c_df := df; c_processed := 0; c_emitted := [] |})
      as [_ Hc].
    cbn [c_emitted length] in Hc. rewrite drop_0 in Hc.
    destruct (correct_pages _ _ _ _ _ _) as [st raised]. simpl in Hc.
    destruct raised as [msg|]; [|destruct (negb _)]; simpl;
      rewrite progress_counts_app; simpl; by rewrite app_nil_r.
  - simpl. unfold process_translation. rewrite process_simulated_eq.
    rewrite progress_counts_app.
    replace (progress_counts (if is_cancelled cancel 8 then [] else _)) with (@nil nat)
      by (by destruct (is_cancelled cancel 8)).
    rewrite app_nil_r. apply progress_steps_counts.
  - simpl. unfold process_metadata_extraction. rewrite process_simulated_eq.
    rewrite progress_counts_app.
    replace (progress_counts (if is_cancelled cancel 15 then [] else _)) with (@nil nat)
      by (by destruct (is_cancelled cancel 15)).
    rewrite app_nil_r. apply progress_steps_counts.
Qed.

End ProgressCounts.

(** ** The review tab with nothing to show *)
Section ReviewEmpty.
Import PyStr Spec ArchiveStudio Review More.

(** X28: with no store, or an empty one, the review tab counts 0 pages
    and labels the page "Page 1 / 0", with every navigation button
    disabled, wherever it was before and wherever it is asked to go; the
    update of the display then leaves the editor and the word count as they
    were.  Loading the text, as a change of the text type does, puts the
    notice of the missing document into the editor, and the word count
    counts the 8 words of that notice. *)
Theorem review_without_document E w direction tab :
  from_option df_empty true (store w) = true →
  let shown := navigate_pages E w direction tab in
  current_page shown = 0 ∧ total_pages shown = 0
  ∧ page_label shown = str "Page 1 / 0"
  ∧ prev_enabled shown = false ∧ next_enabled shown = false
  ∧ text_editor shown = text_editor tab
  ∧ word_count_label shown = word_count_label tab
  ∧ image_viewer shown = image_viewer tab
  ∧ update_page_display E w tab = shown
  ∧ text_editor (load_current_text w tab)
    = str "No document loaded. Import documents in PROJECT tab."
  ∧ word_count_label (load_current_text w tab) = str "Words: 8".
Proof.
  intros Hempty. cbv zeta.
  assert (∀ tab', refresh_page_data w tab' = set_pages tab' 0 0) as Hr.
  { intros tab'. unfold refresh_page_data. destruct (store w) as [df|]; [|done].
    simpl in Hempty. by rewrite Hempty. }
  assert (∀ tab', current_row w tab' = None) as Hrow.
  { intros tab'. unfold current_row. destruct (store w) as [df|]; [|done].
    simpl in *. by rewrite Hempty. }
  assert (∀ tab', update_page_display E w tab'
                  = set_navigation (set_pages tab' 0 0) (str "Page 1 / 0")
                      false false) as Hupd.
  { intros tab'. unfold update_page_display, load_current_page.
    by rewrite Hr, Hrow. }
  assert (navigate_pages E w direction tab
          = set_navigation (set_pages tab 0 0) (str "Page 1 / 0") false false)
    as ->.
  { unfold navigate_pages. by rewrite Hr, Hupd. }
  rewrite Hupd. unfold load_current_text. rewrite Hrow.
  by split_and!.
Qed.

Lemma review_without_document_witness :
  page_label (navigate_pages Scenario.E0 blank_world 10 first_page)
  = str "Page 1 / 0".
Proof.
  destruct (review_without_document Scenario.E0 blank_world 10 first_page)
    as (_ & _ & H & _).
  - reflexivity.
  - exact H.
Defined.

End ReviewEmpty.
